(** * vps-operator-agent: command validation, sandboxed tools and the
      orchestration loop

    A shallow embedding of [tools.py] (command validator, [run_shell],
    [run_python], [read_file], [write_file]) and of [orchestrator.py]
    ([get_complete_response], [run_task]), with the properties of the
    specification stated and settled over it.

    Conventions of the embedding.
    - A Python [str] that the program inspects (commands, paths, messages)
      is a [string]; its characters are the code points U+0000..U+00FF and
      the character classes below are Python's on that range.
    - A Python [str] that the program only stores and transports through
      the UTF-8 codec (file contents) is a list of code points ([text]).
    - A Python exception is a value of [exn]; a function that may raise
      returns [result].
    - What lies outside the repository is a record of oracles that the
      functions take as a parameter: [OS] for process execution, [Engine]
      for the chat completion client, the JSON parser, the clock and the
      commands of a session.
    - The file system is a finite map from resolved absolute paths to
      nodes; it has no symbolic links, no permissions and no size limits,
      so [Path.resolve] is lexical normalisation.
    - What a function does to the outside is kept as a list of events, in
      the order of the calls. *)

From Stdlib Require Import ZArith List String Ascii Bool Lia.
From Stdlib Require Import DecimalString.
From stdpp Require Import gmap sorting.
Import ListNotations.

#[local] Open Scope string_scope.
#[local] Open Scope Z_scope.

(** ** Python exceptions and results *)

Inductive exn : Type :=
| ValueError (msg : string)
| OSError (errno : Z) (strerror : string) (filename : string)
| UnicodeEncodeError (msg : string)
| TypeError (msg : string)
| AttributeError (msg : string)
| KeyError (key : string)
| APIError (msg : string).

(** [repr(s)] for a [str]: between single quotes, or between double quotes
    when [s] holds a single quote and no double quote; the quote character
    and the backslash are escaped, so are tab, line feed and carriage
    return, and every other character that is not printable is written
    [\xNN]. *)
Module PyRepr.

Definition code (c : ascii) : N := N_of_ascii c.

Fixpoint has_char (c : ascii) (s : string) : bool :=
  match s with
  | EmptyString => false
  | String x s' => Ascii.eqb x c || has_char c s'
  end.

(** [str.isprintable] on one character *)
Definition isprintable (c : ascii) : bool :=
  ((32 <=? code c) && (code c <=? 126))%N
  || ((161 <=? code c) && (code c <=? 172))%N
  || (174 <=? code c)%N.

Definition hex_digit (d : N) : string :=
  String.substring (N.to_nat d) 1 "0123456789abcdef".

Definition escape (quote c : ascii) : string :=
  if Ascii.eqb c quote || Ascii.eqb c "\"%char
  then String "\"%char (String c EmptyString)
  else if Ascii.eqb c "009"%char then "\t"
  else if Ascii.eqb c "010"%char then "\n"
  else if Ascii.eqb c "013"%char then "\r"
  else if isprintable c then String c EmptyString
  else "\x" ++ hex_digit (code c / 16)%N ++ hex_digit (code c mod 16)%N.

Fixpoint escape_all (quote : ascii) (s : string) : string :=
  match s with
  | EmptyString => EmptyString
  | String c s' => escape quote c ++ escape_all quote s'
  end.

Definition repr (s : string) : string :=
  let quote :=
    if has_char "'"%char s && negb (has_char "034"%char s)
    then "034"%char else "'"%char in
  String quote (escape_all quote s ++ String quote EmptyString).

End PyRepr.

(** [str(e)].  The file name of an [OSError] and the key of a [KeyError]
    are printed by [repr]. *)
Definition exn_str (e : exn) : string :=
  match e with
  | ValueError m | UnicodeEncodeError m | TypeError m | AttributeError m
  | APIError m => m
  | OSError n m f =>
      "[Errno " ++ NilZero.string_of_int (Z.to_int n) ++ "] " ++ m
      ++ ": " ++ PyRepr.repr f
  | KeyError k => PyRepr.repr k
  end.

Definition FileNotFoundError (f : string) : exn :=
  OSError 2 "No such file or directory" f.
Definition FileExistsError (f : string) : exn := OSError 17 "File exists" f.
Definition NotADirectoryError (f : string) : exn :=
  OSError 20 "Not a directory" f.
Definition IsADirectoryError (f : string) : exn :=
  OSError 21 "Is a directory" f.

Inductive result (A : Type) : Type :=
| Ok (a : A)
| Raise (e : exn).
Arguments Ok {A} a.
Arguments Raise {A} e.

#[global] Instance result_ret : MRet result := fun _ a => Ok a.
#[global] Instance result_bind : MBind result := fun _ _ k r =>
  match r with
  | Ok a => k a
  | Raise e => Raise e
  end.

(** ** Characters and strings *)

Module PyStr.

Definition code (c : ascii) : Z := Z.of_N (N_of_ascii c).

Definition in_range (lo hi : Z) (c : ascii) : bool :=
  (lo <=? code c) && (code c <=? hi).

(** [str.isspace] on one character; also the class [\s] of [re] and the
    separators of [str.split()] and [str.strip()]. *)
Definition isspace (c : ascii) : bool :=
  in_range 9 13 c || in_range 28 32 c || (code c =? 133) || (code c =? 160).

(** [str.isalnum] on one character. *)
Definition isalnum (c : ascii) : bool :=
  in_range 48 57 c || in_range 65 90 c || in_range 97 122 c
  || (code c =? 170) || in_range 178 179 c || (code c =? 181)
  || in_range 185 186 c || in_range 188 190 c
  || in_range 192 214 c || in_range 216 246 c || in_range 248 255 c.

(** The class [\w] of [re] on a [str] pattern. *)
Definition isword (c : ascii) : bool := isalnum c || (code c =? 95).

Definition lower_char (c : ascii) : ascii :=
  if in_range 65 90 c || in_range 192 214 c || in_range 216 222 c
  then ascii_of_N (Z.to_N (code c + 32))
  else c.

(** [s.lower()] *)
Fixpoint lower (s : string) : string :=
  match s with
  | EmptyString => EmptyString
  | String c s' => String (lower_char c) (lower s')
  end.

(** [s.startswith(p)] *)
Fixpoint startswith (s p : string) {struct p} : bool :=
  match p, s with
  | EmptyString, _ => true
  | String _ _, EmptyString => false
  | String a p', String b s' => Ascii.eqb a b && startswith s' p'
  end.

(** [p in s] for strings. *)
Fixpoint contains (s p : string) : bool :=
  startswith s p ||
  match s with
  | EmptyString => false
  | String _ s' => contains s' p
  end.

Fixpoint all_chars (f : ascii -> bool) (s : string) : bool :=
  match s with
  | EmptyString => true
  | String c s' => f c && all_chars f s'
  end.

Fixpoint lstrip (s : string) : string :=
  match s with
  | EmptyString => EmptyString
  | String c s' => if isspace c then lstrip s' else s
  end.

Fixpoint rstrip (s : string) : string :=
  match s with
  | EmptyString => EmptyString
  | String c s' =>
      match rstrip s' with
      | EmptyString => if isspace c then EmptyString else String c EmptyString
      | r => String c r
      end
  end.

(** [s.strip()] *)
Definition strip (s : string) : string := rstrip (lstrip s).

(** [s.split(sep)] for a one-character separator: never empty. *)
Fixpoint split_on (sep : ascii) (s : string) : list string :=
  match s with
  | EmptyString => [EmptyString]
  | String c s' =>
      if Ascii.eqb c sep then EmptyString :: split_on sep s'
      else match split_on sep s' with
           | [] => [String c EmptyString]
           | w :: ws => String c w :: ws
           end
  end.

(** [s.split()]: the maximal runs of characters that are not white space. *)
Fixpoint split_ws_aux (cur : option string) (s : string) : list string :=
  match s with
  | EmptyString => match cur with Some w => [w] | None => [] end
  | String c s' =>
      if isspace c
      then match cur with
           | Some w => w :: split_ws_aux None s'
           | None => split_ws_aux None s'
           end
      else split_ws_aux
             (Some (match cur with Some w => w ++ String c EmptyString
                                 | None => String c EmptyString end)) s'
  end.

Definition split_ws (s : string) : list string := split_ws_aux None s.

(** [sep.join(l)] *)
Fixpoint join (sep : string) (l : list string) : string :=
  match l with
  | [] => EmptyString
  | [x] => x
  | x :: l' => x ++ sep ++ join sep l'
  end.

Fixpoint str_drop (n : nat) (s : string) : string :=
  match n, s with
  | O, _ => s
  | S n', String _ s' => str_drop n' s'
  | S _, EmptyString => EmptyString
  end.

Fixpoint str_take (n : nat) (s : string) : string :=
  match n, s with
  | S n', String c s' => String c (str_take n' s')
  | _, _ => EmptyString
  end.

(** [s[-n:]] for a positive [n]. *)
Definition last_chars (n : nat) (s : string) : string :=
  str_drop (String.length s - n)%nat s.

(** [str(i)] for an [int]. *)
Definition str_of_Z (z : Z) : string := NilZero.string_of_int (Z.to_int z).

End PyStr.

(** ** Regular expressions of [re]

    The backtracking matcher of [re], in continuation-passing style:
    alternatives are tried left to right and repetition is greedy, so the
    first success is the match [re] reports.  A repetition gives up an
    iteration that consumed nothing; none of the patterns of the program
    has such an iteration. *)

Module Re.
Import PyStr.

Inductive regex : Type :=
| Eps
| Chr (f : ascii -> bool)
| Lit (s : string)
| Bol
| Seq (r1 r2 : regex)
| Alt (r1 r2 : regex)
| Star (r : regex)
| NegLook (r : regex)
| Grp (r : regex).

Definition Plus (r : regex) : regex := Seq r (Star r).

(** A position in the subject: whether it is offset 0, what is left of
    the subject, and the text of group 1 if it has matched. *)
Record pos : Type := mkPos {
  at_start : bool;
  rest : string;
  cap : option string
}.

Definition advance (n : nat) (p : pos) : pos :=
  mkPos (at_start p && Nat.eqb n 0) (str_drop n (rest p)) (cap p).

Definition consumed (p p' : pos) : nat :=
  (String.length (rest p) - String.length (rest p'))%nat.

Fixpoint rmatch (r : regex) (p : pos) (k : pos -> option pos) {struct r}
  : option pos :=
  match r with
  | Eps => k p
  | Chr f =>
      match rest p with
      | String c _ => if f c then k (advance 1 p) else None
      | EmptyString => None
      end
  | Lit s =>
      if startswith (rest p) s then k (advance (String.length s) p) else None
  | Bol => if at_start p then k p else None
  | Seq r1 r2 => rmatch r1 p (fun p' => rmatch r2 p' k)
  | Alt r1 r2 =>
      match rmatch r1 p k with
      | Some q => Some q
      | None => rmatch r2 p k
      end
  | Star r' =>
      (fix loop (n : nat) (p : pos) {struct n} : option pos :=
         match n with
         | O => k p
         | S n' =>
             match rmatch r' p
                     (fun p' => if Nat.ltb 0 (consumed p p')
                                then loop n' p' else None) with
             | Some q => Some q
             | None => k p
             end
         end) (S (String.length (rest p))) p
  | NegLook r' =>
      match rmatch r' p Some with
      | Some _ => None
      | None => k p
      end
  | Grp r' =>
      rmatch r' p
        (fun p' => k (mkPos (at_start p') (rest p')
                            (Some (str_take (consumed p p') (rest p)))))
  end.

(** The match of [r] that starts exactly at the head of [s]. *)
Definition match_here (r : regex) (start : bool) (s : string) : option pos :=
  rmatch r (mkPos start s None) Some.

(** The leftmost match: the suffix where it starts and where it ends. *)
Fixpoint search_from (r : regex) (start : bool) (s : string)
  : option (string * pos) :=
  match match_here r start s with
  | Some p => Some (s, p)
  | None =>
      match s with
      | EmptyString => None
      | String _ s' => search_from r false s'
      end
  end.

(** [re.search(r, s)] as a truth value. *)
Definition search (r : regex) (s : string) : bool :=
  match search_from r true s with
  | Some _ => true
  | None => false
  end.

(** [re.findall(r, s)] for a pattern with one group that matches no empty
    string: the texts of the group in the successive matches. *)
Fixpoint findall_from (fuel : nat) (r : regex) (start : bool) (s : string)
  : list string :=
  match fuel with
  | O => []
  | S fuel' =>
      match search_from r start s with
      | None => []
      | Some (s0, p) =>
          let g := match cap p with Some t => t | None => EmptyString end in
          if Nat.ltb (String.length (rest p)) (String.length s0)
          then g :: findall_from fuel' r false (rest p)
          else g :: match s0 with
                    | EmptyString => []
                    | String _ s1 => findall_from fuel' r false s1
                    end
      end
  end.

Definition findall (r : regex) (s : string) : list string :=
  findall_from (S (String.length s)) r true s.

(** [re.sub(r, '', s)]: the leftmost matches, one after the other, are
    deleted. *)
Fixpoint sub_empty_from (fuel : nat) (r : regex) (start : bool) (s : string)
  : string :=
  match fuel with
  | O => s
  | S fuel' =>
      let keep :=
        match s with
        | EmptyString => EmptyString
        | String c s' => String c (sub_empty_from fuel' r false s')
        end in
      match match_here r start s with
      | Some p =>
          if Nat.ltb (String.length (rest p)) (String.length s)
          then sub_empty_from fuel' r false (rest p)
          else keep
      | None => keep
      end
  end.

Definition sub_empty (r : regex) (s : string) : string :=
  sub_empty_from (S (String.length s)) r true s.

(** Character classes of the patterns. *)
Definition space : regex := Chr isspace.
Definition nonspace : regex := Chr (fun c => negb (isspace c)).
Definition word : regex := Chr isword.
Definition range (lo hi : ascii) : regex := Chr (in_range (code lo) (code hi)).
Definition one_of (s : string) : regex :=
  Chr (fun c => contains s (String c EmptyString)).

End Re.

(** ** [shlex.split]

    The POSIX-mode lexer of [shlex] as [shlex.split(s)] configures it:
    [whitespace_split] set and no comment characters.  The states are the
    values of [shlex.state]: [' '], ['a'], a quote character, or the
    escape character (which remembers the state it returns to). *)

Module Shlex.
Import PyStr.

Inductive lex_state : Type :=
| InSpace
| InWord
| InQuote (q : ascii)
| InEscape (escapedstate : lex_state).

Definition tab : ascii := "009"%char.
Definition lf : ascii := "010"%char.
Definition cr : ascii := "013"%char.
Definition backslash : ascii := "\"%char.
Definition squote : ascii := "'"%char.
Definition dquote : ascii := "034"%char.

(** [shlex.whitespace] *)
Definition is_whitespace (c : ascii) : bool :=
  Ascii.eqb c " " || Ascii.eqb c tab || Ascii.eqb c cr || Ascii.eqb c lf.

(** [shlex.quotes] *)
Definition is_quote (c : ascii) : bool :=
  Ascii.eqb c squote || Ascii.eqb c dquote.

Definition snoc (s : string) (c : ascii) : string := s ++ String c EmptyString.

Fixpoint lex (st : lex_state) (token : string) (s : string)
  : result (list string) :=
  match s with
  | EmptyString =>
      match st with
      | InSpace => Ok []
      | InWord => Ok [token]
      | InQuote _ => Raise (ValueError "No closing quotation")
      | InEscape _ => Raise (ValueError "No escaped character")
      end
  | String c s' =>
      match st with
      | InSpace =>
          if is_whitespace c then lex InSpace EmptyString s'
          else if Ascii.eqb c backslash then lex (InEscape InWord) EmptyString s'
          else if is_quote c then lex (InQuote c) EmptyString s'
          else lex InWord (String c EmptyString) s'
      | InWord =>
          if is_whitespace c
          then tokens ← lex InSpace EmptyString s'; Ok (token :: tokens)
          else if is_quote c then lex (InQuote c) token s'
          else if Ascii.eqb c backslash then lex (InEscape InWord) token s'
          else lex InWord (snoc token c) s'
      | InQuote q =>
          if Ascii.eqb c q then lex InWord token s'
          else if Ascii.eqb c backslash && Ascii.eqb q dquote
               then lex (InEscape (InQuote q)) token s'
          else lex (InQuote q) (snoc token c) s'
      | InEscape back =>
          let token' :=
            match back with
            | InQuote q =>
                if negb (Ascii.eqb c backslash) && negb (Ascii.eqb c q)
                then snoc token backslash else token
            | _ => token
            end in
          lex back (snoc token' c) s'
      end
  end.

(** [shlex.split(s)] *)
Definition split (s : string) : result (list string) :=
  lex InSpace EmptyString s.

End Shlex.

(** ** [pathlib]: pure paths *)

Module PurePath.
Import PyStr.

(** The components of a path string: [Path(s).parts] without the root. *)
Definition components (s : string) : list string :=
  List.filter (fun x => negb (String.eqb x "") && negb (String.eqb x "."))
              (split_on "/" s).

(** [Path(s).name] *)
Definition name (s : string) : string := List.last (components s) "".

(** [Path(s).is_absolute()] *)
Definition is_absolute (s : string) : bool := startswith s "/".

End PurePath.

(** ** tools.py: the command validator *)

Import PyStr.

(** [str(WORKSPACE)] *)
Definition WORKSPACE_str : string := "/opt/coding-agent/workspace".

Definition BLOCKED_BINARIES : gset string :=
  list_to_set
    [ "rm"; "rmdir"; "dd"; "mkfs"; "fdisk"; "parted";
      "shutdown"; "reboot"; "poweroff"; "halt";
      "iptables"; "ip6tables"; "ufw"; "firewall-cmd";
      "passwd"; "useradd"; "userdel"; "usermod"; "groupadd";
      "chmod"; "chown"; "chgrp"; "chattr";
      "mount"; "umount"; "systemctl"; "service";
      "crontab"; "at"; "batch";
      "sudo"; "su"; "doas";
      "nc"; "netcat"; "socat"; "telnet" ].

Definition SHELL_METACHARACTERS : list string :=
  [ "|"; ">"; "<"; ">>"; "<<"; "&"; "&&"; "||"; ";"; "$("; "`" ].

Definition _has_shell_syntax (command : string) : bool :=
  existsb (fun meta => contains command meta) SHELL_METACHARACTERS.

Module Patterns.
Import Re.

(** [^(\w+=\S+\s+)+] *)
Definition env_assignments : regex :=
  Seq Bol (Plus (Seq (Plus word)
                (Seq (Lit "=") (Seq (Plus nonspace) (Plus space))))).

(** [/dev/(sd|hd|nvme|vd)[a-z]] *)
Definition disk_device : regex :=
  Seq (Lit "/dev/")
      (Seq (Alt (Lit "sd") (Alt (Lit "hd") (Alt (Lit "nvme") (Lit "vd"))))
           (range "a" "z")).

(** [rm\s+(-[rf]*\s+)*/] *)
Definition rm_root : regex :=
  Seq (Lit "rm")
      (Seq (Plus space)
           (Seq (Star (Seq (Lit "-") (Seq (Star (one_of "rf")) (Plus space))))
                (Lit "/"))).

(** [:\(\)\s*\{] *)
Definition fork_bomb : regex :=
  Seq (Lit ":()") (Seq (Star space) (Lit "{")).

(** [mkfs] *)
Definition mkfs : regex := Lit "mkfs".

(** [>\s*/dev/] *)
Definition device_write : regex :=
  Seq (Lit ">") (Seq (Star space) (Lit "/dev/")).

(** [/etc/(passwd|shadow|sudoers)] *)
Definition system_files : regex :=
  Seq (Lit "/etc/") (Alt (Lit "passwd") (Alt (Lit "shadow") (Lit "sudoers"))).

(** [(?:^|\s)(/(?!usr/|bin/|lib/|opt/coding-agent/workspace)[^\s]+)] *)
Definition outside_path : regex :=
  Seq (Alt Bol space)
      (Grp (Seq (Lit "/")
           (Seq (NegLook (Alt (Lit "usr/") (Alt (Lit "bin/") (Alt (Lit "lib/")
                          (Lit "opt/coding-agent/workspace")))))
                (Plus nonspace)))).

End Patterns.

Definition dangerous_patterns : list (Re.regex * string) :=
  [ (Patterns.disk_device, "Direct disk device access");
    (Patterns.rm_root, "Recursive delete from root");
    (Patterns.fork_bomb, "Fork bomb");
    (Patterns.mkfs, "Filesystem creation");
    (Patterns.device_write, "Writing to device files");
    (Patterns.system_files, "Modifying critical system files") ].

Definition file_patterns : list Re.regex := [ Patterns.outside_path ].

Definition _extract_binary (command : string) : result string :=
  let cmd := strip command in
  let cmd := Re.sub_empty Patterns.env_assignments cmd in
  parts ← (if negb (_has_shell_syntax cmd) then Shlex.split cmd
           else Ok (split_ws cmd));
  match parts with
  | [] => Ok ""
  | binary :: _ => Ok (PurePath.name binary)
  end.

(** The first pattern of the list that the lowered command matches. *)
Definition first_dangerous (cmd_lower : string) : option string :=
  match List.find (fun pr => Re.search (fst pr) cmd_lower) dangerous_patterns with
  | Some (_, reason) => Some reason
  | None => None
  end.

Fixpoint check_matches (matches : list string) : result unit :=
  match matches with
  | [] => Ok tt
  | m :: rest =>
      if negb (startswith m WORKSPACE_str)
         && negb (existsb (fun p => startswith m p) ["/usr/"; "/bin/"; "/lib/"])
      then Raise (ValueError ("Absolute path outside workspace: " ++ m))
      else check_matches rest
  end.

Fixpoint check_file_patterns (patterns : list Re.regex) (command : string)
  : result unit :=
  match patterns with
  | [] => Ok tt
  | pattern :: rest =>
      check_matches (Re.findall pattern command);;
      check_file_patterns rest command
  end.

Definition _validate_command_safety (command : string) : result unit :=
  let cmd_lower := lower command in
  match first_dangerous cmd_lower with
  | Some reason => Raise (ValueError ("Blocked: " ++ reason))
  | None =>
      binary ← _extract_binary command;
      if bool_decide (binary ∈ BLOCKED_BINARIES)
      then Raise (ValueError ("Blocked binary: " ++ binary))
      else check_file_patterns file_patterns command
  end.


(** ** The UTF-8 codec

    [str.encode("utf-8")] and [bytes.decode("utf-8", errors="replace")].
    A byte is an integer in 0..255 and a text a list of code points. *)

Module Utf8.

Definition text : Type := list Z.
Definition bytes : Type := list Z.

Definition is_surrogate (c : Z) : bool := (0xD800 <=? c) && (c <=? 0xDFFF).

(** The code points of a [str]: 0..0x10FFFF. *)
Definition valid_code_point (c : Z) : Prop := 0 <= c < 0x110000.

Definition encode_code_point (c : Z) : bytes :=
  if c <? 0x80 then [c]
  else if c <? 0x800 then [0xC0 + c / 64; 0x80 + c mod 64]
  else if c <? 0x10000
       then [0xE0 + c / 4096; 0x80 + (c / 64) mod 64; 0x80 + c mod 64]
  else [0xF0 + c / 262144; 0x80 + (c / 4096) mod 64;
        0x80 + (c / 64) mod 64; 0x80 + c mod 64].

Definition hex_digit (d : Z) : string :=
  String.substring (Z.to_nat d) 1 "0123456789abcdef".

Definition hex4 (c : Z) : string :=
  hex_digit (c / 4096) ++ hex_digit ((c / 256) mod 16)
  ++ hex_digit ((c / 16) mod 16) ++ hex_digit (c mod 16).

(** The length of the run of surrogates at the head of [t]. *)
Fixpoint surrogate_run (t : text) : nat :=
  match t with
  | c :: t' => if is_surrogate c then S (surrogate_run t') else O
  | [] => O
  end.

Definition surrogates_not_allowed (i : nat) (c : Z) (t' : text) : exn :=
  let position := PyStr.str_of_Z (Z.of_nat i) in
  UnicodeEncodeError
    (match surrogate_run t' with
     | O => "'utf-8' codec can't encode character '\u" ++ hex4 c
            ++ "' in position " ++ position
     | S n => "'utf-8' codec can't encode characters in position "
              ++ position ++ "-" ++ PyStr.str_of_Z (Z.of_nat (i + S n))
     end ++ ": surrogates not allowed").

(** The encoder stops at the first surrogate, where Python raises
    [UnicodeEncodeError]. *)
Fixpoint encode_from (i : nat) (t : text) : result bytes :=
  match t with
  | [] => Ok []
  | c :: t' =>
      if is_surrogate c then Raise (surrogates_not_allowed i c t')
      else bs ← encode_from (S i) t'; Ok ((encode_code_point c ++ bs)%list)
  end.

Definition encode (t : text) : result bytes := encode_from 0 t.

Definition replacement : Z := 0xFFFD.

Definition is_continuation (b : Z) : bool := (0x80 <=? b) && (b <=? 0xBF).

(** Whether [b1] may follow the lead byte [b0] of a sequence of three or
    four bytes: a continuation byte that makes the sequence neither
    overlong, nor a surrogate, nor larger than 0x10FFFF. *)
Definition second_ok (b0 b1 : Z) : bool :=
  is_continuation b1
  && negb ((b0 =? 0xE0) && (b1 <? 0xA0))
  && negb ((b0 =? 0xED) && (0xA0 <=? b1))
  && negb ((b0 =? 0xF0) && (b1 <? 0x90))
  && negb ((b0 =? 0xF4) && (0x90 <=? b1)).

(** Every maximal ill-formed prefix becomes one U+FFFD and decoding goes
    on behind it. *)
Fixpoint decode_replace (bs : bytes) : text :=
  match bs with
  | [] => []
  | b0 :: r0 =>
      if b0 <? 0x80 then b0 :: decode_replace r0
      else if (b0 <? 0xC2) || (0xF5 <=? b0)
           then replacement :: decode_replace r0
      else
        match r0 with
        | [] => [replacement]
        | b1 :: r1 =>
            if b0 <? 0xE0 then
              if is_continuation b1
              then ((b0 - 0xC0) * 64 + (b1 - 0x80)) :: decode_replace r1
              else replacement :: decode_replace r0
            else if negb (second_ok b0 b1)
                 then replacement :: decode_replace r0
            else
              match r1 with
              | [] => [replacement]
              | b2 :: r2 =>
                  if negb (is_continuation b2)
                  then replacement :: decode_replace r1
                  else if b0 <? 0xF0
                       then ((b0 - 0xE0) * 4096 + (b1 - 0x80) * 64 + (b2 - 0x80))
                            :: decode_replace r2
                  else
                    match r2 with
                    | [] => [replacement]
                    | b3 :: r3 =>
                        if negb (is_continuation b3)
                        then replacement :: decode_replace r2
                        else ((b0 - 0xF0) * 262144 + (b1 - 0x80) * 4096
                              + (b2 - 0x80) * 64 + (b3 - 0x80))
                             :: decode_replace r3
                    end
              end
        end
  end.

End Utf8.

(** ** The file system and [pathlib] paths on it *)

Module Fs.
Import PyStr.

(** A resolved absolute path: its components below the root. *)
Abbreviation path := (list string).

(** [str(p)] *)
Definition path_str (p : path) : string :=
  match p with
  | [] => "/"
  | _ => "/" ++ join "/" p
  end.

(** [p.parent]; the root is its own parent. *)
Definition parent (p : path) : path := removelast p.

(** [p.parents]: the proper ancestors, nearest first. *)
Definition parents (p : path) : list path :=
  List.map (fun n => firstn n p) (List.rev (List.seq 0 (List.length p))).

Definition WORKSPACE : path := ["opt"; "coding-agent"; "workspace"].

Definition NUL : string := String "000"%char EmptyString.

Definition resolve_step (acc : path) (c : string) : path :=
  if String.eqb c ".." then removelast acc else (acc ++ [c])%list.

(** [(WORKSPACE / s).resolve()].  The join keeps [s] alone when it is
    absolute; [resolve] walks the components from the root, [..] dropping
    the last one reached (none at the root); the [lstat] of [realpath]
    raises on an embedded NUL. *)
Definition resolve_in_workspace (s : string) : result path :=
  if contains s NUL then Raise (ValueError "embedded null byte")
  else Ok (List.fold_left resolve_step (PurePath.components s)
             (if PurePath.is_absolute s then [] else WORKSPACE)).

(** [WORKSPACE in p.parents] *)
Definition workspace_in_parents (p : path) : bool :=
  bool_decide (WORKSPACE ∈ parents p).

(** [WORKSPACE in p.parents or p == WORKSPACE]: the negation of the guard
    of [_safe_cwd], [read_file] and [write_file]. *)
Definition inside_workspace (p : path) : bool :=
  workspace_in_parents p || bool_decide (p = WORKSPACE).

Inductive node : Type :=
| Dir
| File (data : Utf8.bytes).

#[global] Instance node_eq_dec : EqDecision node.
Proof. unfold Utf8.bytes. solve_decision. Defined.

Abbreviation filesystem := (gmap path node).

(** The kernel's walk to [cur ++ todo]: every component on the way must be
    a directory.  [full] is the path the error reports. *)
Fixpoint stat_from (fs : filesystem) (cur : path) (todo : list string)
    (full : path) : result node :=
  match fs !! cur with
  | None => Raise (FileNotFoundError (path_str full))
  | Some n =>
      match todo with
      | [] => Ok n
      | c :: todo' =>
          match n with
          | Dir => stat_from fs (cur ++ [c])%list todo' full
          | File _ => Raise (NotADirectoryError (path_str full))
          end
      end
  end.

Definition stat (fs : filesystem) (p : path) : result node :=
  stat_from fs [] p p.

(** [p.exists()] *)
Definition exists_ (fs : filesystem) (p : path) : bool :=
  match stat fs p with Ok _ => true | Raise _ => false end.

(** [p.is_file()] *)
Definition is_file (fs : filesystem) (p : path) : bool :=
  match stat fs p with Ok (File _) => true | _ => false end.

(** [p.is_dir()] *)
Definition is_dir (fs : filesystem) (p : path) : bool :=
  match stat fs p with Ok Dir => true | _ => false end.

(** [p.read_bytes()] *)
Definition read_bytes (fs : filesystem) (p : path) : result Utf8.bytes :=
  n ← stat fs p;
  match n with
  | File data => Ok data
  | Dir => Raise (IsADirectoryError (path_str p))
  end.

(** The directory that is to hold a new entry [p]. *)
Definition stat_parent (fs : filesystem) (p : path) : result unit :=
  n ← stat_from fs [] (parent p) p;
  match n with
  | Dir => Ok tt
  | File _ => Raise (NotADirectoryError (path_str p))
  end.

(** [os.mkdir(p)] *)
Definition os_mkdir (fs : filesystem) (p : path) : result filesystem :=
  match p with
  | [] => Raise (FileExistsError (path_str p))
  | _ =>
      stat_parent fs p;;
      match fs !! p with
      | Some _ => Raise (FileExistsError (path_str p))
      | None => Ok (<[p := Dir]> fs)
      end
  end.

Definition is_file_not_found (e : exn) : bool :=
  match e with
  | OSError n _ _ => n =? 2
  | _ => false
  end.

(** [p.mkdir(parents=False, exist_ok=True)] *)
Definition mkdir_exist_ok (fs : filesystem) (p : path) : result filesystem :=
  match os_mkdir fs p with
  | Ok fs' => Ok fs'
  | Raise e =>
      if is_file_not_found e then Raise e
      else if is_dir fs p then Ok fs else Raise e
  end.

(** [p.mkdir(parents=True, exist_ok=True)], by recursion on the number [n]
    of components of [p]. *)
Fixpoint mkdir_parents (n : nat) (fs : filesystem) (p : path)
  : result filesystem :=
  match os_mkdir fs p with
  | Ok fs' => Ok fs'
  | Raise e =>
      if is_file_not_found e then
        match n with
        | O => Raise e
        | S n' =>
            fs1 ← mkdir_parents n' fs (parent p);
            mkdir_exist_ok fs1 p
        end
      else if is_dir fs p then Ok fs else Raise e
  end.

Definition mkdir (fs : filesystem) (p : path) : result filesystem :=
  mkdir_parents (List.length p) fs p.

(** [p.write_text(content, encoding="utf-8")]: the file is opened for
    writing, which creates or empties it, and then receives the encoded
    content.  An exception leaves the file system as it was when raised. *)
Definition write_text (fs : filesystem) (p : path) (content : Utf8.text)
  : result unit * filesystem :=
  match p with
  | [] => (Raise (IsADirectoryError (path_str p)), fs)
  | _ =>
      match stat_parent fs p with
      | Raise e => (Raise e, fs)
      | Ok _ =>
          match fs !! p with
          | Some Dir => (Raise (IsADirectoryError (path_str p)), fs)
          | _ =>
              let fs1 := <[p := File []]> fs in
              match Utf8.encode content with
              | Raise e => (Raise e, fs1)
              | Ok data => (Ok tt, <[p := File data]> fs1)
              end
          end
      end
  end.

End Fs.

(** ** The world of the tools: process execution *)

(** The arguments of one [subprocess.run] call. *)
Record SpawnRequest : Type := mkSpawn {
  sp_args : list string;
  sp_shell : bool;
  sp_cwd : string;
  sp_timeout : Z;
  sp_env : option (list (string * string));
  sp_executable : option string
}.

(** What [subprocess.run] does: it returns a completed process, raises
    [TimeoutExpired] after having killed the child, or raises another
    exception because the process could not be started. *)
Inductive ProcOutcome : Type :=
| Completed (returncode : Z) (stdout stderr : string)
| TimeoutExpired
| SpawnFailed (e : exn).

(** The operating system as the tools see it: running a process yields an
    outcome and the file system the process leaves behind. *)
Record OS : Type := mkOS {
  subprocess_run : SpawnRequest -> Fs.filesystem -> ProcOutcome * Fs.filesystem
}.

(** The calls a tool makes, in order. *)
Inductive event : Type :=
| ValidateCall (command : string)
| SpawnCall (req : SpawnRequest).

Definition is_spawn (e : event) : bool :=
  match e with SpawnCall _ => true | ValidateCall _ => false end.

(** One run of a tool: what it returns or raises, the file system it
    leaves, and the calls it made. *)
Record Run (A : Type) : Type := mkRun {
  value : result A;
  fs_after : Fs.filesystem;
  trace : list event
}.
Arguments mkRun {A} value fs_after trace.
Arguments value {A} r.
Arguments fs_after {A} r.
Arguments trace {A} r.

(** ** tools.py: the sandboxed executor *)

(** The dictionary [run_shell] returns; a key that a return statement
    leaves out is [None]. *)
Record ShellResult : Type := mkShellResult {
  returncode : Z;
  stdout : string;
  stderr : string;
  command : string;
  cwd : option string;
  shell_mode : option bool
}.

Record PythonResult : Type := mkPythonResult {
  py_returncode : Z;
  py_stdout : string;
  py_stderr : string;
  py_file : string
}.

(** The dictionaries of [read_file]: [{"path", "error"}] and
    [{"path", "content"}]. *)
Inductive ReadResult : Type :=
| ReadError (path error : string)
| ReadContent (path : string) (content : Utf8.text).

(** The dictionaries of [write_file]: [{"path", "bytes", "success": True}]
    and [{"path", "error", "success": False}]. *)
Inductive WriteResult : Type :=
| WriteDone (path : string) (nbytes : Z)
| WriteError (path error : string).

Definition success (r : WriteResult) : bool :=
  match r with WriteDone _ _ => true | WriteError _ _ => false end.

Definition _safe_cwd (cwd : option string) : result Fs.path :=
  match cwd with
  | None | Some EmptyString => Ok Fs.WORKSPACE
  | Some c =>
      p ← Fs.resolve_in_workspace c;
      if negb (Fs.workspace_in_parents p) && negb (bool_decide (p = Fs.WORKSPACE))
      then Raise (ValueError "cwd must be inside workspace")
      else Ok p
  end.

(** [if not (1 <= timeout <= 600): timeout = min(max(timeout, 1), 600)] *)
Definition clamp_timeout (timeout : Z) : Z :=
  if negb ((1 <=? timeout) && (timeout <=? 600))
  then Z.min (Z.max timeout 1) 600
  else timeout.

(** [out[-8000:] if out else ""] *)
Definition tail_output (out : string) : string :=
  last_chars (Z.to_nat 8000) out.

Definition shell_env (safe_cwd_path : Fs.path) : list (string * string) :=
  [ ("PATH", "/usr/bin:/bin:/usr/local/bin");
    ("HOME", WORKSPACE_str);
    ("PWD", Fs.path_str safe_cwd_path) ].

(** The [try] block of [run_shell] with its two handlers. *)
Definition execute_checked (os : OS) (command : string)
    (safe_cwd_path : Fs.path) (timeout : Z) (fs : Fs.filesystem)
  : ShellResult * Fs.filesystem * list event :=
  let use_shell := _has_shell_syntax command in
  let cwd_str := Fs.path_str safe_cwd_path in
  let failed e :=
    mkShellResult 127 "" ("Execution error: " ++ exn_str e) command
                  (Some cwd_str) None in
  let request : result SpawnRequest :=
    if use_shell
    then Ok (mkSpawn [command] true cwd_str timeout
                     (Some (shell_env safe_cwd_path)) (Some "/bin/bash"))
    else args ← Shlex.split command;
         Ok (mkSpawn args false cwd_str timeout None None) in
  match request with
  | Raise e => (failed e, fs, [])
  | Ok req =>
      let '(outcome, fs') := subprocess_run os req fs in
      (match outcome with
       | Completed rc out err =>
           mkShellResult rc (tail_output out) (tail_output err) command
                         (Some cwd_str) (Some use_shell)
       | TimeoutExpired =>
           mkShellResult 124 ""
             ("Command timed out after " ++ str_of_Z timeout ++ "s")
             command (Some cwd_str) None
       | SpawnFailed e => failed e
       end, fs', [SpawnCall req])
  end.

Definition run_shell (os : OS) (command : string) (cwd : option string)
    (timeout : Z) (fs : Fs.filesystem) : Run ShellResult :=
  if String.eqb command "" || String.eqb (strip command) ""
  then mkRun (Ok (mkShellResult 1 "" "Empty command" command None None)) fs []
  else
    let timeout := clamp_timeout timeout in
    match _validate_command_safety command with
    | Raise (ValueError msg) =>
        mkRun (Ok (mkShellResult 126 "" ("BLOCKED: " ++ msg) command
                                 (Some WORKSPACE_str) None))
              fs [ValidateCall command]
    | Raise e => mkRun (Raise e) fs [ValidateCall command]
    | Ok _ =>
        match _safe_cwd cwd with
        | Raise e => mkRun (Raise e) fs [ValidateCall command]
        | Ok safe_cwd_path =>
            let '(r, fs', calls) :=
              execute_checked os command safe_cwd_path timeout fs in
            mkRun (Ok r) fs' (ValidateCall command :: calls)
        end
    end.

Definition run_python (os : OS) (code : Utf8.text) (filename : string)
    (timeout : Z) (fs : Fs.filesystem) : Run PythonResult :=
  let timeout := clamp_timeout timeout in
  let failed e file fs' calls :=
    mkRun (Ok (mkPythonResult 127 "" ("Error: " ++ exn_str e) file)) fs' calls in
  match Fs.resolve_in_workspace filename with
  | Raise e => failed e filename fs []
  | Ok p =>
      let file := Fs.path_str p in
      if negb (Fs.workspace_in_parents p)
      then failed (ValueError "filename must be inside workspace") file fs []
      else
        match Fs.write_text fs p code with
        | (Raise e, fs1) => failed e file fs1 []
        | (Ok _, fs1) =>
            let req := mkSpawn ["python3"; file] false WORKSPACE_str timeout
                               None None in
            let '(outcome, fs2) := subprocess_run os req fs1 in
            match outcome with
            | Completed rc out err =>
                mkRun (Ok (mkPythonResult rc (tail_output out)
                                          (tail_output err) file))
                      fs2 [SpawnCall req]
            | TimeoutExpired =>
                mkRun (Ok (mkPythonResult 124 ""
                             ("Python execution timed out after "
                              ++ str_of_Z timeout ++ "s") file))
                      fs2 [SpawnCall req]
            | SpawnFailed e => failed e file fs2 [SpawnCall req]
            end
        end
  end.

(** [data[:max_bytes]] *)
Definition slice_to (max_bytes : Z) (data : Utf8.bytes) : Utf8.bytes :=
  if 0 <=? max_bytes then firstn (Z.to_nat max_bytes) data
  else firstn (List.length data - Z.to_nat (- max_bytes)) data.

Definition read_file (fs : Fs.filesystem) (path : string) (max_bytes : Z)
  : ReadResult :=
  let body : result ReadResult :=
    p ← Fs.resolve_in_workspace path;
    if negb (Fs.workspace_in_parents p) && negb (bool_decide (p = Fs.WORKSPACE))
    then Raise (ValueError "path must be inside workspace")
    else if negb (Fs.exists_ fs p)
         then Ok (ReadError (Fs.path_str p) "not_found")
    else if negb (Fs.is_file fs p)
         then Ok (ReadError (Fs.path_str p) "not_a_file")
    else data ← Fs.read_bytes fs p;
         Ok (ReadContent (Fs.path_str p)
                         (Utf8.decode_replace (slice_to max_bytes data))) in
  match body with
  | Ok r => r
  | Raise e => ReadError path (exn_str e)
  end.

Definition write_file (fs : Fs.filesystem) (path : string)
    (content : Utf8.text) : WriteResult * Fs.filesystem :=
  let failed e fs' := (WriteError path (exn_str e), fs') in
  match Fs.resolve_in_workspace path with
  | Raise e => failed e fs
  | Ok p =>
      if negb (Fs.workspace_in_parents p) && negb (bool_decide (p = Fs.WORKSPACE))
      then failed (ValueError "path must be inside workspace") fs
      else
        match Fs.mkdir fs (Fs.parent p) with
        | Raise e => failed e fs
        | Ok fs1 =>
            match Fs.write_text fs1 p content with
            | (Raise e, fs2) => failed e fs2
            | (Ok _, fs2) =>
                match Utf8.encode content with
                | Raise e => failed e fs2
                | Ok data =>
                    (WriteDone (Fs.path_str p) (Z.of_nat (List.length data)), fs2)
                end
            end
        end
  end.

(** ** tools.py: [list_deliverables] *)

Module Glob.
Import Fs.

(** [s.rfind(c)] for one character; [None] stands for -1. *)
Fixpoint rfind (c : ascii) (s : string) : option nat :=
  match s with
  | EmptyString => None
  | String x s' =>
      match rfind c s' with
      | Some i => Some (S i)
      | None => if Ascii.eqb x c then Some O else None
      end
  end.

(** [p.name] *)
Definition name (p : path) : string := List.last p "".

(** [p.suffix]: the name from its last dot on, unless that dot is the
    first or the last character of the name. *)
Definition suffix (p : path) : string :=
  match rfind "." (name p) with
  | Some i =>
      if Nat.ltb 0 i && Nat.ltb i (String.length (name p) - 1)
      then str_drop i (name p) else ""
  | None => ""
  end.

(** [p.relative_to(other)] *)
Definition relative_to (p other : path) : result path :=
  if bool_decide (other `prefix_of` p)
  then Ok (skipn (List.length other) p)
  else Raise (ValueError
                ("'" ++ path_str p ++ "' is not in the subpath of '"
                 ++ path_str other
                 ++ "' OR one path is relative and the other is absolute.")).

(** [str(p)] for a relative path. *)
Definition rel_str (rel : path) : string :=
  match rel with
  | [] => "."
  | _ => join "/" rel
  end.

(** [root.rglob('*')]: every entry below [root] that the walk through the
    directories reaches, hidden ones included.  The order is the one of
    the enumeration of the map; Python leaves it to the operating
    system. *)
Definition rglob (fs : filesystem) (root : path) : list path :=
  List.filter (fun p => bool_decide (root ∈ parents p) && exists_ fs p)
              (List.map fst (map_to_list fs)).

(** The order of [str]: code point by code point. *)
Definition str_le (a b : string) : Prop := String.leb a b = true.

#[global] Instance str_le_dec (a b : string) : Decision (str_le a b).
Proof. unfold str_le. apply _. Defined.

(** [sorted(l)] for a list of [str] *)
Definition sorted (l : list string) : list string := merge_sort str_le l.

End Glob.

Definition extensions : gset string :=
  list_to_set [".txt"; ".json"; ".csv"; ".html"; ".md"; ".py"; ".sh"; ".log"].

Definition exclude_names : gset string :=
  list_to_set ["snippet.py"; ".gitkeep"].

(** The loop of [list_deliverables] over the items of [rglob]; the list it
    returns is [deliverables] in the order of the [append]s. *)
Fixpoint collect_deliverables (fs : Fs.filesystem) (items : list Fs.path)
  : result (list string) :=
  match items with
  | [] => Ok []
  | item :: items' =>
      if Fs.is_file fs item then
        if bool_decide (Glob.name item ∈ exclude_names)
        then collect_deliverables fs items'
        else if bool_decide (Glob.suffix item ∈ extensions)
             then rel_path ← Glob.relative_to item Fs.WORKSPACE;
                  deliverables ← collect_deliverables fs items';
                  Ok (Glob.rel_str rel_path :: deliverables)
             else collect_deliverables fs items'
      else collect_deliverables fs items'
  end.

Definition list_deliverables (fs : Fs.filesystem) : result (list string) :=
  deliverables ← collect_deliverables fs (Glob.rglob fs Fs.WORKSPACE);
  Ok (Glob.sorted deliverables).

(** ** orchestrator.py *)

Module Orchestrator.

Definition MAX_ITERATIONS : nat := 10.

(** One entry of the conversation: [{"role": ..., "content": ...}]. *)
Record message : Type := mkMessage {
  role : string;
  content : string
}.

(** What the loop reads of a chat completion: [choices[0].message.content],
    [choices[0].finish_reason] and the token usage. *)
Record Completion : Type := mkCompletion {
  c_content : option string;
  finish_reason : string;
  prompt_tokens : Z;
  completion_tokens : Z;
  usage_total_tokens : Z
}.

Inductive ApiOutcome : Type :=
| ApiReturned (c : Completion)
| ApiRaised (e : exn).

(** What [json.loads] makes of the cleaned response: it raises
    [JSONDecodeError], returns a dictionary, of which the loop reads three
    keys (a missing key is [None]), or returns a value of another type.
    The values of the three keys are taken at the types of the protocol:
    two strings and a list of strings. *)
Inductive JsonLoad : Type :=
| JSONDecodeError
| JsonDict (status reasoning : option string) (commands : option (list string))
| JsonOther (type_name : string).

(** The dictionary of [execute_command]. *)
Record CommandResult : Type := mkCommandResult {
  cr_command : string;
  cr_returncode : Z;
  cr_stdout : string;
  cr_stderr : string;
  cr_success : bool
}.

(** The world of the orchestrator.  [create k messages] is the [k]-th call
    of [client.chat.completions.create] of the session, [run_command k c]
    the [k]-th [subprocess.run] of a command; the clock counts
    microseconds. *)
Record Engine : Type := mkEngine {
  create : nat -> list message -> ApiOutcome;
  json_loads : string -> JsonLoad;
  json_dumps_feedback : nat -> list CommandResult -> string;
  run_command : nat -> string -> ProcOutcome;
  system_prompt : option string;
  workspace_files : list string;
  start_time : Z;
  end_time : Z
}.

(** The entries of [self.metadata] that [run_task] sets. *)
Record Metadata : Type := mkMetadata {
  md_task : option string;
  md_status : option string;
  md_block_reason : option string;
  md_duration : option Z;
  md_total_commands : option nat;
  md_failed_commands : option nat;
  md_deliverables : option (list string)
}.

(** What the session does to the outside, in order. *)
Inductive effect : Type :=
| ApiCall (k : nat) (messages : list message)
| CommandRun (k : nat) (cmd : string) (succeeded : bool)
| IterationLogged (n : nat) (reasoning : string) (commands : list string)
    (results : list CommandResult)
| DeliverablesCopied (files : list string)
| SessionWritten (metadata : Metadata)
| ReportWritten.

(** The fields of [self] that the loop updates, with the effects so far.
    The markdown transcript, the console output and the cost in dollars
    are left out. *)
Record Orch : Type := mkOrch {
  iteration : nat;
  api_call_count : nat;
  total_tokens : Z;
  total_prompt_tokens : Z;
  total_completion_tokens : Z;
  metadata : Metadata;
  effects : list effect
}.

Definition emit (e : effect) (o : Orch) : Orch :=
  mkOrch (iteration o) (api_call_count o) (total_tokens o)
         (total_prompt_tokens o) (total_completion_tokens o) (metadata o)
         (effects o ++ [e])%list.

Definition set_iteration (i : nat) (o : Orch) : Orch :=
  mkOrch i (api_call_count o) (total_tokens o) (total_prompt_tokens o)
         (total_completion_tokens o) (metadata o) (effects o).

Definition set_metadata (m : Metadata) (o : Orch) : Orch :=
  mkOrch (iteration o) (api_call_count o) (total_tokens o)
         (total_prompt_tokens o) (total_completion_tokens o) m (effects o).

Definition count_call (o : Orch) : Orch :=
  mkOrch (iteration o) (S (api_call_count o)) (total_tokens o)
         (total_prompt_tokens o) (total_completion_tokens o) (metadata o)
         (effects o).

Definition track_tokens (c : Completion) (o : Orch) : Orch :=
  mkOrch (iteration o) (api_call_count o)
         (total_tokens o + usage_total_tokens c)
         (total_prompt_tokens o + prompt_tokens c)
         (total_completion_tokens o + completion_tokens c)
         (metadata o) (effects o).

Definition set_status (st : string) (m : Metadata) : Metadata :=
  mkMetadata (md_task m) (Some st) (md_block_reason m) (md_duration m)
             (md_total_commands m) (md_failed_commands m) (md_deliverables m).

Definition set_block_reason (r : string) (m : Metadata) : Metadata :=
  mkMetadata (md_task m) (md_status m) (Some r) (md_duration m)
             (md_total_commands m) (md_failed_commands m) (md_deliverables m).

(** What [get_complete_response] returns, with the list [messages] it has
    appended to (the caller's own list) and the updated object. *)
Record Response : Type := mkResponse {
  text : option string;
  completion_status : string;
  r_messages : list message;
  r_self : Orch
}.

(** The [while attempts < max_continuation_attempts] loop; [fuel] is the
    number of attempts left. *)
Fixpoint continuation_loop (w : Engine) (fuel : nat)
    (accumulated_response : string) (messages : list message) (o : Orch)
  : Response :=
  match fuel with
  | O => mkResponse (Some accumulated_response) "max_continuations" messages o
  | S fuel' =>
      let o := count_call o in
      let o := emit (ApiCall (api_call_count o) messages) o in
      let on_error acc o :=
        mkResponse (if String.eqb acc "" then None else Some acc) "error"
                   messages o in
      match create w (api_call_count o) messages with
      | ApiRaised _ => on_error accumulated_response o
      | ApiReturned c =>
          match c_content c with
          | None => on_error accumulated_response o
          | Some content =>
              let accumulated_response := accumulated_response ++ content in
              let o := track_tokens c o in
              if String.eqb (finish_reason c) "stop"
              then mkResponse (Some accumulated_response) "complete" messages o
              else if String.eqb (finish_reason c) "length"
              then continuation_loop w fuel' accumulated_response
                     (messages ++ [mkMessage "assistant" content;
                                   mkMessage "user" "Continue."])%list o
              else mkResponse (Some accumulated_response) (finish_reason c)
                              messages o
          end
      end
  end.

Definition get_complete_response (w : Engine) (messages : list message)
    (max_continuation_attempts : nat) (o : Orch) : Response :=
  continuation_loop w max_continuation_attempts "" messages o.

Definition LF : string := String "010"%char EmptyString.
Definition fence : string := "```".

(** The response without its markdown code fences. *)
Definition clean_response (content : string) : string :=
  let clean_content := strip content in
  if startswith clean_content fence then
    let lines := split_on "010"%char clean_content in
    let lines :=
      match lines with
      | first :: others => if startswith first fence then others else lines
      | [] => lines
      end in
    let lines :=
      match lines with
      | [] => lines
      | _ => if startswith (List.last lines "") fence
             then removelast lines else lines
      end in
    join LF lines
  else clean_content.

Definition execute_command (w : Engine) (k : nat) (command : string)
  : CommandResult :=
  match run_command w k command with
  | Completed rc out err => mkCommandResult command rc out err (rc =? 0)
  | TimeoutExpired =>
      mkCommandResult command 124 "" "Command timed out after 300s" false
  | SpawnFailed e => mkCommandResult command 1 "" (exn_str e) false
  end.

(** The local variables of [run_task] that live across iterations. *)
Record Loop : Type := mkLoop {
  self : Orch;
  messages : list message;
  total_commands : nat;
  failed_commands : nat
}.

(** [for cmd in commands]: each command is run and counted. *)
Fixpoint run_commands (w : Engine) (commands : list string) (st : Loop)
    (results : list CommandResult) : Loop * list CommandResult :=
  match commands with
  | [] => (st, results)
  | cmd :: rest =>
      let total := S (total_commands st) in
      let result := execute_command w total cmd in
      let failed := if cr_success result then failed_commands st
                    else S (failed_commands st) in
      run_commands w rest
        (mkLoop (emit (CommandRun total cmd (cr_success result)) (self st))
                (messages st)
                total failed)
        (results ++ [result])%list
  end.

Inductive control : Type := Continue | Break.

Definition invalid_json_nudge : string :=
  "ERROR: You must respond with valid JSON only. No other text.".

(** The handler of the outer [try] of the loop body. *)
Definition system_error (e : exn) (st : Loop) : control * Loop :=
  (Continue,
   mkLoop (self st)
          (messages st ++
             [mkMessage "user"
                ("System error: " ++ exn_str e
                 ++ ". Please continue or mark as blocked.")])%list
          (total_commands st) (failed_commands st)).

(** The body of [for self.iteration in range(1, MAX_ITERATIONS + 1)]. *)
Definition iteration_body (w : Engine) (i : nat) (st : Loop)
  : control * Loop :=
  let r := get_complete_response w (messages st) 5
             (set_iteration i (self st)) in
  let st := mkLoop (r_self r) (r_messages r) (total_commands st)
                   (failed_commands st) in
  if String.eqb (completion_status r) "error" then (Break, st)
  else
    match text r with
    | None =>
        system_error
          (AttributeError "'NoneType' object has no attribute 'strip'") st
    | Some content =>
        match json_loads w (clean_response content) with
        | JSONDecodeError =>
            (Continue,
             mkLoop (self st)
                    (messages st ++ [mkMessage "assistant" content;
                                     mkMessage "user" invalid_json_nudge])%list
                    (total_commands st) (failed_commands st))
        | JsonOther type_name =>
            system_error
              (AttributeError ("'" ++ type_name
                               ++ "' object has no attribute 'get'")) st
        | JsonDict status reasoning commands =>
            let status := default "continue" status in
            let reasoning := default "No reasoning provided" reasoning in
            let commands := default [] commands in
            if String.eqb status "complete" then
              (Break,
               mkLoop (set_metadata (set_status "complete" (metadata (self st)))
                                    (self st))
                      (messages st) (total_commands st) (failed_commands st))
            else if String.eqb status "blocked" then
              (Break,
               mkLoop (set_metadata
                         (set_block_reason reasoning
                            (set_status "blocked" (metadata (self st))))
                         (self st))
                      (messages st) (total_commands st) (failed_commands st))
            else
              let '(st, results) := run_commands w commands st [] in
              let o := emit (IterationLogged i reasoning commands results)
                            (self st) in
              (Continue,
               mkLoop o
                      (messages st ++
                         [mkMessage "assistant" content;
                          mkMessage "user"
                            ("Command results:" ++ LF
                             ++ json_dumps_feedback w i results)])%list
                      (total_commands st) (failed_commands st))
        end
    end.

(** The [for] loop from iteration [i] on, [remaining] iterations being
    left in the range. *)
Fixpoint iterate (w : Engine) (remaining : nat) (i : nat) (st : Loop)
  : Loop :=
  match remaining with
  | O => st
  | S remaining' =>
      match iteration_body w i st with
      | (Break, st') => st'
      | (Continue, st') => iterate w remaining' (S i) st'
      end
  end.

(** What [run_task] hands back: the summary, of which the fields it is
    formatted from are kept, an exception, or the exit of the process. *)
Record Summary : Type := mkSummary {
  sum_status : string;
  sum_duration : Z;
  sum_iterations : nat;
  sum_deliverables : list string
}.

Inductive TaskOutcome : Type :=
| Returned (summary : Summary)
| Raised (e : exn)
| SystemExit (code : Z).

Record Session : Type := mkSession {
  outcome : TaskOutcome;
  final : Orch;
  conversation : list message
}.

(** The statements of [run_task] after the loop. *)
Definition finalize (w : Engine) (st : Loop) : Session :=
  let o := self st in
  let o :=
    if Nat.leb MAX_ITERATIONS (iteration o)
       && negb (bool_decide (md_status (metadata o) = Some "complete"))
    then set_metadata (set_status "max_iterations" (metadata o)) o
    else o in
  let duration := end_time w - start_time w in
  let deliverables := workspace_files w in
  let o := emit (DeliverablesCopied deliverables) o in
  let m := mkMetadata (md_task (metadata o)) (md_status (metadata o))
             (md_block_reason (metadata o)) (Some duration)
             (Some (total_commands st)) (Some (failed_commands st))
             (Some deliverables) in
  let o := set_metadata m o in
  let o := emit (SessionWritten m) o in
  let o := emit ReportWritten o in
  mkSession
    (match md_status m with
     | None => Raised (KeyError "status")
     | Some status =>
         Returned (mkSummary status duration (iteration o) deliverables)
     end)
    o (messages st).

(** A fresh [Orchestrator] object, as [__init__] leaves it. *)
Definition init : Orch :=
  mkOrch 0 0 0 0 0 (mkMetadata None None None None None None None) [].

Definition set_task (task : string) (o : Orch) : Orch :=
  set_metadata (mkMetadata (Some task) None None None None None None) o.

Definition run_task (w : Engine) (task : string) : Session :=
  match system_prompt w with
  | None => mkSession (SystemExit 1) (set_task task init) []
  | Some prompt =>
      let messages := [mkMessage "system" prompt;
                       mkMessage "user" ("Task: " ++ task)] in
      finalize w (iterate w MAX_ITERATIONS 1
                    (mkLoop (set_task task init) messages 0 0))
  end.

End Orchestrator.

(** ** Sample worlds

    Concrete operating systems and file systems on which the properties
    are exercised. *)

(** Every process ends at once, with exit status 0 and no output. *)
Definition quiet_os : OS := mkOS (fun _ fs => (Completed 0 "" "", fs)).

(** No process ends before its time limit. *)
Definition stalling_os : OS := mkOS (fun _ fs => (TimeoutExpired, fs)).

(** The directories down to the workspace and nothing else. *)
Definition bare_workspace : Fs.filesystem :=
  list_to_map [ ([], Fs.Dir); (["opt"], Fs.Dir);
                (["opt"; "coding-agent"], Fs.Dir); (Fs.WORKSPACE, Fs.Dir) ].

(** The code points of a string. *)
Definition text_of (s : string) : Utf8.text :=
  List.map code (list_ascii_of_string s).

(** ** The claims' own notions, next to the code's *)

(** The command once [_extract_binary] has removed the white space around
    it and its leading [KEY=value] assignments. *)
Definition bare_command (cmd : string) : string :=
  Re.sub_empty Patterns.env_assignments (strip cmd).

(** The base name of the first white-space token of the bare command. *)
Definition first_token_basename (cmd : string) : string :=
  match split_ws (bare_command cmd) with
  | [] => ""
  | token :: _ => PurePath.name token
  end.

(** A result of [run_shell] that reports the command blocked before
    execution. *)
Definition is_blocked (cmd : string) (r : ShellResult) : Prop :=
  returncode r = 126 /\ stdout r = "" /\ command r = cmd
  /\ startswith (stderr r) "BLOCKED:" = true.

(** The process always outlives its time limit. *)
Definition expires (os : OS) (req : SpawnRequest) : Prop :=
  forall fs, (subprocess_run os req fs).1 = TimeoutExpired.

(** A run that started no process. *)
Definition no_spawn {A : Type} (r : Run A) : Prop :=
  List.filter is_spawn (trace r) = [].

(** The workspace root or a descendant of it. *)
Definition confined (p : Fs.path) : Prop :=
  exists rel : list string, p = (Fs.WORKSPACE ++ rel)%list.

(** The message of the path check of [read_file] and [write_file]. *)
Definition path_escape : string := "path must be inside workspace".

(** ** The engine's side of the claims *)

Module Scenario.
Import Orchestrator.

(** The conversation entries that ask the engine to go on after the
    fragments [frags]. *)
Definition continuation_prompts (frags : list string) : list message :=
  List.flat_map (fun frag => [mkMessage "assistant" frag;
                              mkMessage "user" "Continue."]) frags.



(** An engine that serves the fragments of a list, from its first call. *)
Definition fragment_engine (frags : list string) : Engine :=
  mkEngine
    (fun k _ =>
       match frags !! (k - 1)%nat with
       | Some frag =>
           ApiReturned
             (mkCompletion (Some frag)
                (if Nat.eqb k (List.length frags) then "stop" else "length")
                0 0 0)
       | None => ApiRaised (APIError "no more fragments")
       end)
    (fun _ => JSONDecodeError)
    (fun _ _ => "")
    (fun _ _ => Completed 0 "" "")
    (Some "You are an orchestrator.")
    []
    0 0.

(** What the loop makes of one engine turn: the line it takes. *)
Inductive turn : Type :=
| TurnFailed
| TurnUnparsed (content : string)
| TurnAction (content status reasoning : string) (commands : list string)
| TurnOther.

Definition classify_turn (w : Engine) (r : Response) : turn :=
  if String.eqb (completion_status r) "error" then TurnFailed
  else match text r with
       | None => TurnOther
       | Some content =>
           match json_loads w (clean_response content) with
           | JSONDecodeError => TurnUnparsed content
           | JsonOther _ => TurnOther
           | JsonDict status reasoning commands =>
               TurnAction content (default "continue" status)
                          (default "No reasoning provided" reasoning)
                          (default [] commands)
           end
       end.

(** Every engine turn parses as status [continue] with no command. *)
Definition idle_turns (w : Engine) : Prop :=
  forall (msgs : list message) (o : Orch),
    exists content reasoning,
      classify_turn w (get_complete_response w msgs 5 o)
      = TurnAction content "continue" reasoning [].

(** No engine turn parses as JSON. *)
Definition unparsed_turns (w : Engine) : Prop :=
  forall (msgs : list message) (o : Orch),
    exists content,
      classify_turn w (get_complete_response w msgs 5 o) = TurnUnparsed content.

Definition is_finalization (e : effect) : bool :=
  match e with
  | DeliverablesCopied _ | SessionWritten _ | ReportWritten => true
  | _ => false
  end.

Definition is_command_run (e : effect) : bool :=
  match e with CommandRun _ _ _ => true | _ => false end.

Definition is_failed_run (e : effect) : bool :=
  match e with CommandRun _ _ false => true | _ => false end.

(** The numbers of the iterations that ran to their end. *)
Fixpoint logged_iterations (effects : list effect) : list nat :=
  match effects with
  | [] => []
  | IterationLogged n _ _ _ :: rest => n :: logged_iterations rest
  | _ :: rest => logged_iterations rest
  end.

(** The finalization ran once, as the last thing the session did: the
    deliverables were scanned and the session record was written with the
    duration, the command counts and the deliverables, after effects of
    the loop only. *)
Definition finalized_once (w : Engine) (s : Session) : Prop :=
  exists (before : list effect) (m : Metadata),
    effects (final s)
    = (before ++ [DeliverablesCopied (workspace_files w);
                  SessionWritten m; ReportWritten])%list
    /\ List.forallb (fun e => negb (is_finalization e)) before = true
    /\ m = metadata (final s)
    /\ md_duration m = Some (end_time w - start_time w)
    /\ md_total_commands m
       = Some (List.length (List.filter is_command_run before))
    /\ md_failed_commands m
       = Some (List.length (List.filter is_failed_run before))
    /\ md_deliverables m = Some (workspace_files w).

Definition is_api_call (e : effect) : bool :=
  match e with ApiCall _ _ => true | _ => false end.

Definition loop_effect (e : effect) : bool := negb (is_finalization e).

(** What a step of the session may do to the object: add effects of one
    kind, and keep the iteration number and the metadata. *)
Record grows (kind : effect -> bool) (o o' : Orch) : Prop := mkGrows {
  grows_iteration : iteration o' = iteration o;
  grows_metadata : metadata o' = metadata o;
  grows_effects : exists added, effects o' = (effects o ++ added)%list
                                /\ List.forallb kind added = true
}.

(** The invariant of the loop: nothing of the finalization has happened,
    [total_commands] counts the commands run and [failed_commands] those
    of them that failed. *)
Definition loop_invariant (st : Loop) : Prop :=
  List.forallb loop_effect (effects (self st)) = true
  /\ total_commands st
     = List.length (List.filter is_command_run (effects (self st)))
  /\ failed_commands st
     = List.length (List.filter is_failed_run (effects (self st))).

(** The response of one turn, as the loop body asks for it. *)
Definition turn_response (w : Engine) (i : nat) (st : Loop) : Response :=
  get_complete_response w (messages st) 5 (set_iteration i (self st)).

Definition is_nudge (m : message) : bool :=
  String.eqb (role m) "user" && String.eqb (content m) invalid_json_nudge.

(** How many times the conversation tells the engine that its output was
    not valid JSON. *)
Definition nudges (msgs : list message) : nat :=
  List.length (List.filter is_nudge msgs).

Definition quoted (s : string) : string :=
  String Shlex.dquote (s ++ String Shlex.dquote EmptyString).

(** [{"status": "continue", "reasoning": "thinking", "commands": []}] *)
Definition idle_action : string :=
  "{" ++ quoted "status" ++ ": " ++ quoted "continue" ++ ", "
  ++ quoted "reasoning" ++ ": " ++ quoted "thinking" ++ ", "
  ++ quoted "commands" ++ ": []}".

(** An engine that answers every call with [idle_action]; its parser
    knows that one text. *)
Definition idle_engine : Engine :=
  mkEngine
    (fun _ _ => ApiReturned (mkCompletion (Some idle_action) "stop" 100 20 120))
    (fun s => if String.eqb s idle_action
              then JsonDict (Some "continue") (Some "thinking") (Some [])
              else JSONDecodeError)
    (fun _ _ => "{}")
    (fun _ _ => Completed 0 "" "")
    (Some "You are an orchestrator.")
    ["report.txt"]
    0 42000000.

(** An engine that never answers with JSON. *)
Definition prose_engine : Engine :=
  mkEngine
    (fun _ _ => ApiReturned
                  (mkCompletion (Some "Sure, I will look into it.") "stop"
                                100 20 120))
    (fun _ => JSONDecodeError)
    (fun _ _ => "{}")
    (fun _ _ => Completed 0 "" "")
    (Some "You are an orchestrator.")
    []
    0 42000000.

(** [{"status": ..., "reasoning": "step", "commands": ...}] *)
Definition action_text (status commands : string) : string :=
  "{" ++ quoted "status" ++ ": " ++ quoted status ++ ", "
  ++ quoted "reasoning" ++ ": " ++ quoted "step" ++ ", "
  ++ quoted "commands" ++ ": " ++ commands ++ "}".

Definition two_commands : string :=
  "[" ++ quoted "ls" ++ ", " ++ quoted "false" ++ "]".

(** An engine that asks for two commands in its first turn and says that
    it is done in its second; the command [false] fails. *)
Definition working_engine : Engine :=
  mkEngine
    (fun k _ =>
       ApiReturned
         (mkCompletion
            (Some (if Nat.eqb k 1 then action_text "continue" two_commands
                   else action_text "complete" "[]"))
            "stop" 100 20 120))
    (fun s =>
       if String.eqb s (action_text "continue" two_commands)
       then JsonDict (Some "continue") (Some "step") (Some ["ls"; "false"])
       else if String.eqb s (action_text "complete" "[]")
       then JsonDict (Some "complete") (Some "step") (Some [])
       else JSONDecodeError)
    (fun _ _ => "{}")
    (fun _ cmd => if String.eqb cmd "false" then Completed 1 "" ""
                  else Completed 0 "notes.txt" "")
    (Some "You are an orchestrator.")
    ["notes.txt"]
    0 3000000.

End Scenario.

(** ** Notions of the further properties *)

(** The paths that the loop over the matches refuses. *)
Definition refused (m : string) : Prop :=
  startswith m WORKSPACE_str = false
  /\ existsb (fun p => startswith m p) ["/usr/"; "/bin/"; "/lib/"] = false.

(** A file name as the operating system has them: not empty, neither [.]
    nor [..], without a slash and without a NUL. *)
Definition valid_name (c : string) : Prop :=
  c <> "" /\ c <> "." /\ c <> ".." /\ contains c "/" = false
  /\ contains c Fs.NUL = false.

(** What [list_deliverables] keeps of the items it is given. *)
Definition is_deliverable (fs : Fs.filesystem) (item : Fs.path) : bool :=
  Fs.is_file fs item
  && negb (bool_decide (Glob.name item ∈ exclude_names))
  && bool_decide (Glob.suffix item ∈ extensions).

(** The counter of the object counts the calls among the effects. *)
Definition counted (o : Orchestrator.Orch) : Prop :=
  Orchestrator.api_call_count o
  = List.length (List.filter Scenario.is_api_call (Orchestrator.effects o)).

(** The conversation a session starts from. *)
Definition opening (prompt task : string) : list Orchestrator.message :=
  [Orchestrator.mkMessage "system" prompt;
   Orchestrator.mkMessage "user" ("Task: " ++ task)].

(** Every request made so far starts with [base] and is a prefix of the
    conversation as it stands. *)
Definition history_kept (base : list Orchestrator.message)
    (st : Orchestrator.Loop) : Prop :=
  base `prefix_of` Orchestrator.messages st
  /\ forall k msgs,
       In (Orchestrator.ApiCall k msgs)
          (Orchestrator.effects (Orchestrator.self st)) ->
       base `prefix_of` msgs /\ msgs `prefix_of` Orchestrator.messages st.

(** The statuses the loop itself sets, or none yet. *)
Definition loop_status (m : Orchestrator.Metadata) : Prop :=
  Orchestrator.md_status m = None
  \/ Orchestrator.md_status m = Some "complete"
  \/ Orchestrator.md_status m = Some "blocked".

(** A workspace with two files, a directory and the snippet of
    [run_python]. *)
Definition sample_workspace : Fs.filesystem :=
  list_to_map
    [ ([], Fs.Dir); (["opt"], Fs.Dir); (["opt"; "coding-agent"], Fs.Dir);
      (Fs.WORKSPACE, Fs.Dir);
      ((Fs.WORKSPACE ++ ["notes.txt"])%list, Fs.File [104; 105]);
      ((Fs.WORKSPACE ++ ["out"])%list, Fs.Dir);
      ((Fs.WORKSPACE ++ ["out"; "data.csv"])%list, Fs.File [49; 44; 50]);
      ((Fs.WORKSPACE ++ ["snippet.py"])%list, Fs.File []) ].

(** The iterations logged so far are in increasing order and none is
    later than the current one. *)
Definition logged_in_order (o : Orchestrator.Orch) : Prop :=
  StronglySorted lt (Scenario.logged_iterations (Orchestrator.effects o))
  /\ Forall (fun n => (1 <= n <= Orchestrator.iteration o)%nat)
            (Scenario.logged_iterations (Orchestrator.effects o)).

(** The limits of Linux on file names, in bytes of the encoded name:
    [NAME_MAX] for one component and [PATH_MAX], which counts the final
    NUL, for a path. *)
Definition NAME_MAX : Z := 255.
Definition PATH_MAX : Z := 4096.

(** [len(os.fsencode(s))] for a string of code points below U+0100. *)
Fixpoint fsencode_length (s : string) : Z :=
  match s with
  | EmptyString => 0
  | String c s' => (if code c <? 128 then 1 else 2) + fsencode_length s'
  end.

Definition within_limits (p : Fs.path) : Prop :=
  Forall (fun c => fsencode_length c <= NAME_MAX) p
  /\ fsencode_length (Fs.path_str p) < PATH_MAX.

(** ** The primary binary, read off the text of a command *)

(** An assignment [KEY=value] in front of a command, with the white space
    behind it: a key of word characters, a value without white space. *)
Record Assignment : Type := mkAssignment {
  a_key : string;
  a_value : string;
  a_space : string
}.

Definition assignment_text (a : Assignment) : string :=
  a_key a ++ "=" ++ a_value a ++ a_space a.

Definition well_formed (a : Assignment) : Prop :=
  a_key a <> "" /\ all_chars isword (a_key a) = true
  /\ a_value a <> ""
  /\ all_chars (fun c => negb (isspace c)) (a_value a) = true
  /\ a_space a <> "" /\ all_chars isspace (a_space a) = true.

Fixpoint assignments_text (l : list Assignment) : string :=
  match l with
  | [] => ""
  | a :: l' => assignment_text a ++ assignments_text l'
  end.

(** The characters of a token that needs no quoting and is no assignment:
    no white space, quote, backslash or equals sign. *)
Definition plain_char (c : ascii) : bool :=
  negb (isspace c) && negb (Shlex.is_quote c)
  && negb (Ascii.eqb c Shlex.backslash) && negb (Ascii.eqb c "=").

Definition plain_token (t : string) : Prop :=
  t <> "" /\ all_chars plain_char t = true.

(** What follows the token: nothing, or a blank, a tab, a carriage return
    or a line feed, and then anything. *)
Definition token_end (tail : string) : Prop :=
  tail = ""
  \/ exists c tail', tail = String c tail' /\ Shlex.is_whitespace c = true.

(** The command, without the white space around it, is made of
    assignments, the token [t] and what follows it: [t] names the program
    that the command runs. *)
Definition names_binary (cmd t : string) : Prop :=
  exists (assignments : list Assignment) (tail : string),
    strip cmd = assignments_text assignments ++ t ++ tail
    /\ Forall well_formed assignments
    /\ plain_token t /\ token_end tail.

(** The loop of [Star] in [Re.rmatch], by itself. *)
Definition star_loop (step : Re.pos -> (Re.pos -> option Re.pos) -> option Re.pos)
    (k : Re.pos -> option Re.pos) : nat -> Re.pos -> option Re.pos :=
  fix loop (n : nat) (p : Re.pos) {struct n} : option Re.pos :=
    match n with
    | O => k p
    | S n' =>
        match step p (fun p' => if Nat.ltb 0 (Re.consumed p p')
                                then loop n' p' else None) with
        | Some q => Some q
        | None => k p
        end
    end.

(** The head of [r] is not in the class [f]. *)
Definition stops (f : ascii -> bool) (r : string) : Prop :=
  match r with
  | String x _ => f x = false
  | EmptyString => True
  end.

(** One assignment of the pattern of [_extract_binary]: [\w+=\S+\s+]. *)
Definition one_assignment : Re.regex :=
  Re.Seq (Re.Plus Re.word)
         (Re.Seq (Re.Lit "=") (Re.Seq (Re.Plus Re.nonspace) (Re.Plus Re.space))).

(** * Properties *)

(** ** Results *)

Lemma bind_ok {A B : Type} (a : A) (k : A -> result B) :
  (x ← Ok a; k x) = k a.
Proof. reflexivity. Qed.

Lemma bind_raise {A B : Type} (e : exn) (k : A -> result B) :
  (x ← Raise e; k x) = Raise e.
Proof. reflexivity. Qed.

(** ** White space and the empty command *)

Lemma lstrip_blank (s : string) :
  all_chars isspace s = true -> lstrip s = "".
Proof.
  induction s as [|c s IH]; simpl; [reflexivity|].
  intros H. apply andb_true_iff in H as [Hc Hs].
  rewrite Hc. exact (IH Hs).
Qed.

Lemma strip_blank (s : string) :
  all_chars isspace s = true -> strip s = "".
Proof.
  intros H. unfold strip. rewrite (lstrip_blank s H). reflexivity.
Qed.

Lemma rstrip_empty_blank (s : string) :
  rstrip s = "" -> all_chars isspace s = true.
Proof.
  induction s as [|c s IH]; simpl; [reflexivity|].
  destruct (rstrip s) eqn:E; [|discriminate].
  destruct (isspace c); [|discriminate].
  intros _. simpl. apply IH. reflexivity.
Qed.

Lemma lstrip_suffix_blank (s : string) :
  all_chars isspace (lstrip s) = true -> all_chars isspace s = true.
Proof.
  induction s as [|c s IH]; simpl; [reflexivity|].
  destruct (isspace c) eqn:E.
  - intros H. simpl. exact (IH H).
  - simpl. rewrite E. discriminate.
Qed.

(** [strip] returns the empty string exactly on the strings made of white
    space only. *)
Lemma strip_empty_iff (s : string) :
  strip s = "" <-> all_chars isspace s = true.
Proof.
  split; [|apply strip_blank].
  unfold strip. intros H.
  apply lstrip_suffix_blank, rstrip_empty_blank, H.
Qed.

Section RunShell.

Variable os : OS.
Variable fs : Fs.filesystem.

(** C10.  A command that is empty or made of white space only: [run_shell]
    returns the result with return code 1 and the message [Empty command],
    the file system is untouched and the run has made no call at all,
    neither to the validator nor to [subprocess.run]. *)
Theorem run_shell_empty_command (command : string) (cwd : option string)
    (timeout : Z) :
  all_chars isspace command = true ->
  run_shell os command cwd timeout fs
  = mkRun (Ok (mkShellResult 1 "" "Empty command" command None None)) fs [].
Proof.
  intros H. unfold run_shell.
  rewrite (strip_blank command H).
  rewrite orb_true_r. reflexivity.
Qed.

End RunShell.

Lemma run_shell_empty_command_witness :
  all_chars isspace "   " = true /\
  run_shell quiet_os "   " None 60 ∅
  = mkRun (Ok (mkShellResult 1 "" "Empty command" "   " None None)) ∅ [].
Proof.
  split; [reflexivity|].
  apply (run_shell_empty_command quiet_os ∅ "   " None 60). reflexivity.
Defined.

(** ** The blocklist *)

Lemma extract_binary_blank (cmd : string) :
  strip cmd = "" -> _extract_binary cmd = Ok "".
Proof.
  intros H. unfold _extract_binary. rewrite H. reflexivity.
Qed.

Lemma empty_name_not_blocked : "" ∉ BLOCKED_BINARIES.
Proof.
  apply (bool_decide_eq_false_1 ("" ∈ BLOCKED_BINARIES)).
  vm_compute. reflexivity.
Qed.

(** A command with a blocklisted binary is not blank. *)
Lemma blocked_binary_not_blank (cmd binary : string) :
  _extract_binary cmd = Ok binary -> binary ∈ BLOCKED_BINARIES ->
  (String.eqb cmd "" || String.eqb (strip cmd) "") = false.
Proof.
  intros Hb Hin.
  destruct (String.eqb (strip cmd) "") eqn:E.
  - apply String.eqb_eq in E.
    rewrite (extract_binary_blank cmd E) in Hb. injection Hb as <-.
    destruct (empty_name_not_blocked Hin).
  - rewrite orb_false_r. destruct (String.eqb cmd "") eqn:E'; [|reflexivity].
    apply String.eqb_eq in E'. subst cmd. discriminate E.
Qed.

(** The validator refuses such a command, whichever of its rules fires
    first. *)
Lemma validate_blocked_binary (cmd binary : string) :
  _extract_binary cmd = Ok binary -> binary ∈ BLOCKED_BINARIES ->
  exists msg, _validate_command_safety cmd = Raise (ValueError msg).
Proof.
  intros Hb Hin. unfold _validate_command_safety.
  destruct (first_dangerous (lower cmd)) as [reason|].
  - eexists. reflexivity.
  - rewrite Hb, bind_ok, (bool_decide_eq_true_2 _ Hin).
    eexists. reflexivity.
Qed.

Lemma startswith_app (p s : string) : startswith (p ++ s) p = true.
Proof.
  induction p as [|c p IH]; simpl; [reflexivity|].
  rewrite Ascii.eqb_refl. exact IH.
Qed.

Section Blocklist.

Variable os : OS.
Variable fs : Fs.filesystem.

(** When the name that [_extract_binary] computes is in the blocklist,
    [run_shell] returns a result with return code 126 whose [stderr]
    starts with [BLOCKED:]; it has started no process and has left the
    file system alone. *)
Lemma extracted_binary_never_runs (cmd : string) (cwd : option string)
    (timeout : Z) (binary : string) :
  _extract_binary cmd = Ok binary ->
  binary ∈ BLOCKED_BINARIES ->
  let run := run_shell os cmd cwd timeout fs in
  (exists r, value run = Ok r /\ is_blocked cmd r)
  /\ no_spawn run
  /\ fs_after run = fs.
Proof.
  intros Hb Hin. cbv zeta. unfold run_shell.
  rewrite (blocked_binary_not_blank cmd binary Hb Hin).
  destruct (validate_blocked_binary cmd binary Hb Hin) as [msg ->].
  cbn [value trace fs_after].
  split; [|split; reflexivity].
  eexists. split; [reflexivity|].
  unfold is_blocked. cbn [returncode stdout command stderr].
  split; [reflexivity|]. split; [reflexivity|]. split; [reflexivity|].
  apply (startswith_app "BLOCKED:" (" " ++ msg)).
Qed.

End Blocklist.

(** The commands of the repository's safety test are all refused. *)
Example test_shell_safety :
  List.map (fun c => match value (run_shell quiet_os c None 60 bare_workspace) with
                     | Ok r => (returncode r, stderr r)
                     | Raise _ => (0, "")
                     end)
    [ "rm -rf /"; "dd if=/dev/zero of=/dev/sda"; "mkfs.ext4 /dev/sda1";
      ":(){:|:&};:"; "chmod 777 /etc/passwd" ]
  = [ (126, "BLOCKED: Blocked: Recursive delete from root");
      (126, "BLOCKED: Blocked: Direct disk device access");
      (126, "BLOCKED: Blocked: Direct disk device access");
      (126, "BLOCKED: Blocked: Fork bomb");
      (126, "BLOCKED: Blocked: Modifying critical system files") ].
Proof. vm_compute. reflexivity. Qed.

(** ** The blocklist looks at the first token only *)

Lemma extract_binary_shell_syntax (cmd : string) :
  _has_shell_syntax (bare_command cmd) = true ->
  _extract_binary cmd = Ok (first_token_basename cmd).
Proof.
  intros H. unfold _extract_binary, first_token_basename.
  fold (bare_command cmd). rewrite H. simpl negb. cbv iota.
  rewrite bind_ok.
  destruct (split_ws (bare_command cmd)); reflexivity.
Qed.

(** C9, as the code has it.  Take a command whose text, once the white
    space around it and the leading [KEY=value] assignments are removed,
    still holds a shell metacharacter.  If the base name of its first
    white-space token is not blocklisted, no dangerous pattern matches the
    lowered command and the command names no absolute path outside the
    allowed prefixes, then the validator accepts it, whatever binaries the
    command names after the first token. *)
Theorem first_token_rule (cmd : string) :
  _has_shell_syntax (bare_command cmd) = true ->
  first_token_basename cmd ∉ BLOCKED_BINARIES ->
  first_dangerous (lower cmd) = None ->
  Re.findall Patterns.outside_path cmd = [] ->
  _validate_command_safety cmd = Ok tt.
Proof.
  intros Hsh Hnot Hdanger Hpaths. unfold _validate_command_safety.
  rewrite Hdanger, (extract_binary_shell_syntax cmd Hsh), bind_ok.
  rewrite (bool_decide_eq_false_2 _ Hnot).
  unfold file_patterns, check_file_patterns. rewrite Hpaths. reflexivity.
Qed.

Lemma first_token_rule_witness :
  contains "echo hi; sudo reboot" "; sudo" = true
  /\ _validate_command_safety "echo hi; sudo reboot" = Ok tt.
Proof.
  split; [reflexivity|].
  apply (first_token_rule "echo hi; sudo reboot").
  - vm_compute. reflexivity.
  - apply (bool_decide_eq_false_1
             (first_token_basename "echo hi; sudo reboot" ∈ BLOCKED_BINARIES)).
    vm_compute. reflexivity.
  - vm_compute. reflexivity.
  - vm_compute. reflexivity.
Defined.

(** C9 as stated fails: this command holds a metacharacter, its first
    token is not blocklisted and no dangerous pattern matches it, yet the
    validator refuses it, by its rule on absolute paths. *)
Lemma first_token_rule_counterexample :
  let cmd := "echo hi | tee /tmp/x" in
  _has_shell_syntax cmd = true
  /\ (first_token_basename cmd ∉ BLOCKED_BINARIES)
  /\ first_dangerous (lower cmd) = None
  /\ _validate_command_safety cmd
     = Raise (ValueError "Absolute path outside workspace: /tmp/x").
Proof.
  cbv zeta. split; [vm_compute; reflexivity|]. split.
  - apply (bool_decide_eq_false_1
             (first_token_basename "echo hi | tee /tmp/x" ∈ BLOCKED_BINARIES)).
    vm_compute. reflexivity.
  - split; vm_compute; reflexivity.
Qed.

(** When the only metacharacter sits in a leading assignment, the rest is
    split by [shlex], which removes the quotes the white-space token
    keeps. *)
Example metacharacter_in_assignment :
  let cmd := "A=| 'rm' x" in
  _has_shell_syntax cmd = true
  /\ first_token_basename cmd = "'rm'"
  /\ _extract_binary cmd = Ok "rm"
  /\ _validate_command_safety cmd = Raise (ValueError "Blocked binary: rm").
Proof. vm_compute. repeat split. Qed.

(** ** The working directory *)

Section WorkingDirectory.

Variable os : OS.
Variable fs : Fs.filesystem.

(** A working directory outside the workspace: no process is started, and
    the exception of [_safe_cwd] leaves [run_shell]. *)
Lemma run_shell_cwd_escape (cmd c : string) (timeout : Z) (e : exn) :
  (String.eqb cmd "" || String.eqb (strip cmd) "") = false ->
  _validate_command_safety cmd = Ok tt ->
  _safe_cwd (Some c) = Raise e ->
  run_shell os cmd (Some c) timeout fs = mkRun (Raise e) fs [ValidateCall cmd].
Proof.
  intros Hne Hv Hc. unfold run_shell. rewrite Hne, Hv, Hc. reflexivity.
Qed.

(** Whatever the command, a working directory that is refused means that
    no process is started and the file system is left alone. *)
Lemma run_shell_cwd_escape_no_spawn (cmd c : string) (timeout : Z) (e : exn) :
  _safe_cwd (Some c) = Raise e ->
  no_spawn (run_shell os cmd (Some c) timeout fs)
  /\ fs_after (run_shell os cmd (Some c) timeout fs) = fs.
Proof.
  intros Hc. unfold run_shell, no_spawn.
  destruct (String.eqb cmd "" || String.eqb (strip cmd) "");
    [split; reflexivity|].
  destruct (_validate_command_safety cmd) as [[]|[]];
    try (split; reflexivity).
  rewrite Hc. split; reflexivity.
Qed.

(** C3, at the failing input.  [run_shell("ls", cwd="..")] starts no
    process, but it does not return: the [ValueError] of [_safe_cwd] is
    raised to the caller. *)
Theorem run_shell_cwd_escape_raises (timeout : Z) :
  run_shell os "ls" (Some "..") timeout fs
  = mkRun (Raise (ValueError "cwd must be inside workspace")) fs
          [ValidateCall "ls"].
Proof.
  apply run_shell_cwd_escape; vm_compute; reflexivity.
Qed.

End WorkingDirectory.

(** ** Time limits *)

Lemma clamp_timeout_range (timeout : Z) : 1 <= clamp_timeout timeout <= 600.
Proof.
  unfold clamp_timeout.
  destruct (1 <=? timeout) eqn:E1; destruct (timeout <=? 600) eqn:E2; cbn; lia.
Qed.

Section Timeouts.

Variable os : OS.

Lemma execute_checked_timeout (cmd : string) (p : Fs.path) (t : Z)
    (fs : Fs.filesystem) (req : SpawnRequest) :
  In (SpawnCall req) (execute_checked os cmd p t fs).2 ->
  sp_timeout req = t
  /\ (expires os req ->
      returncode (execute_checked os cmd p t fs).1.1 = 124
      /\ stderr (execute_checked os cmd p t fs).1.1
         = "Command timed out after " ++ str_of_Z t ++ "s").
Proof.
  unfold execute_checked.
  destruct (_has_shell_syntax cmd).
  - cbn. destruct (subprocess_run os _ fs) as [outcome fs'] eqn:E.
    cbn. intros [[= <-]|[]]. split; [reflexivity|].
    intros Hex. specialize (Hex fs). rewrite E in Hex. cbn in Hex.
    subst outcome. split; reflexivity.
  - destruct (Shlex.split cmd) as [args|e]; cbn; [|intros []].
    destruct (subprocess_run os _ fs) as [outcome fs'] eqn:E.
    cbn. intros [[= <-]|[]]. split; [reflexivity|].
    intros Hex. specialize (Hex fs). rewrite E in Hex. cbn in Hex.
    subst outcome. split; reflexivity.
Qed.

Lemma run_shell_timeout (cmd : string) (cwd : option string) (timeout : Z)
    (fs : Fs.filesystem) (req : SpawnRequest) :
  In (SpawnCall req) (trace (run_shell os cmd cwd timeout fs)) ->
  sp_timeout req = clamp_timeout timeout
  /\ (expires os req ->
      exists r, value (run_shell os cmd cwd timeout fs) = Ok r
                /\ returncode r = 124
                /\ stderr r = "Command timed out after "
                              ++ str_of_Z (clamp_timeout timeout) ++ "s").
Proof.
  unfold run_shell.
  destruct (String.eqb cmd "" || String.eqb (strip cmd) ""); [intros []|].
  destruct (_validate_command_safety cmd) as [[]|[]];
    try (cbn; intros [[=]|[]]).
  destruct (_safe_cwd cwd) as [p|e]; [|cbn; intros [[=]|[]]].
  pose proof (execute_checked_timeout cmd p (clamp_timeout timeout) fs req) as H.
  destruct (execute_checked os cmd p (clamp_timeout timeout) fs)
    as [[r fs'] calls].
  cbn in *. intros [[=]|Hin]. destruct (H Hin) as [Ht Hr].
  split; [exact Ht|]. intros Hex. exists r. split; [reflexivity|].
  exact (Hr Hex).
Qed.

Lemma run_python_timeout (code : Utf8.text) (filename : string) (timeout : Z)
    (fs : Fs.filesystem) (req : SpawnRequest) :
  In (SpawnCall req) (trace (run_python os code filename timeout fs)) ->
  sp_timeout req = clamp_timeout timeout
  /\ (expires os req ->
      exists r, value (run_python os code filename timeout fs) = Ok r
                /\ py_returncode r = 124
                /\ py_stderr r = "Python execution timed out after "
                                 ++ str_of_Z (clamp_timeout timeout) ++ "s").
Proof.
  unfold run_python.
  destruct (Fs.resolve_in_workspace filename) as [p|e]; [|intros []].
  destruct (negb (Fs.workspace_in_parents p)); [intros []|].
  destruct (Fs.write_text fs p code) as [[[]|e] fs1]; [|intros []].
  destruct (subprocess_run os _ fs1) as [outcome fs2] eqn:E.
  assert (Hout : forall r : SpawnRequest,
             r = mkSpawn ["python3"; Fs.path_str p] false WORKSPACE_str
                         (clamp_timeout timeout) None None ->
             expires os r -> outcome = TimeoutExpired).
  { intros r -> Hex. specialize (Hex fs1). rewrite E in Hex. exact Hex. }
  destruct outcome; cbn; intros [[= <-]|[]]; (split; [reflexivity|]);
    intros Hex; specialize (Hout _ eq_refl Hex); try discriminate Hout.
  eexists. split; [reflexivity|]. split; reflexivity.
Qed.

Lemma clamp_timeout_cases (timeout : Z) :
  (1 <= timeout <= 600 -> clamp_timeout timeout = timeout)
  /\ (timeout < 1 -> clamp_timeout timeout = 1)
  /\ (600 < timeout -> clamp_timeout timeout = 600).
Proof.
  unfold clamp_timeout.
  destruct (Z.leb_spec 1 timeout), (Z.leb_spec timeout 600); cbn [andb negb];
    repeat split; intros; lia.
Qed.

Lemma nonblank_guard (cmd : string) :
  all_chars isspace cmd = false ->
  (String.eqb cmd "" || String.eqb (strip cmd) "") = false.
Proof.
  intros Hb. destruct (String.eqb_spec (strip cmd) "") as [Hs|_].
  - apply strip_empty_iff in Hs. congruence.
  - rewrite orb_false_r. destruct (String.eqb_spec cmd ""); [|reflexivity].
    subst cmd. discriminate Hb.
Qed.

(** A command that is not blank, passes the validator, has an accepted
    working directory and can be handed to [subprocess.run] starts one
    process, with the clamped time limit; when that process outlives the
    limit, the result is the one of the [TimeoutExpired] handler. *)
Lemma run_shell_starts (cmd : string) (cwd : option string) (timeout : Z)
    (fs : Fs.filesystem) (p : Fs.path) :
  all_chars isspace cmd = false ->
  _validate_command_safety cmd = Ok tt ->
  _safe_cwd cwd = Ok p ->
  (_has_shell_syntax cmd = true \/ exists args, Shlex.split cmd = Ok args) ->
  exists req,
    trace (run_shell os cmd cwd timeout fs) = [ValidateCall cmd; SpawnCall req]
    /\ sp_timeout req = clamp_timeout timeout
    /\ ((subprocess_run os req fs).1 = TimeoutExpired ->
        value (run_shell os cmd cwd timeout fs)
        = Ok (mkShellResult 124 ""
                ("Command timed out after "
                 ++ str_of_Z (clamp_timeout timeout) ++ "s")
                cmd (Some (Fs.path_str p)) None)).
Proof.
  intros Hb Hv Hc Hargs. unfold run_shell.
  rewrite (nonblank_guard cmd Hb), Hv, Hc. unfold execute_checked.
  destruct (_has_shell_syntax cmd) eqn:Hsh.
  - destruct (subprocess_run os _ fs) as [o f] eqn:E.
    eexists. split; [reflexivity|]. split; [reflexivity|].
    rewrite E. cbn [fst]. intros ->. reflexivity.
  - destruct Hargs as [Hargs|[args Hargs]]; [discriminate Hargs|].
    rewrite Hargs, bind_ok.
    destruct (subprocess_run os _ fs) as [o f] eqn:E.
    eexists. split; [reflexivity|]. split; [reflexivity|].
    rewrite E. cbn [fst]. intros ->. reflexivity.
Qed.

(** A file name strictly below the workspace root, where the code can be
    written: [run_python] starts one process, with the clamped time
    limit; when that process outlives the limit, the result is the one of
    the [TimeoutExpired] handler. *)
Lemma run_python_starts (code : Utf8.text) (filename : string) (timeout : Z)
    (fs fs1 : Fs.filesystem) (p : Fs.path) :
  Fs.resolve_in_workspace filename = Ok p ->
  Fs.workspace_in_parents p = true ->
  Fs.write_text fs p code = (Ok tt, fs1) ->
  exists req,
    trace (run_python os code filename timeout fs) = [SpawnCall req]
    /\ sp_timeout req = clamp_timeout timeout
    /\ ((subprocess_run os req fs1).1 = TimeoutExpired ->
        value (run_python os code filename timeout fs)
        = Ok (mkPythonResult 124 ""
                ("Python execution timed out after "
                 ++ str_of_Z (clamp_timeout timeout) ++ "s")
                (Fs.path_str p))).
Proof.
  intros Hp Hin Hw. unfold run_python. rewrite Hp, Hin, Hw.
  simpl negb. cbv iota.
  destruct (subprocess_run os _ fs1) as [o f] eqn:E.
  eexists. split; [destruct o; reflexivity|].
  split; [reflexivity|]. rewrite E. cbn [fst]. intros ->. reflexivity.
Qed.

(** C4.  For every integer [timeout], the effective time limit is
    [timeout] itself when it lies in 1..600, 1 when it is smaller and 600
    when it is larger.  That limit is the one handed to [subprocess.run]
    by [run_shell] and by [run_python], on every process they start; a
    command that passes the checks, and a code file that can be written
    below the workspace root, do start one process with it; and when the
    process outlives the limit the result has return code 124 and a
    message that names the limit. *)
Theorem timeout_clamped_and_reported (timeout : Z) :
  1 <= clamp_timeout timeout <= 600
  /\ (forall cmd cwd fs req,
        In (SpawnCall req) (trace (run_shell os cmd cwd timeout fs)) ->
        sp_timeout req = clamp_timeout timeout
        /\ (expires os req ->
            exists r, value (run_shell os cmd cwd timeout fs) = Ok r
                      /\ returncode r = 124
                      /\ stderr r = "Command timed out after "
                                    ++ str_of_Z (clamp_timeout timeout) ++ "s"))
  /\ (forall code filename fs req,
        In (SpawnCall req) (trace (run_python os code filename timeout fs)) ->
        sp_timeout req = clamp_timeout timeout
        /\ (expires os req ->
            exists r, value (run_python os code filename timeout fs) = Ok r
                      /\ py_returncode r = 124
                      /\ py_stderr r = "Python execution timed out after "
                                       ++ str_of_Z (clamp_timeout timeout)
                                       ++ "s"))
  /\ ((1 <= timeout <= 600 -> clamp_timeout timeout = timeout)
      /\ (timeout < 1 -> clamp_timeout timeout = 1)
      /\ (600 < timeout -> clamp_timeout timeout = 600))
  /\ (forall cmd cwd fs p,
        all_chars isspace cmd = false ->
        _validate_command_safety cmd = Ok tt ->
        _safe_cwd cwd = Ok p ->
        (_has_shell_syntax cmd = true
         \/ exists args, Shlex.split cmd = Ok args) ->
        exists req,
          trace (run_shell os cmd cwd timeout fs)
          = [ValidateCall cmd; SpawnCall req]
          /\ sp_timeout req = clamp_timeout timeout
          /\ ((subprocess_run os req fs).1 = TimeoutExpired ->
              value (run_shell os cmd cwd timeout fs)
              = Ok (mkShellResult 124 ""
                      ("Command timed out after "
                       ++ str_of_Z (clamp_timeout timeout) ++ "s")
                      cmd (Some (Fs.path_str p)) None)))
  /\ (forall code filename fs fs1 p,
        Fs.resolve_in_workspace filename = Ok p ->
        Fs.workspace_in_parents p = true ->
        Fs.write_text fs p code = (Ok tt, fs1) ->
        exists req,
          trace (run_python os code filename timeout fs) = [SpawnCall req]
          /\ sp_timeout req = clamp_timeout timeout
          /\ ((subprocess_run os req fs1).1 = TimeoutExpired ->
              value (run_python os code filename timeout fs)
              = Ok (mkPythonResult 124 ""
                      ("Python execution timed out after "
                       ++ str_of_Z (clamp_timeout timeout) ++ "s")
                      (Fs.path_str p)))).
Proof.
  split; [apply clamp_timeout_range|]. split; [|split; [|split; [|split]]].
  - intros cmd cwd fs req. apply run_shell_timeout.
  - intros code filename fs req. apply run_python_timeout.
  - apply clamp_timeout_cases.
  - intros cmd cwd fs p. apply run_shell_starts.
  - intros code filename fs fs1 p. apply run_python_starts.
Qed.

End Timeouts.

Lemma timeout_clamped_and_reported_witness :
  (exists r, value (run_shell stalling_os "sleep 5" None 7200 bare_workspace)
             = Ok r
             /\ returncode r = 124
             /\ stderr r = "Command timed out after 600s")
  /\ (exists r, value (run_python stalling_os (text_of "while True: pass")
                                  "loop.py" (-3) bare_workspace) = Ok r
                /\ py_returncode r = 124
                /\ py_stderr r = "Python execution timed out after 1s")
  /\ clamp_timeout 45 = 45.
Proof.
  destruct (timeout_clamped_and_reported stalling_os 7200)
    as (_ & _ & _ & _ & Hshell & _).
  destruct (timeout_clamped_and_reported stalling_os (-3))
    as (_ & _ & _ & _ & _ & Hpy).
  destruct (timeout_clamped_and_reported stalling_os 45)
    as (_ & _ & _ & (Hkeep & _) & _).
  split; [|split; [|apply Hkeep; lia]].
  - destruct (Hshell "sleep 5" None bare_workspace Fs.WORKSPACE)
      as (req & _ & _ & H).
    + reflexivity.
    + vm_compute. reflexivity.
    + reflexivity.
    + right. exists ["sleep"; "5"]. reflexivity.
    + eexists. split; [apply H; reflexivity|]. split; reflexivity.
  - destruct (Fs.write_text bare_workspace (Fs.WORKSPACE ++ ["loop.py"])%list
                (text_of "while True: pass")) as [r fs1] eqn:Hw.
    assert (Hr : r = Ok tt)
      by (apply (f_equal fst) in Hw; vm_compute in Hw; symmetry; exact Hw).
    subst r.
    destruct (Hpy (text_of "while True: pass") "loop.py" bare_workspace fs1
                (Fs.WORKSPACE ++ ["loop.py"])%list)
      as (req & _ & _ & H).
    + vm_compute. reflexivity.
    + vm_compute. reflexivity.
    + exact Hw.
    + eexists. split; [apply H; reflexivity|]. split; reflexivity.
Defined.

(** ** Path confinement *)

Lemma workspace_in_parents_spec (p : Fs.path) :
  Fs.workspace_in_parents p = true
  <-> exists rel, rel <> [] /\ p = (Fs.WORKSPACE ++ rel)%list.
Proof.
  unfold Fs.workspace_in_parents, Fs.parents.
  rewrite bool_decide_eq_true, list_elem_of_fmap. split.
  - intros (n & Hw & Hn).
    rewrite list_elem_of_In, <- in_rev, in_seq in Hn.
    exists (skipn n p). split.
    + intros Hnil. apply (f_equal (@List.length string)) in Hnil.
      rewrite length_skipn in Hnil. cbn in Hnil. lia.
    + rewrite Hw. symmetry. apply firstn_skipn.
  - intros (rel & Hrel & ->).
    exists (List.length Fs.WORKSPACE). split.
    + rewrite take_app_length. reflexivity.
    + rewrite list_elem_of_In, <- in_rev, in_seq.
      rewrite length_app. destruct rel; [contradiction|]. cbn. lia.
Qed.

Lemma inside_workspace_spec (p : Fs.path) :
  Fs.inside_workspace p = true <-> confined p.
Proof.
  unfold Fs.inside_workspace, confined.
  rewrite orb_true_iff, workspace_in_parents_spec, bool_decide_eq_true.
  split.
  - intros [(rel & _ & ->)| ->]; [exists rel|exists []]; reflexivity.
  - intros ([|c rel] & ->).
    + right. reflexivity.
    + left. exists (c :: rel). split; [discriminate|reflexivity].
Qed.

(** The guard of [_safe_cwd], [read_file] and [write_file]. *)
Lemma guard_inside (p : Fs.path) :
  negb (Fs.workspace_in_parents p) && negb (bool_decide (p = Fs.WORKSPACE))
  = negb (Fs.inside_workspace p).
Proof. unfold Fs.inside_workspace. symmetry. apply negb_orb. Qed.

(** ** What a write may change *)

Module FrameFacts.
Import Fs.

Lemma os_mkdir_ok (fs fs' : filesystem) (d : path) :
  os_mkdir fs d = Ok fs' -> fs !! d = None /\ fs' = <[d := Dir]> fs.
Proof.
  unfold os_mkdir. destruct d as [|c d]; [discriminate|].
  destruct (stat_parent fs (c :: d)) as [[]|e];
    [rewrite bind_ok|rewrite bind_raise; discriminate].
  destruct (fs !! (c :: d)) as [n|]; [discriminate|].
  intros [= <-]. split; reflexivity.
Qed.

Lemma prefix_of_parent (q d : path) : q `prefix_of` parent d -> q `prefix_of` d.
Proof.
  intros Hq. destruct d as [|c d] using rev_ind; [exact Hq|].
  unfold parent in Hq. rewrite removelast_last in Hq.
  apply (prefix_app_r q d [c]), Hq.
Qed.

(** [mkdir(parents=True)] creates directories only, on the way to its
    target, where nothing was. *)
Lemma mkdir_parents_changes (n : nat) :
  forall (fs fs' : filesystem) (d : path),
    mkdir_parents n fs d = Ok fs' ->
    forall q, fs' !! q <> fs !! q -> fs !! q = None /\ q `prefix_of` d.
Proof.
  induction n as [|n IH]; intros fs fs' d; cbn [mkdir_parents].
  - destruct (os_mkdir fs d) as [fs1|e] eqn:E.
    + intros [= <-] q Hq. destruct (os_mkdir_ok fs fs1 d E) as [Hnone ->].
      destruct (decide (d = q)) as [<-|Hne];
        [split; [exact Hnone|reflexivity]|].
      rewrite lookup_insert_ne in Hq by exact Hne. contradiction.
    + destruct (is_file_not_found e); [discriminate|].
      destruct (is_dir fs d); [|discriminate].
      intros [= <-] q Hq. contradiction.
  - destruct (os_mkdir fs d) as [fs1|e] eqn:E.
    + intros [= <-] q Hq. destruct (os_mkdir_ok fs fs1 d E) as [Hnone ->].
      destruct (decide (d = q)) as [<-|Hne];
        [split; [exact Hnone|reflexivity]|].
      rewrite lookup_insert_ne in Hq by exact Hne. contradiction.
    + destruct (is_file_not_found e).
      * destruct (mkdir_parents n fs (parent d)) as [fsA|e'] eqn:EA;
          [rewrite bind_ok|rewrite bind_raise; discriminate].
        specialize (IH fs fsA (parent d) EA).
        unfold mkdir_exist_ok.
        destruct (os_mkdir fsA d) as [fsB|e'] eqn:EB.
        -- intros [= <-] q Hq.
           destruct (os_mkdir_ok fsA fsB d EB) as [Hnone ->].
           destruct (decide (d = q)) as [<-|Hne].
           ++ split; [|reflexivity].
              destruct (decide (fsA !! d = fs !! d)) as [Heq|Hdiff];
                [exact (eq_trans (eq_sym Heq) Hnone)|].
              exact (proj1 (IH d Hdiff)).
           ++ rewrite lookup_insert_ne in Hq by exact Hne.
              destruct (IH q Hq) as [Hn Hp].
              split; [exact Hn|apply prefix_of_parent, Hp].
        -- destruct (is_file_not_found e'); [discriminate|].
           destruct (is_dir fsA d); [|discriminate].
           intros [= <-] q Hq. destruct (IH q Hq) as [Hn Hp].
           split; [exact Hn|apply prefix_of_parent, Hp].
      * destruct (is_dir fs d); [|discriminate].
        intros [= <-] q Hq. contradiction.
Qed.

(** [write_text] changes the entry of its file and no other. *)
Lemma write_text_changes (fs fs' : filesystem) (p : path)
    (content : Utf8.text) (r : result unit) :
  write_text fs p content = (r, fs') ->
  forall q, fs' !! q <> fs !! q -> q = p.
Proof.
  unfold write_text. destruct p as [|c p].
  - intros [= _ <-] q Hq. contradiction.
  - destruct (stat_parent fs (c :: p)) as [[]|e];
      [|intros [= _ <-] q Hq; contradiction].
    assert (Hw : forall r0 fs0,
               match Utf8.encode content with
               | Ok data => (Ok tt, <[c :: p := File data]>
                                      (<[c :: p := File []]> fs))
               | Raise e => (Raise e, <[c :: p := File []]> fs)
               end = (r0, fs0) ->
               forall q, fs0 !! q <> fs !! q -> q = c :: p).
    { intros r0 fs0 H q Hq.
      destruct (decide (c :: p = q)) as [<-|Hne]; [reflexivity|].
      destruct (Utf8.encode content); injection H as _ <-;
        rewrite ?lookup_insert_ne in Hq by exact Hne; contradiction. }
    destruct (fs !! (c :: p)) as [[|d]|];
      [intros [= _ <-] q Hq; contradiction|apply Hw|apply Hw].
Qed.

(** On the way to a path that is reached, everything is there. *)
Lemma stat_from_present (fs : filesystem) (full : path) (todo : list string) :
  forall (cur : path) (n : node),
    stat_from fs cur todo full = Ok n ->
    forall q, q `prefix_of` todo -> fs !! (cur ++ q)%list <> None.
Proof.
  induction todo as [|c todo IH]; intros cur n; cbn [stat_from].
  - destruct (fs !! cur) as [n0|] eqn:E; [|discriminate].
    intros _ q Hq. apply prefix_nil_inv in Hq as ->.
    rewrite app_nil_r, E. discriminate.
  - destruct (fs !! cur) as [[|data]|] eqn:E; try discriminate.
    intros H q Hq. destruct q as [|c' q].
    + rewrite app_nil_r, E. discriminate.
    + apply prefix_cons_inv_1 in Hq as Hc. subst c'.
      apply prefix_cons_inv_2 in Hq.
      specialize (IH (cur ++ [c])%list n H q Hq).
      rewrite <- app_assoc in IH. exact IH.
Qed.

Lemma is_dir_present (fs : filesystem) (d q : path) :
  is_dir fs d = true -> q `prefix_of` d -> fs !! q <> None.
Proof.
  unfold is_dir, stat. destruct (stat_from fs [] d d) as [n|e] eqn:E;
    [|discriminate].
  intros _ Hq. exact (stat_from_present fs d d [] n E q Hq).
Qed.

End FrameFacts.

(** With the workspace in place, whatever [write_file] creates or changes
    is inside the workspace. *)
Lemma write_file_changes_confined (fs fs' : Fs.filesystem) (path : string)
    (content : Utf8.text) (r : WriteResult) :
  Fs.is_dir fs Fs.WORKSPACE = true ->
  write_file fs path content = (r, fs') ->
  forall q, fs' !! q <> fs !! q -> confined q.
Proof.
  intros Hws. unfold write_file.
  destruct (Fs.resolve_in_workspace path) as [p|e];
    [|intros [= _ <-] q Hq; contradiction].
  rewrite guard_inside.
  destruct (Fs.inside_workspace p) eqn:Hin;
    [|intros [= _ <-] q Hq; contradiction].
  simpl negb. cbv iota.
  destruct (Fs.mkdir fs (Fs.parent p)) as [fs1|e] eqn:Hmk;
    [|intros [= _ <-] q Hq; contradiction].
  destruct (Fs.write_text fs1 p content) as [w fs2] eqn:Hwt.
  assert (Hfs : fs' = fs2 -> forall q, fs' !! q <> fs !! q -> confined q).
  { intros -> q Hq. apply inside_workspace_spec in Hin as [rel Hrel].
    destruct (decide (fs2 !! q = fs1 !! q)) as [Heq|Hdiff].
    - rewrite Heq in Hq.
      destruct (FrameFacts.mkdir_parents_changes _ fs fs1 (Fs.parent p) Hmk q Hq)
        as [Hnone Hpre].
      apply FrameFacts.prefix_of_parent in Hpre.
      assert (Hwp : Fs.WORKSPACE `prefix_of` p) by (exists rel; exact Hrel).
      destruct (prefix_weak_total _ _ _ Hwp Hpre) as [[k Hk]|Hqw].
      + exists k. exact Hk.
      + destruct (FrameFacts.is_dir_present fs Fs.WORKSPACE q Hws Hqw Hnone).
    - rewrite (FrameFacts.write_text_changes fs1 fs2 p content w Hwt q Hdiff).
      exists rel. exact Hrel. }
  destruct w as [[]|e]; [|intros [= _ <-]; apply Hfs; reflexivity].
  destruct (Utf8.encode content); intros [= _ <-]; apply Hfs; reflexivity.
Qed.

Section Confinement.

Variable fs : Fs.filesystem.

Lemma read_file_escape (path : string) (max_bytes : Z) (p : Fs.path) :
  Fs.resolve_in_workspace path = Ok p ->
  Fs.inside_workspace p = false ->
  read_file fs path max_bytes = ReadError path path_escape.
Proof.
  intros Hp Hin. unfold read_file.
  rewrite Hp, bind_ok, guard_inside, Hin. reflexivity.
Qed.

Lemma write_file_escape (path : string) (content : Utf8.text) (p : Fs.path) :
  Fs.resolve_in_workspace path = Ok p ->
  Fs.inside_workspace p = false ->
  write_file fs path content = (WriteError path path_escape, fs).
Proof.
  intros Hp Hin. unfold write_file.
  rewrite Hp, guard_inside, Hin. reflexivity.
Qed.

Lemma read_file_unresolved (path : string) (max_bytes : Z) (e : exn) :
  Fs.resolve_in_workspace path = Raise e ->
  read_file fs path max_bytes = ReadError path (exn_str e).
Proof. intros Hp. unfold read_file. rewrite Hp. reflexivity. Qed.

Lemma write_file_unresolved (path : string) (content : Utf8.text) (e : exn) :
  Fs.resolve_in_workspace path = Raise e ->
  write_file fs path content = (WriteError path (exn_str e), fs).
Proof. intros Hp. unfold write_file. rewrite Hp. reflexivity. Qed.

(** Content is read at the resolved path and nowhere else. *)
Lemma read_file_content (path : string) (max_bytes : Z) (q : string)
    (c : Utf8.text) :
  read_file fs path max_bytes = ReadContent q c ->
  exists p data,
    Fs.resolve_in_workspace path = Ok p /\ Fs.inside_workspace p = true
    /\ q = Fs.path_str p /\ Fs.read_bytes fs p = Ok data
    /\ c = Utf8.decode_replace (slice_to max_bytes data).
Proof.
  unfold read_file.
  destruct (Fs.resolve_in_workspace path) as [p|e] eqn:Hp;
    [rewrite bind_ok|rewrite bind_raise; discriminate].
  rewrite guard_inside.
  destruct (Fs.inside_workspace p) eqn:Hin; [|discriminate].
  simpl negb. cbv iota.
  destruct (negb (Fs.exists_ fs p)); [discriminate|].
  destruct (negb (Fs.is_file fs p)); [discriminate|].
  destruct (Fs.read_bytes fs p) as [data|e] eqn:Hdata;
    [rewrite bind_ok|rewrite bind_raise; discriminate].
  intros [= <- <-]. exists p, data. auto.
Qed.

(** A successful write went to the resolved path and nowhere else. *)
Lemma write_file_done (path : string) (content : Utf8.text) (q : string)
    (n : Z) (fs' : Fs.filesystem) :
  write_file fs path content = (WriteDone q n, fs') ->
  exists p data fs1,
    Fs.resolve_in_workspace path = Ok p /\ Fs.inside_workspace p = true
    /\ q = Fs.path_str p /\ Utf8.encode content = Ok data
    /\ n = Z.of_nat (List.length data)
    /\ Fs.mkdir fs (Fs.parent p) = Ok fs1
    /\ Fs.write_text fs1 p content = (Ok tt, fs').
Proof.
  unfold write_file.
  destruct (Fs.resolve_in_workspace path) as [p|e] eqn:Hp; [|discriminate].
  rewrite guard_inside.
  destruct (Fs.inside_workspace p) eqn:Hin; [|discriminate].
  simpl negb. cbv iota.
  destruct (Fs.mkdir fs (Fs.parent p)) as [fs1|e] eqn:Hmk; [|discriminate].
  destruct (Fs.write_text fs1 p content) as [[[]|e] fs2] eqn:Hwr;
    [|discriminate].
  destruct (Utf8.encode content) as [data|e] eqn:Henc; [|discriminate].
  intros [= <- <- <-]. exists p, data, fs1. auto 10.
Qed.

(** C2.  Whatever the path string, with or without [..] components: when
    it resolves, against the workspace root, to a path that is neither the
    root nor a descendant of it, or does not resolve, [read_file] and
    [write_file] return the error dictionary and the file system is as it
    was; whenever they return content or report a write, the path they
    worked on is the resolved one, inside the root; and, the workspace
    being in place, every entry of the file system that [write_file]
    creates or changes is inside the root. *)
Theorem traversal_confined_or_refused (path : string) (max_bytes : Z)
    (content : Utf8.text) :
  match Fs.resolve_in_workspace path with
  | Ok p =>
      confined p
      \/ (read_file fs path max_bytes = ReadError path path_escape
          /\ write_file fs path content = (WriteError path path_escape, fs))
  | Raise e =>
      read_file fs path max_bytes = ReadError path (exn_str e)
      /\ write_file fs path content = (WriteError path (exn_str e), fs)
  end
  /\ (forall q c,
        read_file fs path max_bytes = ReadContent q c ->
        exists p, Fs.resolve_in_workspace path = Ok p /\ confined p
                  /\ q = Fs.path_str p)
  /\ (forall q n fs',
        write_file fs path content = (WriteDone q n, fs') ->
        exists p, Fs.resolve_in_workspace path = Ok p /\ confined p
                  /\ q = Fs.path_str p)
  /\ (Fs.is_dir fs Fs.WORKSPACE = true ->
      forall q, (write_file fs path content).2 !! q <> fs !! q -> confined q).
Proof.
  split; [|split; [|split]].
  - destruct (Fs.resolve_in_workspace path) as [p|e] eqn:Hp.
    + destruct (Fs.inside_workspace p) eqn:Hin.
      * left. apply inside_workspace_spec, Hin.
      * right. split.
        -- apply (read_file_escape path max_bytes p Hp Hin).
        -- apply (write_file_escape path content p Hp Hin).
    + split.
      * apply (read_file_unresolved path max_bytes e Hp).
      * apply (write_file_unresolved path content e Hp).
  - intros q c H.
    destruct (read_file_content path max_bytes q c H)
      as (p & data & Hp & Hin & Hq & _).
    exists p. split; [exact Hp|]. split; [|exact Hq].
    apply inside_workspace_spec, Hin.
  - intros q n fs' H.
    destruct (write_file_done path content q n fs' H)
      as (p & data & fs1 & Hp & Hin & Hq & _).
    exists p. split; [exact Hp|]. split; [|exact Hq].
    apply inside_workspace_spec, Hin.
  - intros Hws.
    destruct (write_file fs path content) as [r fs'] eqn:Hw.
    exact (write_file_changes_confined fs fs' path content r Hws Hw).
Qed.

End Confinement.

(** The two escapes of the repository's isolation test, and a traversal
    that stays inside. *)
Example test_workspace_isolation :
  write_file bare_workspace "../escape.txt" (text_of "malicious")
  = (WriteError "../escape.txt" path_escape, bare_workspace)
  /\ read_file bare_workspace "../../../etc/passwd" 200000
     = ReadError "../../../etc/passwd" path_escape
  /\ Fs.resolve_in_workspace "a/../../workspace/b.txt"
     = Ok ["opt"; "coding-agent"; "workspace"; "b.txt"].
Proof.
  split; [|split].
  - apply (write_file_escape _ _ _ ["opt"; "coding-agent"; "escape.txt"]);
      vm_compute; reflexivity.
  - vm_compute. reflexivity.
  - vm_compute. reflexivity.
Qed.

Lemma traversal_confined_or_refused_witness :
  read_file bare_workspace "../../../etc/passwd" 200000
  = ReadError "../../../etc/passwd" path_escape
  /\ write_file bare_workspace "../../../etc/passwd" []
     = (WriteError "../../../etc/passwd" path_escape, bare_workspace).
Proof.
  pose proof (proj1 (traversal_confined_or_refused bare_workspace
                       "../../../etc/passwd" 200000 [])) as H.
  replace (Fs.resolve_in_workspace "../../../etc/passwd")
    with (@Ok Fs.path ["etc"; "passwd"]) in H by (vm_compute; reflexivity).
  destruct H as [[rel Hrel]|H]; [discriminate Hrel|exact H].
Defined.

(** ** The UTF-8 codec: decoding undoes encoding *)

Module Utf8Facts.
Import Utf8.

Ltac case_tests :=
  repeat match goal with
         | |- context [Z.ltb ?a ?b] => destruct (Z.ltb_spec a b); try lia
         | |- context [Z.leb ?a ?b] => destruct (Z.leb_spec a b); try lia
         | |- context [Z.eqb ?a ?b] => destruct (Z.eqb_spec a b); try lia
         end.

Lemma decode_one (b0 : Z) (r : bytes) :
  b0 < 0x80 -> decode_replace (b0 :: r) = b0 :: decode_replace r.
Proof. intros H. cbn [decode_replace]. case_tests. reflexivity. Qed.

Lemma decode_two (b0 b1 : Z) (r : bytes) :
  0xC2 <= b0 < 0xE0 -> 0x80 <= b1 <= 0xBF ->
  decode_replace (b0 :: b1 :: r)
  = ((b0 - 0xC0) * 64 + (b1 - 0x80)) :: decode_replace r.
Proof.
  intros H0 H1. cbn [decode_replace]. unfold is_continuation.
  case_tests. reflexivity.
Qed.

Lemma decode_three (b0 b1 b2 : Z) (r : bytes) :
  0xE0 <= b0 < 0xF0 -> 0x80 <= b1 <= 0xBF -> 0x80 <= b2 <= 0xBF ->
  (b0 = 0xE0 -> 0xA0 <= b1) -> (b0 = 0xED -> b1 < 0xA0) ->
  decode_replace (b0 :: b1 :: b2 :: r)
  = ((b0 - 0xE0) * 4096 + (b1 - 0x80) * 64 + (b2 - 0x80)) :: decode_replace r.
Proof.
  intros H0 H1 H2 Hlow Hhigh. cbn [decode_replace].
  unfold second_ok, is_continuation.
  case_tests; reflexivity.
Qed.

Lemma decode_four (b0 b1 b2 b3 : Z) (r : bytes) :
  0xF0 <= b0 < 0xF5 -> 0x80 <= b1 <= 0xBF -> 0x80 <= b2 <= 0xBF ->
  0x80 <= b3 <= 0xBF ->
  (b0 = 0xF0 -> 0x90 <= b1) -> (b0 = 0xF4 -> b1 < 0x90) ->
  decode_replace (b0 :: b1 :: b2 :: b3 :: r)
  = ((b0 - 0xF0) * 262144 + (b1 - 0x80) * 4096 + (b2 - 0x80) * 64
     + (b3 - 0x80)) :: decode_replace r.
Proof.
  intros H0 H1 H2 H3 Hlow Hhigh. cbn [decode_replace].
  unfold second_ok, is_continuation.
  case_tests; reflexivity.
Qed.

(** One code point, encoded, decodes to itself. *)
Lemma decode_encode_code_point (c : Z) (r : bytes) :
  valid_code_point c -> is_surrogate c = false ->
  decode_replace (encode_code_point c ++ r)%list = c :: decode_replace r.
Proof.
  unfold valid_code_point, is_surrogate, encode_code_point.
  intros Hc Hs.
  assert (Hns : c < 0xD800 \/ 0xDFFF < c)
    by (destruct (Z.leb_spec 0xD800 c), (Z.leb_spec c 0xDFFF);
        try discriminate; lia).
  clear Hs.
  destruct (Z.ltb_spec c 0x80); [|destruct (Z.ltb_spec c 0x800);
                                   [|destruct (Z.ltb_spec c 0x10000)]];
    cbn [app].
  - apply decode_one. lia.
  - rewrite decode_two.
    + f_equal. Z.div_mod_to_equations. lia.
    + Z.div_mod_to_equations. lia.
    + Z.div_mod_to_equations. lia.
  - rewrite decode_three.
    + f_equal. Z.div_mod_to_equations. lia.
    + Z.div_mod_to_equations. lia.
    + Z.div_mod_to_equations. lia.
    + Z.div_mod_to_equations. lia.
    + Z.div_mod_to_equations. lia.
    + Z.div_mod_to_equations. lia.
  - rewrite decode_four.
    + f_equal. Z.div_mod_to_equations. lia.
    + Z.div_mod_to_equations. lia.
    + Z.div_mod_to_equations. lia.
    + Z.div_mod_to_equations. lia.
    + Z.div_mod_to_equations. lia.
    + Z.div_mod_to_equations. lia.
    + Z.div_mod_to_equations. lia.
Qed.

Lemma decode_encode_from (t : text) :
  Forall valid_code_point t ->
  forall i data, encode_from i t = Ok data -> decode_replace data = t.
Proof.
  induction 1 as [|c t Hc Ht IH]; intros i data; cbn [encode_from].
  - intros [= <-]. reflexivity.
  - destruct (is_surrogate c) eqn:Hs; [discriminate|].
    destruct (encode_from (S i) t) as [bs|e] eqn:E;
      [rewrite bind_ok|rewrite bind_raise; discriminate].
    intros [= <-].
    rewrite (decode_encode_code_point c bs Hc Hs), (IH _ _ E). reflexivity.
Qed.

(** [s.encode("utf-8").decode("utf-8", errors="replace") == s] for every
    [str] that can be encoded. *)
Lemma decode_encode (t : text) (data : bytes) :
  Forall valid_code_point t -> encode t = Ok data -> decode_replace data = t.
Proof. intros Ht. apply (decode_encode_from t Ht 0%nat). Qed.

End Utf8Facts.

(** ** The file system: a file that was written can be read *)

Module FsFacts.
Import Fs.

Lemma path_snoc_neq (cur rest : path) (c : string) :
  cur <> (cur ++ rest ++ [c])%list.
Proof.
  intros H. apply (f_equal (@List.length string)) in H.
  rewrite !length_app in H. cbn in H. lia.
Qed.

(** The walk to a new entry: if the directory above it is reached, then so
    is the entry once it has been inserted. *)
Lemma stat_from_inserted (fs : filesystem) (n : node) (c : string)
    (full full' : path) (todo : list string) :
  forall cur,
    stat_from fs cur todo full = Ok Dir ->
    stat_from (<[(cur ++ todo ++ [c])%list := n]> fs) cur (todo ++ [c])%list full'
    = Ok n.
Proof.
  induction todo as [|d todo IH]; intros cur; cbn [stat_from app].
  - destruct (fs !! cur) as [[|data]|] eqn:E; try discriminate. intros _.
    rewrite lookup_insert_ne by (apply not_eq_sym, (path_snoc_neq cur [] c)).
    rewrite E, lookup_insert_eq. reflexivity.
  - destruct (fs !! cur) as [[|data]|] eqn:E; try discriminate. intros H.
    rewrite lookup_insert_ne
      by (apply not_eq_sym, (path_snoc_neq cur (d :: todo) c)).
    rewrite E.
    specialize (IH (cur ++ [d])%list H).
    rewrite <- app_assoc in IH. exact IH.
Qed.

Lemma path_parent_last (p : path) :
  p <> [] -> p = (parent p ++ [List.last p ""])%list.
Proof. intros H. apply app_removelast_last, H. Qed.

Lemma stat_parent_ok (fs : filesystem) (p : path) :
  stat_parent fs p = Ok tt -> stat_from fs [] (parent p) p = Ok Dir.
Proof.
  unfold stat_parent.
  destruct (stat_from fs [] (parent p) p) as [[|data]|e];
    [reflexivity|discriminate|discriminate].
Qed.

(** What a successful [write_text] has done. *)
Lemma write_text_ok (fs fs' : filesystem) (p : path) (content : Utf8.text) :
  write_text fs p content = (Ok tt, fs') ->
  p <> [] /\ stat_parent fs p = Ok tt
  /\ exists data, Utf8.encode content = Ok data
                  /\ fs' = <[p := File data]> fs.
Proof.
  unfold write_text. destruct p as [|c p]; [discriminate|].
  destruct (stat_parent fs (c :: p)) as [[]|e] eqn:Hpar; [|discriminate].
  assert (Hw : match Utf8.encode content with
               | Ok data => (Ok tt, <[c :: p := File data]>
                                      (<[c :: p := File []]> fs))
               | Raise e => (Raise e, <[c :: p := File []]> fs)
               end = (@Ok unit tt, fs') ->
               exists data, Utf8.encode content = Ok data
                            /\ fs' = <[c :: p := File data]> fs).
  { destruct (Utf8.encode content) as [data|e]; [|discriminate].
    intros [= <-]. exists data. split; [reflexivity|].
    apply insert_insert_eq. }
  destruct (fs !! (c :: p)) as [[|d]|]; [intros H; discriminate H| |];
    intros H; (split; [discriminate|]); (split; [reflexivity|]);
    exact (Hw H).
Qed.

(** After a successful [write_text] the file is there with the encoded
    content. *)
Lemma stat_after_write_text (fs fs' : filesystem) (p : path)
    (content : Utf8.text) :
  write_text fs p content = (Ok tt, fs') ->
  exists data, Utf8.encode content = Ok data /\ stat fs' p = Ok (File data).
Proof.
  intros H. destruct (write_text_ok fs fs' p content H)
    as (Hne & Hpar & data & Henc & ->).
  exists data. split; [exact Henc|].
  apply stat_parent_ok in Hpar.
  pose proof (stat_from_inserted fs (File data) (List.last p "") p p
                (parent p) [] Hpar) as Hs.
  cbn [app] in Hs. rewrite <- (path_parent_last p Hne) in Hs. exact Hs.
Qed.

End FsFacts.

Lemma slice_to_all (max_bytes : Z) (data : Utf8.bytes) :
  Z.of_nat (List.length data) <= max_bytes -> slice_to max_bytes data = data.
Proof.
  intros H. unfold slice_to.
  destruct (Z.leb_spec 0 max_bytes); [|lia].
  apply firstn_all2. lia.
Qed.

Section RoundTrip.

Variable fs : Fs.filesystem.

(** C8, as the code has it.  When [write_file(path, content)] reports
    success, for a [str] content whose encoding is no longer than the read
    limit, [read_file(path)] on the file system it leaves returns the very
    path and content. *)
Theorem write_then_read (path : string) (content : Utf8.text) (q : string)
    (n : Z) (fs' : Fs.filesystem) (max_bytes : Z) :
  Forall Utf8.valid_code_point content ->
  write_file fs path content = (WriteDone q n, fs') ->
  n <= max_bytes ->
  read_file fs' path max_bytes = ReadContent q content.
Proof.
  intros Hvalid Hw Hmax.
  destruct (write_file_done fs path content q n fs' Hw)
    as (p & data & fs1 & Hp & Hin & -> & Henc & -> & _ & Hwt).
  destruct (FsFacts.stat_after_write_text fs1 fs' p content Hwt)
    as (data' & Henc' & Hstat).
  rewrite Henc in Henc'. injection Henc' as <-.
  unfold read_file. rewrite Hp, bind_ok, guard_inside, Hin.
  unfold Fs.exists_, Fs.is_file, Fs.read_bytes. rewrite Hstat, bind_ok.
  simpl negb. cbv iota. rewrite bind_ok.
  rewrite (slice_to_all max_bytes data Hmax).
  rewrite (Utf8Facts.decode_encode content data Hvalid Henc). reflexivity.
Qed.

End RoundTrip.

Lemma valid_text_of (s : string) : Forall Utf8.valid_code_point (text_of s).
Proof.
  unfold text_of. apply Forall_forall. intros c Hc.
  apply list_elem_of_fmap in Hc as (a & -> & _).
  unfold Utf8.valid_code_point, code.
  pose proof (N_ascii_bounded a). lia.
Qed.

(** The file test of the repository, and a file in a directory that does
    not exist yet. *)
Lemma write_then_read_witness :
  (exists fs', write_file bare_workspace "a.txt" (text_of "hello")
               = (WriteDone "/opt/coding-agent/workspace/a.txt" 5, fs')
               /\ read_file fs' "a.txt" 200000
                  = ReadContent "/opt/coding-agent/workspace/a.txt"
                                (text_of "hello"))
  /\ (exists fs', write_file bare_workspace "output/results.csv"
                             (text_of "a,b,c")
                  = (WriteDone "/opt/coding-agent/workspace/output/results.csv"
                               5, fs')
                  /\ read_file fs' "output/results.csv" 200000
                     = ReadContent
                         "/opt/coding-agent/workspace/output/results.csv"
                         (text_of "a,b,c")).
Proof.
  split.
  - destruct (write_file bare_workspace "a.txt" (text_of "hello"))
      as [w fs'] eqn:E.
    assert (Hw : w = WriteDone "/opt/coding-agent/workspace/a.txt" 5)
      by (apply (f_equal fst) in E; vm_compute in E; symmetry; exact E).
    subst w. exists fs'. split; [reflexivity|].
    apply (write_then_read bare_workspace "a.txt" (text_of "hello") _ 5 fs').
    + apply valid_text_of.
    + exact E.
    + lia.
  - destruct (write_file bare_workspace "output/results.csv" (text_of "a,b,c"))
      as [w fs'] eqn:E.
    assert (Hw : w = WriteDone "/opt/coding-agent/workspace/output/results.csv" 5)
      by (apply (f_equal fst) in E; vm_compute in E; symmetry; exact E).
    subst w. exists fs'. split; [reflexivity|].
    apply (write_then_read bare_workspace "output/results.csv"
             (text_of "a,b,c") _ 5 fs').
    + apply valid_text_of.
    + exact E.
    + lia.
Defined.

(** C8 as stated fails on a path that names the workspace itself: the
    write is refused by the operating system and the read finds a
    directory. *)
Lemma write_then_read_counterexample :
  success (write_file bare_workspace "." (text_of "hello")).1 = false
  /\ read_file (write_file bare_workspace "." (text_of "hello")).2 "." 200000
     = ReadError "/opt/coding-agent/workspace" "not_a_file".
Proof. split; vm_compute; reflexivity. Qed.

(** A content with a lone surrogate cannot be encoded: the write fails
    and leaves an empty file. *)
Example write_file_surrogate :
  success (write_file bare_workspace "s.txt" [0xD800]).1 = false
  /\ read_file (write_file bare_workspace "s.txt" [0xD800]).2 "s.txt" 200000
     = ReadContent "/opt/coding-agent/workspace/s.txt" [].
Proof. split; vm_compute; reflexivity. Qed.

(** ** Orchestrator: continuation of truncated responses *)

Module OrchestratorFacts.
Import Orchestrator Scenario.


Lemma string_app_empty (a : string) : a ++ "" = a.
Proof.
  induction a as [|x a IH]; [reflexivity|].
  change (String x (a ++ "") = String x a). f_equal. exact IH.
Qed.


Lemma string_app_assoc (a b c : string) : (a ++ b) ++ c = a ++ b ++ c.
Proof.
  induction a as [|x a IH]; [reflexivity|].
  change (String x ((a ++ b) ++ c) = String x (a ++ b ++ c)). f_equal.
  exact IH.
Qed.

Section Continuation.

Variable w : Engine.


End Continuation.

End OrchestratorFacts.

Module ContinuationClaim.
Import Orchestrator Scenario OrchestratorFacts.





End ContinuationClaim.

(** ** Orchestrator: the loop and its finalization *)

Module LoopFacts.
Import Orchestrator Scenario OrchestratorFacts.

Lemma grows_refl (kind : effect -> bool) (o : Orch) : grows kind o o.
Proof.
  split; [reflexivity|reflexivity|].
  exists []. split; [symmetry; apply app_nil_r|reflexivity].
Qed.

Lemma grows_trans (kind : effect -> bool) (o1 o2 o3 : Orch) :
  grows kind o1 o2 -> grows kind o2 o3 -> grows kind o1 o3.
Proof.
  intros [Hi1 Hm1 (a1 & He1 & Hk1)] [Hi2 Hm2 (a2 & He2 & Hk2)].
  split; [congruence|congruence|].
  exists (a1 ++ a2)%list. split.
  - rewrite He2, He1, <- app_assoc. reflexivity.
  - rewrite forallb_app, Hk1, Hk2. reflexivity.
Qed.

Lemma grows_emit (kind : effect -> bool) (e : effect) (o : Orch) :
  kind e = true -> grows kind o (emit e o).
Proof.
  intros He. split; [reflexivity|reflexivity|].
  exists [e]. split; [reflexivity|]. cbn. rewrite He. reflexivity.
Qed.

Lemma grows_count_call (kind : effect -> bool) (o : Orch) :
  grows kind o (count_call o).
Proof.
  split; [reflexivity|reflexivity|].
  exists []. split; [symmetry; apply app_nil_r|reflexivity].
Qed.

Lemma grows_track_tokens (kind : effect -> bool) (c : Completion) (o : Orch) :
  grows kind o (track_tokens c o).
Proof.
  split; [reflexivity|reflexivity|].
  exists []. split; [symmetry; apply app_nil_r|reflexivity].
Qed.

Create HintDb grows.
#[local] Hint Resolve grows_refl grows_count_call grows_track_tokens : grows.
#[local] Hint Extern 1 (grows _ _ (emit _ _)) =>
  apply grows_emit; reflexivity : grows.

Section AnyEngine.

Variable w : Engine.

(** [get_complete_response] calls the engine and does nothing else to the
    object; to the conversation it adds continuation prompts only. *)
Lemma continuation_loop_frame (fuel : nat) :
  forall (acc : string) (msgs : list message) (o : Orch),
    let r := continuation_loop w fuel acc msgs o in
    grows is_api_call o (r_self r)
    /\ exists frags, r_messages r = (msgs ++ continuation_prompts frags)%list.
Proof.
  induction fuel as [|fuel IH]; intros acc msgs o; cbv zeta.
  - cbn [continuation_loop r_self r_messages].
    split; [auto with grows|]. exists []. symmetry. apply app_nil_r.
  - cbn [continuation_loop]. cbv zeta.
    set (o1 := emit (ApiCall (api_call_count (count_call o)) msgs)
                    (count_call o)).
    assert (H1 : grows is_api_call o o1)
      by (subst o1; apply (grows_trans _ _ (count_call o)); auto with grows).
    assert (Hnil : msgs = (msgs ++ continuation_prompts [])%list)
      by (symmetry; apply app_nil_r).
    destruct (create w (api_call_count o1) msgs) as [c|e];
      [|split; [exact H1|exists []; exact Hnil]].
    destruct (c_content c) as [content|];
      [|split; [exact H1|exists []; exact Hnil]].
    assert (H2 : grows is_api_call o (track_tokens c o1))
      by (apply (grows_trans _ _ o1); auto with grows).
    destruct (String.eqb (finish_reason c) "stop");
      [split; [exact H2|exists []; exact Hnil]|].
    destruct (String.eqb (finish_reason c) "length");
      [|split; [exact H2|exists []; exact Hnil]].
    destruct (IH (acc ++ content)
                 (msgs ++ [mkMessage "assistant" content;
                           mkMessage "user" "Continue."])%list
                 (track_tokens c o1)) as [H3 (frags & Hmsgs)].
    split; [exact (grows_trans _ _ _ _ H2 H3)|].
    exists (content :: frags). rewrite Hmsgs, <- app_assoc. reflexivity.
Qed.

Lemma grows_keeps_others (kind other : effect -> bool) (o o' : Orch) :
  (forall e, kind e = true -> other e = false) ->
  grows kind o o' ->
  List.filter other (effects o') = List.filter other (effects o).
Proof.
  intros Hk [_ _ (added & -> & Hadded)].
  rewrite List.filter_app.
  assert (Hnone : List.filter other added = []).
  { induction added as [|e added IH]; [reflexivity|].
    cbn in Hadded. apply andb_true_iff in Hadded as [He Hrest].
    cbn [List.filter]. rewrite (Hk e He). exact (IH Hrest). }
  rewrite Hnone. apply app_nil_r.
Qed.

Lemma grows_loop_effects (kind : effect -> bool) (o o' : Orch) :
  (forall e, kind e = true -> loop_effect e = true) ->
  grows kind o o' ->
  List.forallb loop_effect (effects o) = true ->
  List.forallb loop_effect (effects o') = true.
Proof.
  intros Hk [_ _ (added & -> & Hadded)] Ho.
  rewrite forallb_app, Ho. cbn [andb].
  apply forallb_forall. intros e He. apply Hk.
  exact (proj1 (forallb_forall _ _) Hadded e He).
Qed.

Lemma api_call_is_loop_effect (e : effect) :
  is_api_call e = true -> loop_effect e = true.
Proof. destruct e; intros H; try discriminate H; reflexivity. Qed.

Lemma api_call_is_no_command (e : effect) :
  is_api_call e = true -> is_command_run e = false.
Proof. destruct e; intros H; try discriminate H; reflexivity. Qed.

Lemma api_call_is_no_failure (e : effect) :
  is_api_call e = true -> is_failed_run e = false.
Proof. destruct e; intros H; try discriminate H; reflexivity. Qed.

(** The engine calls of a turn keep the invariant. *)
Lemma grows_api_calls_invariant (st : Loop) (o o' : Orch)
    (msgs : list message) :
  effects o = effects (self st) ->
  grows is_api_call o o' ->
  loop_invariant st ->
  loop_invariant (mkLoop o' msgs (total_commands st) (failed_commands st)).
Proof.
  intros Ho Hg (Heff & Htotal & Hfailed). rewrite <- Ho in Heff, Htotal, Hfailed.
  split; [|split]; cbn [self total_commands failed_commands].
  - exact (grows_loop_effects _ _ _ api_call_is_loop_effect Hg Heff).
  - rewrite (grows_keeps_others _ is_command_run _ _ api_call_is_no_command Hg).
    exact Htotal.
  - rewrite (grows_keeps_others _ is_failed_run _ _ api_call_is_no_failure Hg).
    exact Hfailed.
Qed.

(** Running the commands of a turn keeps the invariant and the
    conversation. *)
Lemma run_commands_invariant (commands : list string) :
  forall (st : Loop) (results : list CommandResult),
    loop_invariant st ->
    loop_invariant (run_commands w commands st results).1
    /\ messages (run_commands w commands st results).1 = messages st.
Proof.
  induction commands as [|cmd commands IH]; intros st results Hinv;
    cbn [run_commands]; [split; [exact Hinv|reflexivity]|].
  cbv zeta. set (result := execute_command w (S (total_commands st)) cmd).
  set (st1 := mkLoop _ _ _ _).
  assert (Hinv1 : loop_invariant st1).
  { destruct Hinv as (Heff & Htotal & Hfailed). subst st1.
    split; [|split]; cbn [self total_commands failed_commands emit effects].
    - rewrite forallb_app, Heff. reflexivity.
    - rewrite List.filter_app, length_app, <- Htotal. cbn. lia.
    - rewrite List.filter_app, length_app, <- Hfailed.
      destruct (cr_success result); cbn; lia. }
  destruct (IH st1 (results ++ [result])%list Hinv1) as [Hinv' Hmsgs].
  split; [exact Hinv'|exact Hmsgs].
Qed.

Lemma iteration_body_invariant (i : nat) (st : Loop) :
  loop_invariant st -> loop_invariant (iteration_body w i st).2.
Proof.
  intros Hinv. unfold iteration_body.
  destruct (continuation_loop_frame 5 "" (messages st)
              (set_iteration i (self st))) as [Hg _].
  fold (get_complete_response w (messages st) 5 (set_iteration i (self st)))
    in Hg.
  set (r := get_complete_response w (messages st) 5
              (set_iteration i (self st))) in *.
  assert (Hr : forall msgs,
             loop_invariant (mkLoop (r_self r) msgs (total_commands st)
                                    (failed_commands st)))
    by (intros msgs;
        apply (grows_api_calls_invariant st (set_iteration i (self st)));
        [reflexivity|exact Hg|exact Hinv]).
  cbv zeta.
  destruct (String.eqb (completion_status r) "error"); [apply Hr|].
  destruct (text r) as [content|]; [|apply Hr].
  destruct (json_loads w (clean_response content))
    as [|status reasoning commands|type_name]; [apply Hr| |apply Hr].
  destruct (String.eqb (default "continue" status) "complete"); [apply Hr|].
  destruct (String.eqb (default "continue" status) "blocked"); [apply Hr|].
  destruct (run_commands_invariant (default [] commands)
              (mkLoop (r_self r) (r_messages r) (total_commands st)
                      (failed_commands st)) [] (Hr _))
    as [(Heff & Htotal & Hfailed) _].
  destruct (run_commands w (default [] commands) _ []) as [st1 results].
  cbn [fst snd] in *.
  split; [|split]; cbn [self total_commands failed_commands emit effects].
  - rewrite forallb_app, Heff. reflexivity.
  - rewrite List.filter_app, length_app, <- Htotal. cbn. lia.
  - rewrite List.filter_app, length_app, <- Hfailed. cbn. lia.
Qed.

Lemma iterate_invariant (remaining : nat) :
  forall (i : nat) (st : Loop),
    loop_invariant st -> loop_invariant (iterate w remaining i st).
Proof.
  induction remaining as [|remaining IH]; intros i st Hinv;
    cbn [iterate]; [exact Hinv|].
  pose proof (iteration_body_invariant i st Hinv) as Hbody.
  destruct (iteration_body w i st) as [[|] st']; cbn [snd] in Hbody.
  - apply IH, Hbody.
  - exact Hbody.
Qed.

(** After the loop, in whatever way it ended, the finalization runs and
    runs once. *)
Lemma finalize_once (st : Loop) :
  loop_invariant st -> finalized_once w (finalize w st).
Proof.
  intros (Heff & Htotal & Hfailed). unfold finalize, finalized_once. cbv zeta.
  set (o := if Nat.leb MAX_ITERATIONS (iteration (self st))
               && negb (bool_decide (md_status (metadata (self st))
                                     = Some "complete"))
            then set_metadata (set_status "max_iterations"
                                          (metadata (self st))) (self st)
            else self st).
  assert (Ho : effects o = effects (self st))
    by (subst o; destruct (_ && _); reflexivity).
  exists (effects (self st)). eexists.
  cbn [final emit set_metadata effects metadata].
  rewrite Ho, <- !app_assoc. cbn [app].
  split; [reflexivity|]. split; [exact Heff|]. split; [reflexivity|].
  cbn [md_duration md_total_commands md_failed_commands md_deliverables].
  rewrite Htotal, Hfailed. repeat split.
Qed.

Lemma init_invariant (task : string) (msgs : list message) :
  loop_invariant (mkLoop (set_task task init) msgs 0 0).
Proof. split; [|split]; reflexivity. Qed.

Lemma run_task_finalized_once (task : string) :
  system_prompt w <> None -> finalized_once w (run_task w task).
Proof.
  intros Hprompt. unfold run_task.
  destruct (system_prompt w) as [prompt|]; [|contradiction].
  apply finalize_once, iterate_invariant, init_invariant.
Qed.

End AnyEngine.

End LoopFacts.

(** ** Orchestrator: sessions that never complete *)

Module SessionFacts.
Import Orchestrator Scenario OrchestratorFacts LoopFacts.

Lemma logged_iterations_app (a b : list effect) :
  logged_iterations (a ++ b) = (logged_iterations a ++ logged_iterations b)%list.
Proof.
  induction a as [|e a IH]; [reflexivity|].
  destruct e; cbn [app logged_iterations]; rewrite IH; reflexivity.
Qed.

Lemma grows_api_calls_logged (o o' : Orch) :
  grows is_api_call o o' ->
  logged_iterations (effects o') = logged_iterations (effects o).
Proof.
  intros [_ _ (added & -> & Hadded)].
  rewrite logged_iterations_app.
  assert (Hnone : logged_iterations added = []).
  { induction added as [|e added IH]; [reflexivity|].
    cbn in Hadded. apply andb_true_iff in Hadded as [He Hrest].
    destruct e; try discriminate He. cbn. exact (IH Hrest). }
  rewrite Hnone. apply app_nil_r.
Qed.

Lemma nudges_app (a b : list message) :
  nudges (a ++ b) = (nudges a + nudges b)%nat.
Proof. unfold nudges. rewrite List.filter_app, length_app. reflexivity. Qed.

Lemma nudges_continuation_prompts (frags : list string) :
  nudges (continuation_prompts frags) = 0%nat.
Proof. induction frags as [|f frags IH]; [reflexivity|exact IH]. Qed.

Section AnyEngine.

Variable w : Engine.

Lemma turn_response_frame (i : nat) (st : Loop) :
  iteration (r_self (turn_response w i st)) = i
  /\ metadata (r_self (turn_response w i st)) = metadata (self st)
  /\ logged_iterations (effects (r_self (turn_response w i st)))
     = logged_iterations (effects (self st))
  /\ nudges (r_messages (turn_response w i st)) = nudges (messages st).
Proof.
  destruct (continuation_loop_frame w 5 "" (messages st)
              (set_iteration i (self st))) as [Hg (frags & Hmsgs)].
  fold (get_complete_response w (messages st) 5 (set_iteration i (self st)))
    in Hg, Hmsgs.
  fold (turn_response w i st) in Hg, Hmsgs.
  split; [exact (grows_iteration _ _ _ Hg)|].
  split; [exact (grows_metadata _ _ _ Hg)|].
  split; [exact (grows_api_calls_logged _ _ Hg)|].
  rewrite Hmsgs, nudges_app, nudges_continuation_prompts. apply Nat.add_0_r.
Qed.

(** A turn that does not parse: the response and the nudge are appended
    to the conversation and the loop goes on; the object is as the engine
    call left it. *)
Lemma iteration_body_unparsed (i : nat) (st : Loop) (content : string) :
  classify_turn w (turn_response w i st) = TurnUnparsed content ->
  iteration_body w i st
  = (Continue,
     mkLoop (r_self (turn_response w i st))
            (r_messages (turn_response w i st)
             ++ [mkMessage "assistant" content;
                 mkMessage "user" invalid_json_nudge])%list
            (total_commands st) (failed_commands st)).
Proof.
  unfold classify_turn, iteration_body. fold (turn_response w i st). cbv zeta.
  destruct (String.eqb (completion_status (turn_response w i st)) "error");
    [discriminate|].
  destruct (text (turn_response w i st)) as [c|]; [|discriminate].
  destruct (json_loads w (clean_response c)); try discriminate.
  intros [= ->]. reflexivity.
Qed.

(** A turn that parses as [continue] with no command: the iteration is
    logged, the response and the empty feedback are appended, and the loop
    goes on. *)
Lemma iteration_body_idle (i : nat) (st : Loop) (content reasoning : string) :
  classify_turn w (turn_response w i st)
  = TurnAction content "continue" reasoning [] ->
  iteration_body w i st
  = (Continue,
     mkLoop (emit (IterationLogged i reasoning [] [])
                  (r_self (turn_response w i st)))
            (r_messages (turn_response w i st)
             ++ [mkMessage "assistant" content;
                 mkMessage "user" ("Command results:" ++ LF
                                   ++ json_dumps_feedback w i [])])%list
            (total_commands st) (failed_commands st)).
Proof.
  unfold classify_turn, iteration_body. fold (turn_response w i st). cbv zeta.
  destruct (String.eqb (completion_status (turn_response w i st)) "error");
    [discriminate|].
  destruct (text (turn_response w i st)) as [c|]; [|discriminate].
  destruct (json_loads w (clean_response c)) as [|status rs cs|];
    try discriminate.
  intros [= -> Hstatus -> Hcs]. rewrite Hstatus, Hcs. reflexivity.
Qed.

(** The loop on an engine whose turns never parse. *)
Lemma iterate_unparsed (remaining : nat) :
  unparsed_turns w ->
  forall (i : nat) (st : Loop),
    let st' := iterate w (S remaining) i st in
    iteration (self st') = (i + remaining)%nat
    /\ metadata (self st') = metadata (self st)
    /\ nudges (messages st') = (nudges (messages st) + S remaining)%nat
    /\ logged_iterations (effects (self st'))
       = logged_iterations (effects (self st))
    /\ total_commands st' = total_commands st
    /\ failed_commands st' = failed_commands st.
Proof.
  intros Hw. induction remaining as [|remaining IH]; intros i st; cbv zeta;
    destruct (Hw (messages st) (set_iteration i (self st))) as [content Hc];
    fold (turn_response w i st) in Hc;
    destruct (turn_response_frame i st) as (Hi & Hm & Hl & Hn);
    cbn [iterate]; rewrite (iteration_body_unparsed i st content Hc).
  - cbn [self messages total_commands failed_commands].
    rewrite nudges_app, Hn, Hi, Nat.add_0_r.
    repeat split; first [assumption | reflexivity | cbn; lia].
  - set (st1 := mkLoop _ _ _ _).
    destruct (IH (S i) st1) as (Hi' & Hm' & Hn' & Hl' & Ht' & Hf').
    cbn [iterate] in Hi', Hm', Hn', Hl', Ht', Hf'.
    rewrite Hi', Hm', Hn', Hl', Ht', Hf'. subst st1.
    cbn [self messages total_commands failed_commands].
    rewrite nudges_app, Hn.
    repeat split; first [assumption | reflexivity | cbn; lia].
Qed.

(** The loop on an engine whose turns are all idle. *)
Lemma iterate_idle (remaining : nat) :
  idle_turns w ->
  forall (i : nat) (st : Loop),
    let st' := iterate w (S remaining) i st in
    iteration (self st') = (i + remaining)%nat
    /\ metadata (self st') = metadata (self st)
    /\ logged_iterations (effects (self st'))
       = (logged_iterations (effects (self st)) ++ List.seq i (S remaining))%list
    /\ total_commands st' = total_commands st
    /\ failed_commands st' = failed_commands st.
Proof.
  intros Hw. induction remaining as [|remaining IH]; intros i st; cbv zeta;
    destruct (Hw (messages st) (set_iteration i (self st)))
      as (content & reasoning & Hc);
    fold (turn_response w i st) in Hc;
    destruct (turn_response_frame i st) as (Hi & Hm & Hl & _);
    cbn [iterate]; rewrite (iteration_body_idle i st content reasoning Hc).
  - cbn [self messages total_commands failed_commands emit iteration metadata
         effects].
    rewrite logged_iterations_app, Hl, Hi, Nat.add_0_r.
    repeat split; first [assumption | reflexivity | cbn; lia].
  - set (st1 := mkLoop _ _ _ _).
    destruct (IH (S i) st1) as (Hi' & Hm' & Hl' & Ht' & Hf').
    cbn [iterate] in Hi', Hm', Hl', Ht', Hf'.
    rewrite Hi', Hm', Hl', Ht', Hf'. subst st1.
    cbn [self messages total_commands failed_commands emit iteration metadata
         effects].
    rewrite logged_iterations_app, Hl, <- app_assoc.
    repeat split; first [assumption | reflexivity | cbn; lia].
Qed.

(** How a session ends when the loop has used all its iterations without
    any status being set. *)
Lemma finalize_exhausted (st : Loop) :
  iteration (self st) = MAX_ITERATIONS ->
  md_status (metadata (self st)) = None ->
  iteration (final (finalize w st)) = MAX_ITERATIONS
  /\ md_status (metadata (final (finalize w st))) = Some "max_iterations"
  /\ outcome (finalize w st)
     = Returned (mkSummary "max_iterations" (end_time w - start_time w)
                           MAX_ITERATIONS (workspace_files w))
  /\ conversation (finalize w st) = messages st
  /\ logged_iterations (effects (final (finalize w st)))
     = logged_iterations (effects (self st)).
Proof.
  intros Hi Hs. unfold finalize. cbv zeta. rewrite Hi, Hs.
  change (Nat.leb MAX_ITERATIONS MAX_ITERATIONS
          && negb (bool_decide (@None string = Some "complete"))) with true.
  cbv iota.
  cbn [final outcome conversation emit set_metadata set_status iteration
       metadata effects md_status].
  rewrite Hi. repeat split.
  rewrite !logged_iterations_app. cbn [logged_iterations].
  rewrite !app_nil_r. reflexivity.
Qed.

End AnyEngine.

End SessionFacts.

Module SessionClaims.
Import Orchestrator Scenario OrchestratorFacts LoopFacts SessionFacts.

Lemma idle_engine_idle : idle_turns idle_engine.
Proof.
  intros msgs o. exists idle_action, "thinking". vm_compute. reflexivity.
Qed.

Lemma prose_engine_unparsed : unparsed_turns prose_engine.
Proof.
  intros msgs o. exists "Sure, I will look into it.". vm_compute. reflexivity.
Qed.

(** C5.  When every engine turn parses as status [continue] with no
    command, the session runs the iterations 1 to [MAX_ITERATIONS] to
    their end and no more, its status is [max_iterations], and the
    finalization runs once, at the end: duration, command counts,
    deliverables, session record.  So it does on every engine, however the
    loop ends. *)
Theorem idle_session_reaches_max_iterations (w : Engine) (task : string) :
  system_prompt w <> None ->
  idle_turns w ->
  let s := run_task w task in
  iteration (final s) = MAX_ITERATIONS
  /\ logged_iterations (effects (final s)) = List.seq 1 MAX_ITERATIONS
  /\ md_status (metadata (final s)) = Some "max_iterations"
  /\ outcome s
     = Returned (mkSummary "max_iterations" (end_time w - start_time w)
                           MAX_ITERATIONS (workspace_files w))
  /\ finalized_once w s
  /\ (forall (w' : Engine) (task' : string),
        system_prompt w' <> None -> finalized_once w' (run_task w' task')).
Proof.
  intros Hprompt Hidle. cbv zeta.
  split; [|split; [|split; [|split; [|split]]]];
    try (apply run_task_finalized_once; exact Hprompt);
    try (intros w' task' Hp'; apply run_task_finalized_once; exact Hp').
  all: unfold run_task; destruct (system_prompt w) as [prompt|];
    [|contradiction].
  all: set (st0 := mkLoop (set_task task init) _ 0 0).
  all: change MAX_ITERATIONS with (S 9) at 1.
  all: destruct (iterate_idle w 9 Hidle 1 st0) as (Hi & Hm & Hl & _ & _).
  all: destruct (finalize_exhausted w (iterate w 10 1 st0))
         as (Hfi & Hfs & Hfo & _ & Hfl);
    [exact Hi|rewrite Hm; reflexivity|].
  - exact Hfi.
  - rewrite Hfl, Hl. reflexivity.
  - exact Hfs.
  - exact Hfo.
Qed.

Lemma idle_session_reaches_max_iterations_witness :
  let s := run_task idle_engine "tidy up" in
  iteration (final s) = 10%nat
  /\ logged_iterations (effects (final s)) = [1; 2; 3; 4; 5; 6; 7; 8; 9; 10]%nat
  /\ md_status (metadata (final s)) = Some "max_iterations"
  /\ outcome s = Returned (mkSummary "max_iterations" 42000000 10 ["report.txt"])
  /\ finalized_once idle_engine s.
Proof.
  destruct (idle_session_reaches_max_iterations idle_engine "tidy up")
    as (Hi & Hl & Hs & Ho & Hf & _).
  - discriminate.
  - exact idle_engine_idle.
  - cbv zeta. split; [exact Hi|]. split; [exact Hl|]. split; [exact Hs|].
    split; [exact Ho|exact Hf].
Defined.

(** C6, as the code has it.  A response that does not parse as JSON is
    answered by appending it and the message that asks for valid JSON to
    the conversation, and the loop goes on to its next iteration; this is
    done every time, with no limit of its own, and is never fatal: a
    session whose responses never parse uses up [MAX_ITERATIONS]
    iterations, each with its nudge, logs none of them, and ends with the
    status [max_iterations]. *)
Theorem invalid_json_nudged_every_time (w : Engine) (task : string) :
  (forall (i : nat) (st : Loop) (content : string),
      classify_turn w (turn_response w i st) = TurnUnparsed content ->
      iteration_body w i st
      = (Continue,
         mkLoop (r_self (turn_response w i st))
                (r_messages (turn_response w i st)
                 ++ [mkMessage "assistant" content;
                     mkMessage "user" invalid_json_nudge])%list
                (total_commands st) (failed_commands st)))
  /\ (system_prompt w <> None ->
      unparsed_turns w ->
      let s := run_task w task in
      iteration (final s) = MAX_ITERATIONS
      /\ nudges (conversation s) = MAX_ITERATIONS
      /\ logged_iterations (effects (final s)) = []
      /\ md_status (metadata (final s)) = Some "max_iterations"
      /\ outcome s
         = Returned (mkSummary "max_iterations" (end_time w - start_time w)
                               MAX_ITERATIONS (workspace_files w))).
Proof.
  split; [exact (iteration_body_unparsed w)|].
  intros Hprompt Hbad. cbv zeta. unfold run_task.
  destruct (system_prompt w) as [prompt|]; [|contradiction].
  set (st0 := mkLoop (set_task task init) _ 0 0).
  destruct (iterate_unparsed w 9 Hbad 1 st0) as (Hi & Hm & Hn & Hl & _ & _).
  change (iterate w 10 1 st0) with (iterate w MAX_ITERATIONS 1 st0)
    in Hi, Hm, Hn, Hl.
  set (st1 := iterate w MAX_ITERATIONS 1 st0) in *.
  destruct (finalize_exhausted w st1) as (Hfi & Hfs & Hfo & Hfc & Hfl);
    [exact Hi|rewrite Hm; reflexivity|].
  split; [exact Hfi|]. split; [rewrite Hfc, Hn; reflexivity|].
  split; [rewrite Hfl, Hl; reflexivity|]. split; [exact Hfs|exact Hfo].
Qed.

Lemma invalid_json_nudged_every_time_witness :
  let s := run_task prose_engine "tidy up" in
  iteration (final s) = 10%nat
  /\ nudges (conversation s) = 10%nat
  /\ md_status (metadata (final s)) = Some "max_iterations"
  /\ outcome s = Returned (mkSummary "max_iterations" 42000000 10 []).
Proof.
  destruct (invalid_json_nudged_every_time prose_engine "tidy up")
    as [_ H].
  destruct H as (Hi & Hn & _ & Hs & Ho).
  - discriminate.
  - exact prose_engine_unparsed.
  - cbv zeta. split; [exact Hi|]. split; [exact Hn|]. split; [exact Hs|exact Ho].
Defined.

(** C6 as stated fails: on an engine whose responses never parse, the
    second failure is not fatal.  The engine is called in each of the ten
    iterations and nudged ten times, and the session ends as any session
    that runs out of iterations. *)
Lemma invalid_json_counterexample :
  let s := run_task prose_engine "tidy up" in
  unparsed_turns prose_engine
  /\ api_call_count (final s) = 10%nat
  /\ nudges (conversation s) = 10%nat
  /\ outcome s = Returned (mkSummary "max_iterations" 42000000 10 []).
Proof.
  cbv zeta. split; [exact prose_engine_unparsed|].
  split; [|split]; vm_compute; reflexivity.
Qed.

(** A session that works: two commands in the first iteration, one of
    which fails, and completion in the second.  The record that is written
    has the counts, and the finalization has run once. *)
Example working_session :
  let s := run_task working_engine "take notes" in
  outcome s = Returned (mkSummary "complete" 3000000 2 ["notes.txt"])
  /\ List.filter is_finalization (effects (final s))
     = [ DeliverablesCopied ["notes.txt"];
         SessionWritten
           (mkMetadata (Some "take notes") (Some "complete") None
                       (Some 3000000) (Some 2%nat) (Some 1%nat)
                       (Some ["notes.txt"]));
         ReportWritten ]
  /\ List.filter is_command_run (effects (final s))
     = [ CommandRun 1 "ls" true; CommandRun 2 "false" false ].
Proof. vm_compute. repeat split. Qed.

End SessionClaims.

(** * Further properties of the tools *)

(** ** Strings *)

Module StrFacts.

Lemma startswith_nil (s : string) : startswith s "" = true.
Proof. destruct s; reflexivity. Qed.

Lemma startswith_split (s a b : string) :
  startswith s (a ++ b)
  = startswith s a && startswith (str_drop (String.length a) s) b.
Proof.
  revert s. induction a as [|x a IH]; intros s; [reflexivity|].
  destruct s as [|y s]; [reflexivity|].
  change (Ascii.eqb x y && startswith s (a ++ b)
          = Ascii.eqb x y && startswith s a
            && startswith (str_drop (String.length a) s) b).
  rewrite IH, andb_assoc. reflexivity.
Qed.

Lemma contains_here (s p : string) :
  startswith s p = true -> contains s p = true.
Proof. intros H. destruct s; cbn [contains]; rewrite H; reflexivity. Qed.

(** A string that holds [a ++ b] holds [a]. *)
Lemma contains_left (s a b : string) :
  contains s (a ++ b) = true -> contains s a = true.
Proof.
  induction s as [|c s IH]; cbn [contains]; rewrite startswith_split.
  - rewrite orb_false_r. intros H. apply andb_true_iff in H as [H _].
    rewrite H. reflexivity.
  - intros H. apply orb_true_iff in H as [H|H].
    + apply andb_true_iff in H as [H _]. rewrite H. reflexivity.
    + rewrite (IH H). apply orb_true_r.
Qed.

Lemma isspace_lower (c : ascii) : isspace c = true -> lower_char c = c.
Proof.
  destruct c as [[] [] [] [] [] [] [] []]; intros H;
    first [discriminate H | reflexivity].
Qed.

Lemma lower_blank (s : string) : all_chars isspace s = true -> lower s = s.
Proof.
  induction s as [|c s IH]; [reflexivity|]. cbn [all_chars lower].
  intros H. apply andb_true_iff in H as [Hc Hs].
  rewrite (isspace_lower c Hc), (IH Hs). reflexivity.
Qed.

(** White space holds no word that starts with another character. *)
Lemma blank_contains (s : string) (c : ascii) (w : string) :
  all_chars isspace s = true -> isspace c = false ->
  contains s (String c w) = false.
Proof.
  intros Hs Hc. induction s as [|x s IH]; [reflexivity|].
  cbn [all_chars] in Hs. apply andb_true_iff in Hs as [Hx Hs].
  cbn [contains startswith]. rewrite (IH Hs), orb_false_r.
  destruct (Ascii.eqb_spec c x) as [->|_]; [congruence|reflexivity].
Qed.

Lemma length_str_drop (n : nat) (s : string) :
  String.length (str_drop n s) = (String.length s - n)%nat.
Proof.
  revert s. induction n as [|n IH]; intros s; cbn [str_drop].
  - symmetry. apply Nat.sub_0_r.
  - destruct s as [|c s]; [reflexivity|]. cbn [String.length]. apply IH.
Qed.

Lemma str_take_drop (n : nat) (s : string) :
  str_take n s ++ str_drop n s = s.
Proof.
  revert s. induction n as [|n IH]; intros s; [reflexivity|].
  destruct s as [|c s]; [reflexivity|].
  change (String c (str_take n s ++ str_drop n s) = String c s).
  rewrite IH. reflexivity.
Qed.

(** [s[-n:]] is the end of [s] and has at most [n] characters. *)
Lemma last_chars_spec (n : nat) (s : string) :
  (String.length (last_chars n s) <= n)%nat
  /\ exists before, s = before ++ last_chars n s.
Proof.
  unfold last_chars. split.
  - rewrite length_str_drop. lia.
  - exists (str_take (String.length s - n) s). symmetry.
    apply str_take_drop.
Qed.

Lemma last_chars_length (n : nat) (s : string) :
  String.length (last_chars n s) = Nat.min n (String.length s).
Proof. unfold last_chars. rewrite length_str_drop. lia. Qed.

Lemma startswith_str_take (n : nat) (s p : string) :
  startswith (str_take n s) p = true -> startswith s p = true.
Proof.
  revert n s. induction p as [|x p IH]; intros n s; [reflexivity|].
  destruct n as [|n]; [discriminate|].
  destruct s as [|y s]; [discriminate|].
  cbn [str_take startswith]. intros H.
  apply andb_true_iff in H as [Hx H]. rewrite Hx. exact (IH n s H).
Qed.

End StrFacts.

(** ** The validator: metacharacters, patterns and absolute paths *)

Module ValidatorFacts.
Import StrFacts.

Lemma orb_absorb (a b : bool) : (b = true -> a = true) -> a || b = a.
Proof. destruct a, b; intros H; try reflexivity. symmetry. apply H. reflexivity. Qed.

Lemma search_from_lit (w t : string) (b : bool) :
  match Re.search_from (Re.Lit w) b t with Some _ => true | None => false end
  = contains t w.
Proof.
  revert b. induction t as [|c t IH]; intros b;
    cbn [Re.search_from Re.match_here Re.rmatch Re.rest contains].
  - destruct (startswith "" w); reflexivity.
  - destruct (startswith (String c t) w); [reflexivity|]. apply IH.
Qed.

(** A pattern that matches wherever the word [w] begins is found in every
    subject that holds [w]. *)
Lemma search_from_word (r : Re.regex) (w : string) :
  (forall b s, startswith s w = true -> Re.match_here r b s <> None) ->
  forall t b, contains t w = true -> Re.search_from r b t <> None.
Proof.
  intros Hr. induction t as [|c t IH]; intros b; cbn [contains Re.search_from].
  - rewrite orb_false_r. intros H. specialize (Hr b "" H).
    destruct (Re.match_here r b ""); [discriminate|contradiction].
  - intros H. destruct (Re.match_here r b (String c t)) eqn:E; [discriminate|].
    apply orb_true_iff in H as [H|H]; [destruct (Hr b _ H E)|].
    apply IH, H.
Qed.

Lemma search_word (r : Re.regex) (w t : string) :
  (forall b s, startswith s w = true -> Re.match_here r b s <> None) ->
  contains t w = true -> Re.search r t = true.
Proof.
  intros Hr H. unfold Re.search.
  pose proof (search_from_word r w Hr t true H).
  destruct (Re.search_from r true t); [reflexivity|contradiction].
Qed.

Lemma system_files_at (name : string) :
  In name ["passwd"; "shadow"; "sudoers"] ->
  forall b s, startswith s ("/etc/" ++ name) = true ->
              Re.match_here Patterns.system_files b s <> None.
Proof.
  intros Hname b s H. rewrite startswith_split in H.
  apply andb_true_iff in H as [H1 H2].
  unfold Re.match_here, Patterns.system_files.
  cbn [Re.rmatch Re.rest Re.advance]. rewrite H1.
  change (String.length "/etc/") with 5%nat in *.
  destruct Hname as [<-|[<-|[<-|[]]]]; rewrite ?H2;
    repeat match goal with
           | |- context [if ?c then _ else _] => destruct c
           end; discriminate.
Qed.

Lemma first_dangerous_found (r : Re.regex) (reason t : string) :
  In (r, reason) dangerous_patterns -> Re.search r t = true ->
  first_dangerous t <> None.
Proof.
  intros Hin Hs. unfold first_dangerous.
  destruct (find (fun pr => Re.search pr.1 t) dangerous_patterns)
    as [[r' reason']|] eqn:E; [discriminate|].
  pose proof (find_none _ _ E (r, reason) Hin) as Hnone.
  cbn in Hnone. congruence.
Qed.

(** The words that two of the dangerous patterns look for. *)
Lemma dangerous_word (t : string) :
  existsb (contains t) ["mkfs"; "/etc/passwd"; "/etc/shadow"; "/etc/sudoers"]
  = true ->
  first_dangerous t <> None.
Proof.
  cbn [existsb]. rewrite orb_false_r, !orb_true_iff.
  intros [H|[H|[H|H]]].
  - apply (first_dangerous_found Patterns.mkfs "Filesystem creation");
      [cbn; auto 10|].
    unfold Re.search, Patterns.mkfs.
    pose proof (search_from_lit "mkfs" t true) as E. rewrite H in E.
    destruct (Re.search_from (Re.Lit "mkfs") true t); [reflexivity|discriminate].
  - apply (first_dangerous_found Patterns.system_files
             "Modifying critical system files"); [cbn; auto 10|].
    apply (search_word _ "/etc/passwd"); [|exact H].
    apply (system_files_at "passwd"). cbn. auto.
  - apply (first_dangerous_found Patterns.system_files
             "Modifying critical system files"); [cbn; auto 10|].
    apply (search_word _ "/etc/shadow"); [|exact H].
    apply (system_files_at "shadow"). cbn. auto.
  - apply (first_dangerous_found Patterns.system_files
             "Modifying critical system files"); [cbn; auto 10|].
    apply (search_word _ "/etc/sudoers"); [|exact H].
    apply (system_files_at "sudoers"). cbn. auto.
Qed.

(** A blank command holds none of these words. *)
Lemma dangerous_word_not_blank (cmd : string) :
  existsb (contains (lower cmd))
          ["mkfs"; "/etc/passwd"; "/etc/shadow"; "/etc/sudoers"] = true ->
  (String.eqb cmd "" || String.eqb (strip cmd) "") = false.
Proof.
  intros H.
  assert (Hb : all_chars isspace cmd = false).
  { destruct (all_chars isspace cmd) eqn:E; [|reflexivity].
    rewrite (lower_blank cmd E) in H. cbn [existsb] in H.
    rewrite !(blank_contains cmd _ _ E) in H by reflexivity.
    discriminate H. }
  destruct (String.eqb (strip cmd) "") eqn:E.
  - apply String.eqb_eq, strip_empty_iff in E. congruence.
  - rewrite orb_false_r. destruct (String.eqb_spec cmd ""); [|reflexivity].
    subst cmd. discriminate Hb.
Qed.

End ValidatorFacts.

Section Validator.

Variable os : OS.
Variable fs : Fs.filesystem.

(** X1.  [_has_shell_syntax] holds exactly of the commands that contain one
    of [|], [>], [<], [&], [;], a backquote or [$(]: the two-character
    entries [>>], [<<], [&&] and [||] of [SHELL_METACHARACTERS] add
    nothing. *)
Theorem has_shell_syntax_characters (command : string) :
  _has_shell_syntax command
  = existsb (fun meta => contains command meta)
            ["|"; ">"; "<"; "&"; ";"; "$("; "`"].
Proof.
  unfold _has_shell_syntax, SHELL_METACHARACTERS. cbn [existsb].
  assert (H1 : contains command ">>" = true -> contains command ">" = true)
    by exact (StrFacts.contains_left command ">" ">").
  assert (H2 : contains command "<<" = true -> contains command "<" = true)
    by exact (StrFacts.contains_left command "<" "<").
  assert (H3 : contains command "&&" = true -> contains command "&" = true)
    by exact (StrFacts.contains_left command "&" "&").
  assert (H4 : contains command "||" = true -> contains command "|" = true)
    by exact (StrFacts.contains_left command "|" "|").
  destruct (contains command ">>"); [rewrite H1 by reflexivity|];
    (destruct (contains command "<<") ; [rewrite H2 by reflexivity|]);
    (destruct (contains command "&&") ; [rewrite H3 by reflexivity|]);
    (destruct (contains command "||") ; [rewrite H4 by reflexivity|]);
    repeat match goal with
           | |- context [contains command ?m] => destruct (contains command m)
           end; reflexivity.
Qed.

(** X2.  A command whose lowered text holds [mkfs], [/etc/passwd],
    [/etc/shadow] or [/etc/sudoers] anywhere, be it in an argument, a file
    name or a quoted string, is refused by [run_shell] with return code
    126; no process is started and the file system is left alone. *)
Theorem dangerous_word_never_runs (cmd : string) (cwd : option string)
    (timeout : Z) :
  existsb (fun w => contains (lower cmd) w)
          ["mkfs"; "/etc/passwd"; "/etc/shadow"; "/etc/sudoers"] = true ->
  let run := run_shell os cmd cwd timeout fs in
  (exists r, value run = Ok r /\ is_blocked cmd r)
  /\ no_spawn run
  /\ fs_after run = fs.
Proof.
  intros H. cbv zeta. unfold run_shell.
  rewrite (ValidatorFacts.dangerous_word_not_blank cmd H).
  unfold _validate_command_safety.
  pose proof (ValidatorFacts.dangerous_word (lower cmd) H) as Hd.
  destruct (first_dangerous (lower cmd)) as [reason|]; [|contradiction].
  cbn [value trace fs_after].
  split; [|split; reflexivity].
  eexists. split; [reflexivity|].
  unfold is_blocked. cbn [returncode stdout command stderr].
  split; [reflexivity|]. split; [reflexivity|]. split; [reflexivity|].
  apply (startswith_app "BLOCKED:" (" Blocked: " ++ reason)).
Qed.

End Validator.

Lemma dangerous_word_never_runs_witness :
  let run := run_shell quiet_os "echo 'MKFS is a word'" None 60 bare_workspace in
  (exists r, value run = Ok r /\ is_blocked "echo 'MKFS is a word'" r)
  /\ no_spawn run
  /\ fs_after run = bare_workspace.
Proof.
  apply (dangerous_word_never_runs quiet_os bare_workspace
           "echo 'MKFS is a word'" None 60).
  vm_compute. reflexivity.
Defined.

(** ** The validator: the rule on absolute paths *)

Module PathRuleFacts.
Import StrFacts Re.

(** A match is what the continuation returns. *)
Lemma rmatch_continues (r : regex) :
  forall (p : pos) (k : pos -> option pos) (q : pos),
    rmatch r p k = Some q -> exists p', k p' = Some q.
Proof.
  induction r as [|f|s| |r1 IH1 r2 IH2|r1 IH1 r2 IH2|r IH|r IH|r IH];
    intros p k q; cbn [rmatch].
  - intros H. exists p. exact H.
  - destruct (rest p) as [|c s]; [discriminate|].
    destruct (f c); [|discriminate]. intros H. eexists. exact H.
  - destruct (startswith (rest p) s); [|discriminate].
    intros H. eexists. exact H.
  - destruct (at_start p); [|discriminate]. intros H. exists p. exact H.
  - intros H. apply IH1 in H as [p1 H]. exact (IH2 _ _ _ H).
  - destruct (rmatch r1 p k) as [q1|] eqn:E.
    + intros [= <-]. exact (IH1 _ _ _ E).
    + apply IH2.
  - assert (Hloop : forall n p1,
              (fix loop (n : nat) (p : pos) {struct n} : option pos :=
                 match n with
                 | O => k p
                 | S n' =>
                     match rmatch r p
                             (fun p' => if Nat.ltb 0 (consumed p p')
                                        then loop n' p' else None) with
                     | Some q => Some q
                     | None => k p
                     end
                 end) n p1 = Some q -> exists p', k p' = Some q).
    { induction n as [|n IHn]; intros p1; [intros H; exists p1; exact H|].
      match goal with
      | |- context [rmatch r p1 ?k'] => destruct (rmatch r p1 k') as [q1|] eqn:E
      end.
      - intros [= <-]. apply IH in E as [p2 E].
        destruct (Nat.ltb 0 (consumed p1 p2)); [|discriminate].
        exact (IHn p2 E).
      - intros H. exists p1. exact H. }
    intros H. exact (Hloop (S (String.length (rest p))) p H).
  - destruct (rmatch r p Some); [discriminate|]. intros H. exists p. exact H.
  - intros H. apply IH in H as [p1 H]. eexists. exact H.
Qed.

Lemma not_allowed_prefix (s w : string) (n : nat) :
  startswith (str_drop 1 s) w = false ->
  startswith (str_take n s) (String "/" w) = false.
Proof.
  intros H. destruct (startswith (str_take n s) (String "/" w)) eqn:E;
    [|reflexivity].
  apply startswith_str_take in E. destruct s as [|c s]; [discriminate E|].
  cbn [startswith] in E. apply andb_true_iff in E as [_ E].
  cbn [str_drop] in H. congruence.
Qed.

(** The group of [outside_path] never holds a path under [/usr/], [/bin/],
    [/lib/] or the workspace: the lookahead of the pattern has excluded
    them. *)
Lemma outside_path_capture (b : bool) (s : string) (q : pos) :
  match_here Patterns.outside_path b s = Some q ->
  exists m, cap q = Some m /\ refused m.
Proof.
  unfold match_here, Patterns.outside_path.
  generalize (Alt Bol space) as A, (Plus nonspace) as R. intros A R H.
  cbn [rmatch] in H. apply (rmatch_continues A) in H as [p1 H].
  cbv beta in H.
  destruct (startswith (rest p1) "/") eqn:Hslash; [|discriminate H].
  cbn [rest advance] in H.
  destruct (startswith (str_drop (String.length "/") (rest p1)) "usr/") eqn:E1;
    [discriminate H|].
  destruct (startswith (str_drop (String.length "/") (rest p1)) "bin/") eqn:E2;
    [discriminate H|].
  destruct (startswith (str_drop (String.length "/") (rest p1)) "lib/") eqn:E3;
    [discriminate H|].
  destruct (startswith (str_drop (String.length "/") (rest p1))
                       "opt/coding-agent/workspace") eqn:E4;
    [discriminate H|].
  apply (rmatch_continues R) in H as [p3 H]. cbv beta in H.
  injection H as <-. cbn [cap]. eexists. split; [reflexivity|].
  change (String.length "/") with 1%nat in *.
  split; [|cbn [existsb]].
  - exact (not_allowed_prefix _ _ _ E4).
  - rewrite (not_allowed_prefix _ "usr/" _ E1),
      (not_allowed_prefix _ "bin/" _ E2), (not_allowed_prefix _ "lib/" _ E3).
    reflexivity.
Qed.

Lemma search_from_match (r : regex) (s : string) :
  forall b s0 p, search_from r b s = Some (s0, p) ->
                 exists b', match_here r b' s0 = Some p.
Proof.
  induction s as [|c s IH]; intros b s0 p; cbn [search_from].
  - destruct (match_here r b "") eqn:E; [|discriminate].
    intros [= <- <-]. exists b. exact E.
  - destruct (match_here r b (String c s)) eqn:E.
    + intros [= <- <-]. exists b. exact E.
    + apply IH.
Qed.

Lemma findall_from_refused (fuel : nat) :
  forall b s, Forall refused (findall_from fuel Patterns.outside_path b s).
Proof.
  induction fuel as [|fuel IH]; intros b s; cbn [findall_from];
    [constructor|].
  destruct (search_from Patterns.outside_path b s) as [[s0 p]|] eqn:E;
    [|constructor].
  apply search_from_match in E as [b' E].
  apply outside_path_capture in E as (m & -> & Hm).
  destruct (Nat.ltb (String.length (rest p)) (String.length s0)).
  - constructor; [exact Hm|apply IH].
  - constructor; [exact Hm|]. destruct s0; [constructor|apply IH].
Qed.

Lemma check_matches_refused (l : list string) :
  Forall refused l ->
  check_matches l
  = match l with
    | [] => Ok tt
    | m :: _ => Raise (ValueError ("Absolute path outside workspace: " ++ m))
    end.
Proof.
  intros [|m l' [Hw Hp] _]; [reflexivity|].
  cbn [check_matches]. rewrite Hw, Hp. reflexivity.
Qed.

End PathRuleFacts.

(** X3.  The rule on absolute paths of [_validate_command_safety] lets a
    command pass only if its pattern finds no match at all: every match
    starts with none of [/usr/], [/bin/], [/lib/] and the workspace path,
    so the test on these prefixes inside the loop never keeps a match, and
    the first match is the one the [ValueError] names. *)
Theorem absolute_path_rule (command : string) :
  Forall (fun m => startswith m WORKSPACE_str = false
                   /\ existsb (fun p => startswith m p)
                              ["/usr/"; "/bin/"; "/lib/"] = false)
         (Re.findall Patterns.outside_path command)
  /\ check_file_patterns file_patterns command
     = match Re.findall Patterns.outside_path command with
       | [] => Ok tt
       | m :: _ => Raise (ValueError ("Absolute path outside workspace: " ++ m))
       end.
Proof.
  pose proof (PathRuleFacts.findall_from_refused
                (S (String.length command)) true command) as H.
  fold (Re.findall Patterns.outside_path command) in H.
  split; [exact H|].
  unfold file_patterns. cbn [check_file_patterns].
  rewrite (PathRuleFacts.check_matches_refused _ H).
  destruct (Re.findall Patterns.outside_path command); reflexivity.
Qed.

(** An executable named by its directory alone, a path under [/opt], and
    an executable under [/usr/]. *)
Example absolute_path_rule_cases :
  List.map _validate_command_safety
           ["ls /usr"; "cat /opt/data.txt"; "/usr/bin/env true"; "ls /bin/"]
  = [ Raise (ValueError "Absolute path outside workspace: /usr");
      Raise (ValueError "Absolute path outside workspace: /opt/data.txt");
      Ok tt; Ok tt ].
Proof. vm_compute. reflexivity. Qed.

(** ** [run_shell] and [run_python]: what is started, returned and raised *)

Module ToolFacts.
Import StrFacts.

Lemma blank_iff (cmd : string) :
  (String.eqb cmd "" || String.eqb (strip cmd) "") = all_chars isspace cmd.
Proof.
  destruct (all_chars isspace cmd) eqn:E.
  - rewrite (strip_blank cmd E). apply orb_true_r.
  - destruct (String.eqb_spec (strip cmd) "") as [Hs|_].
    + apply strip_empty_iff in Hs. congruence.
    + rewrite orb_false_r. destruct (String.eqb_spec cmd ""); [|reflexivity].
      subst cmd. discriminate E.
Qed.

Lemma lex_raises (s : string) :
  forall st token e, Shlex.lex st token s = Raise e -> exists m, e = ValueError m.
Proof.
  induction s as [|c s IH]; intros st token e; cbn [Shlex.lex].
  - destruct st; intros [= <-]; eexists; reflexivity.
  - destruct st;
      repeat match goal with
             | |- context [if ?b then _ else _] => destruct b
             end;
      try apply IH.
    destruct (Shlex.lex Shlex.InSpace "" s) as [tokens|e'] eqn:E;
      [rewrite bind_ok; discriminate|rewrite bind_raise].
    intros [= <-]. exact (IH _ _ _ E).
Qed.

Lemma extract_binary_raises (cmd : string) (e : exn) :
  _extract_binary cmd = Raise e -> exists m, e = ValueError m.
Proof.
  unfold _extract_binary.
  destruct (negb (_has_shell_syntax _)).
  - destruct (Shlex.split _) as [parts|e'] eqn:E;
      [rewrite bind_ok; destruct parts; discriminate|rewrite bind_raise].
    intros [= <-]. exact (lex_raises _ _ _ _ E).
  - rewrite bind_ok. destruct (split_ws _); discriminate.
Qed.

Lemma check_matches_raises (l : list string) (e : exn) :
  check_matches l = Raise e -> exists m, e = ValueError m.
Proof.
  induction l as [|x l IH]; cbn [check_matches]; [discriminate|].
  destruct (_ && _); [|exact IH]. intros [= <-]. eexists. reflexivity.
Qed.

(** The validator raises [ValueError] and nothing else. *)
Lemma validate_raises (cmd : string) (e : exn) :
  _validate_command_safety cmd = Raise e -> exists m, e = ValueError m.
Proof.
  unfold _validate_command_safety.
  destruct (first_dangerous (lower cmd)) as [reason|];
    [intros [= <-]; eexists; reflexivity|].
  destruct (_extract_binary cmd) as [binary|e'] eqn:E;
    [rewrite bind_ok|rewrite bind_raise].
  - destruct (bool_decide (binary ∈ BLOCKED_BINARIES));
      [intros [= <-]; eexists; reflexivity|].
    unfold file_patterns. cbn [check_file_patterns].
    destruct (check_matches _) as [[]|e'] eqn:Em;
      [rewrite bind_ok; discriminate|rewrite bind_raise].
    intros [= <-]. exact (check_matches_raises _ _ Em).
  - intros [= <-]. exact (extract_binary_raises cmd e' E).
Qed.

Lemma safe_cwd_ok (cwd : option string) (p : Fs.path) :
  _safe_cwd cwd = Ok p -> confined p.
Proof.
  unfold _safe_cwd. destruct cwd as [[|c s]|].
  - intros [= <-]. exists []. reflexivity.
  - destruct (Fs.resolve_in_workspace (String c s)) as [p'|e];
      [rewrite bind_ok|rewrite bind_raise; discriminate].
    rewrite guard_inside. destruct (Fs.inside_workspace p') eqn:Hin;
      [|discriminate].
    intros [= <-]. apply inside_workspace_spec, Hin.
  - intros [= <-]. exists []. reflexivity.
Qed.

(** The requests [execute_checked] hands to [subprocess.run]. *)
Lemma execute_checked_request (os : OS) (cmd : string) (p : Fs.path) (t : Z)
    (fs : Fs.filesystem) (req : SpawnRequest) :
  In (SpawnCall req) (execute_checked os cmd p t fs).2 ->
  (execute_checked os cmd p t fs).2 = [SpawnCall req]
  /\ sp_cwd req = Fs.path_str p /\ sp_timeout req = t
  /\ sp_shell req = _has_shell_syntax cmd
  /\ (if _has_shell_syntax cmd
      then sp_args req = [cmd] /\ sp_env req = Some (shell_env p)
           /\ sp_executable req = Some "/bin/bash"
      else Shlex.split cmd = Ok (sp_args req) /\ sp_env req = None
           /\ sp_executable req = None).
Proof.
  unfold execute_checked.
  destruct (_has_shell_syntax cmd).
  - rewrite (surjective_pairing (subprocess_run os _ fs)).
    cbn [snd fst]. intros [[= <-]|[]]. cbn. auto 10.
  - destruct (Shlex.split cmd) as [args|e]; [rewrite bind_ok|intros []].
    rewrite (surjective_pairing (subprocess_run os _ fs)).
    cbn [snd fst]. intros [[= <-]|[]]. cbn. auto 10.
Qed.

(** What [execute_checked] returns when the process ends by itself. *)
Lemma execute_checked_completed (os : OS) (cmd : string) (p : Fs.path) (t : Z)
    (fs fs' : Fs.filesystem) (req : SpawnRequest) (rc : Z) (out err : string) :
  In (SpawnCall req) (execute_checked os cmd p t fs).2 ->
  subprocess_run os req fs = (Completed rc out err, fs') ->
  execute_checked os cmd p t fs
  = (mkShellResult rc (tail_output out) (tail_output err) cmd
                   (Some (Fs.path_str p)) (Some (_has_shell_syntax cmd)),
     fs', [SpawnCall req]).
Proof.
  unfold execute_checked.
  destruct (_has_shell_syntax cmd).
  - destruct (subprocess_run os _ fs) as [o f] eqn:E.
    cbn [snd fst]. intros [[= <-]|[]]. rewrite E. intros [= -> ->].
    reflexivity.
  - destruct (Shlex.split cmd) as [args|e]; [rewrite bind_ok|intros []].
    destruct (subprocess_run os _ fs) as [o f] eqn:E.
    cbn [snd fst]. intros [[= <-]|[]]. rewrite E. intros [= -> ->].
    reflexivity.
Qed.

End ToolFacts.

Section Execution.

Variable os : OS.
Variable fs : Fs.filesystem.

(** X4.  Every process [run_shell] starts is one the checks have passed:
    the validator has accepted the command, the working directory handed
    to [subprocess.run] is the workspace root or lies below it, and the
    time limit is between 1 and 600 seconds.  The process is started
    through [/bin/bash] with the restricted environment exactly when the
    command holds shell syntax, and otherwise from the [shlex] tokens of
    the command without a shell; one call starts at most one process. *)
Theorem run_shell_spawn_checked (cmd : string) (cwd : option string)
    (timeout : Z) (req : SpawnRequest) :
  In (SpawnCall req) (trace (run_shell os cmd cwd timeout fs)) ->
  _validate_command_safety cmd = Ok tt
  /\ (exists p, _safe_cwd cwd = Ok p /\ confined p
                /\ sp_cwd req = Fs.path_str p
                /\ (if _has_shell_syntax cmd
                    then sp_args req = [cmd]
                         /\ sp_env req = Some (shell_env p)
                         /\ sp_executable req = Some "/bin/bash"
                    else Shlex.split cmd = Ok (sp_args req)
                         /\ sp_env req = None /\ sp_executable req = None))
  /\ 1 <= sp_timeout req <= 600
  /\ sp_shell req = _has_shell_syntax cmd
  /\ List.filter is_spawn (trace (run_shell os cmd cwd timeout fs))
     = [SpawnCall req].
Proof.
  unfold run_shell.
  destruct (String.eqb cmd "" || String.eqb (strip cmd) ""); [intros []|].
  destruct (_validate_command_safety cmd) as [[]|[]];
    try (cbn; intros [[=]|[]]).
  destruct (_safe_cwd cwd) as [p|e] eqn:Hcwd; [|cbn; intros [[=]|[]]].
  pose proof (ToolFacts.execute_checked_request
                os cmd p (clamp_timeout timeout) fs req) as H.
  destruct (execute_checked os cmd p (clamp_timeout timeout) fs)
    as [[r fs'] calls].
  cbn [trace snd] in *. intros [[=]|Hin].
  destruct (H Hin) as (-> & Hc & Ht & Hs & Hargs).
  split; [reflexivity|]. split.
  - exists p. split; [reflexivity|].
    split; [exact (ToolFacts.safe_cwd_ok cwd p Hcwd)|].
    split; [exact Hc|exact Hargs].
  - split; [rewrite Ht; apply clamp_timeout_range|].
    split; [exact Hs|reflexivity].
Qed.

(** X5.  When the process [run_shell] has started ends by itself, the
    result carries its return code, the working directory and the
    execution mode, and of its standard output and standard error exactly
    the last 8000 characters: the whole text when it has no more than
    8000 characters, its end of 8000 characters otherwise; the file system
    is the one the process has left. *)
Theorem run_shell_completed (cmd : string) (dir : option string)
    (timeout : Z) (req : SpawnRequest) (rc : Z) (out err : string)
    (fs' : Fs.filesystem) :
  In (SpawnCall req) (trace (run_shell os cmd dir timeout fs)) ->
  subprocess_run os req fs = (Completed rc out err, fs') ->
  exists r,
    value (run_shell os cmd dir timeout fs) = Ok r
    /\ fs_after (run_shell os cmd dir timeout fs) = fs'
    /\ returncode r = rc /\ command r = cmd
    /\ cwd r = Some (sp_cwd req)
    /\ shell_mode r = Some (_has_shell_syntax cmd)
    /\ Z.of_nat (String.length (stdout r))
       = Z.min (Z.of_nat (String.length out)) 8000
    /\ (exists before, out = before ++ stdout r)
    /\ Z.of_nat (String.length (stderr r))
       = Z.min (Z.of_nat (String.length err)) 8000
    /\ (exists before, err = before ++ stderr r).
Proof.
  unfold run_shell.
  destruct (String.eqb cmd "" || String.eqb (strip cmd) ""); [intros []|].
  destruct (_validate_command_safety cmd) as [[]|[]];
    try (cbn; intros [[=]|[]]).
  destruct (_safe_cwd dir) as [p|e] eqn:Hcwd; [|cbn; intros [[=]|[]]].
  pose proof (ToolFacts.execute_checked_request
                os cmd p (clamp_timeout timeout) fs req) as Hreq.
  pose proof (ToolFacts.execute_checked_completed
                os cmd p (clamp_timeout timeout) fs fs' req rc out err) as H.
  destruct (execute_checked os cmd p (clamp_timeout timeout) fs)
    as [[r f] calls].
  cbn [trace snd value fs_after] in *. intros [[=]|Hin] Hrun.
  specialize (H Hin Hrun). injection H as -> -> ->.
  destruct (Hreq Hin) as (_ & Hc & _).
  eexists. split; [reflexivity|]. cbn.
  split; [reflexivity|]. split; [reflexivity|]. split; [reflexivity|].
  split; [rewrite Hc; reflexivity|]. split; [reflexivity|].
  destruct (StrFacts.last_chars_spec (Z.to_nat 8000) out) as [Ho1 Ho2].
  destruct (StrFacts.last_chars_spec (Z.to_nat 8000) err) as [He1 He2].
  pose proof (StrFacts.last_chars_length (Z.to_nat 8000) out) as Ho3.
  pose proof (StrFacts.last_chars_length (Z.to_nat 8000) err) as He3.
  unfold tail_output.
  split; [lia|]. split; [exact Ho2|]. split; [lia|exact He2].
Qed.

(** X6.  [run_shell] raises in one case only: the command is not blank,
    the validator accepts it, and [_safe_cwd] raises on the working
    directory.  What leaves [run_shell] is the exception [_safe_cwd] has
    raised, whichever it is; no process has been started and the file
    system is as it was.  An exception of the validator never leaves
    [run_shell]. *)
Theorem run_shell_raises_iff (cmd : string) (cwd : option string)
    (timeout : Z) (e : exn) :
  value (run_shell os cmd cwd timeout fs) = Raise e
  <-> all_chars isspace cmd = false
      /\ _validate_command_safety cmd = Ok tt
      /\ _safe_cwd cwd = Raise e
      /\ no_spawn (run_shell os cmd cwd timeout fs)
      /\ fs_after (run_shell os cmd cwd timeout fs) = fs.
Proof.
  unfold run_shell, no_spawn. rewrite ToolFacts.blank_iff.
  destruct (all_chars isspace cmd).
  { cbn [value]. split; [discriminate|]. intros [H _]. discriminate H. }
  destruct (_validate_command_safety cmd) as [[]|e'] eqn:Hv.
  - destruct (_safe_cwd cwd) as [p|e'] eqn:Hcwd.
    + destruct (execute_checked os cmd p (clamp_timeout timeout) fs)
        as [[r f] calls].
      cbn [value]. split; [discriminate|]. intros (_ & _ & H & _).
      discriminate H.
    + cbn [value trace fs_after]. split.
      * intros [= ->]. split; [reflexivity|]. split; [reflexivity|].
        split; [reflexivity|]. split; reflexivity.
      * intros (_ & _ & [= ->] & _). reflexivity.
  - destruct (ToolFacts.validate_raises cmd e' Hv) as [m ->].
    cbn [value]. split; [discriminate|]. intros (_ & H & _). discriminate H.
Qed.

End Execution.

Lemma run_shell_spawn_checked_witness :
  _validate_command_safety "ls -la | wc -l" = Ok tt
  /\ sp_cwd (mkSpawn ["ls -la | wc -l"] true "/opt/coding-agent/workspace/out"
                     60 (Some (shell_env (Fs.WORKSPACE ++ ["out"])%list))
                     (Some "/bin/bash"))
     = "/opt/coding-agent/workspace/out".
Proof.
  destruct (run_shell_spawn_checked quiet_os bare_workspace "ls -la | wc -l"
              (Some "out") 60
              (mkSpawn ["ls -la | wc -l"] true
                       "/opt/coding-agent/workspace/out" 60
                       (Some (shell_env (Fs.WORKSPACE ++ ["out"])%list))
                       (Some "/bin/bash")))
    as (Hv & _).
  - vm_compute. right. left. reflexivity.
  - split; [exact Hv|reflexivity].
Defined.

Lemma run_shell_completed_witness :
  exists r,
    value (run_shell quiet_os "echo hi" None 60 bare_workspace) = Ok r
    /\ returncode r = 0 /\ shell_mode r = Some false.
Proof.
  destruct (run_shell_completed quiet_os bare_workspace "echo hi" None 60
              (mkSpawn ["echo"; "hi"] false WORKSPACE_str 60 None None)
              0 "" "" bare_workspace)
    as (r & Hr & _ & Hrc & _ & _ & Hm & _).
  - vm_compute. right. left. reflexivity.
  - reflexivity.
  - exists r. split; [exact Hr|]. split; [exact Hrc|exact Hm].
Defined.

Lemma run_shell_raises_iff_witness :
  _safe_cwd (Some "/tmp") = Raise (ValueError "cwd must be inside workspace")
  /\ no_spawn (run_shell quiet_os "pwd" (Some "/tmp") 60 bare_workspace).
Proof.
  destruct (proj1 (run_shell_raises_iff quiet_os bare_workspace "pwd"
                     (Some "/tmp") 60
                     (ValueError "cwd must be inside workspace")))
    as (_ & _ & H & Hn & _).
  - vm_compute. reflexivity.
  - split; [exact H|exact Hn].
Defined.

(** ** [run_python]: the file that is run *)

Module PythonFacts.
Import Fs.


End PythonFacts.

Section Python.

Variable os : OS.
Variable fs : Fs.filesystem.

(** X7.  Every process [run_python] starts is [python3] on one file, from
    the workspace root, without a shell and with a time limit between 1
    and 600 seconds.  The file lies strictly below the workspace root (the
    root itself is refused) and, when the process starts, holds exactly
    the UTF-8 encoding of the code; no other entry of the file system has
    been touched, and one call starts one process at most. *)
Theorem run_python_spawn_checked (code : Utf8.text) (filename : string)
    (timeout : Z) (req : SpawnRequest) :
  In (SpawnCall req) (trace (run_python os code filename timeout fs)) ->
  exists p data fs1,
    Fs.resolve_in_workspace filename = Ok p
    /\ (exists rel, rel <> [] /\ p = (Fs.WORKSPACE ++ rel)%list)
    /\ Utf8.encode code = Ok data
    /\ req = mkSpawn ["python3"; Fs.path_str p] false WORKSPACE_str
                     (clamp_timeout timeout) None None
    /\ 1 <= sp_timeout req <= 600
    /\ Fs.stat fs1 p = Ok (Fs.File data)
    /\ (forall q, q <> p -> fs1 !! q = fs !! q)
    /\ fs_after (run_python os code filename timeout fs)
       = (subprocess_run os req fs1).2
    /\ List.filter is_spawn (trace (run_python os code filename timeout fs))
       = [SpawnCall req].
Proof.
  unfold run_python.
  destruct (Fs.resolve_in_workspace filename) as [p|e]; [|intros []].
  destruct (Fs.workspace_in_parents p) eqn:Hin; [|intros []].
  simpl negb. cbv iota.
  destruct (Fs.write_text fs p code) as [[[]|e] fs1] eqn:Hw; [|intros []].
  destruct (FsFacts.stat_after_write_text fs fs1 p code Hw)
    as (data & Henc & Hstat).
  destruct (FsFacts.write_text_ok fs fs1 p code Hw)
    as (_ & _ & data' & Henc' & Hfs1).
  intros Hreq. exists p, data, fs1.
  assert (Hr : req = mkSpawn ["python3"; Fs.path_str p] false WORKSPACE_str
                             (clamp_timeout timeout) None None
               /\ List.filter is_spawn
                    (trace (let '(outcome, fs2) :=
                              subprocess_run os
                                (mkSpawn ["python3"; Fs.path_str p] false
                                         WORKSPACE_str (clamp_timeout timeout)
                                         None None) fs1 in
                            match outcome with
                            | Completed rc out err =>
                                mkRun (Ok (mkPythonResult rc (tail_output out)
                                             (tail_output err) (Fs.path_str p)))
                                      fs2
                                      [SpawnCall
                                         (mkSpawn ["python3"; Fs.path_str p]
                                            false WORKSPACE_str
                                            (clamp_timeout timeout) None None)]
                            | TimeoutExpired =>
                                mkRun (Ok (mkPythonResult 124 ""
                                             ("Python execution timed out after "
                                              ++ str_of_Z (clamp_timeout timeout)
                                              ++ "s") (Fs.path_str p)))
                                      fs2
                                      [SpawnCall
                                         (mkSpawn ["python3"; Fs.path_str p]
                                            false WORKSPACE_str
                                            (clamp_timeout timeout) None None)]
                            | SpawnFailed e =>
                                mkRun (Ok (mkPythonResult 127 ""
                                             ("Error: " ++ exn_str e)
                                             (Fs.path_str p)))
                                      fs2
                                      [SpawnCall
                                         (mkSpawn ["python3"; Fs.path_str p]
                                            false WORKSPACE_str
                                            (clamp_timeout timeout) None None)]
                            end))
                 = [SpawnCall req]).
  { destruct (subprocess_run os _ fs1) as [[rc out err| |e] fs2];
      cbn [trace] in Hreq |- *; destruct Hreq as [[= <-]|[]];
      split; reflexivity. }
  destruct Hr as [-> Hone].
  split; [reflexivity|].
  split; [apply workspace_in_parents_spec, Hin|].
  split; [exact Henc|]. split; [reflexivity|].
  split; [apply clamp_timeout_range|].
  split; [exact Hstat|]. split.
  - intros q Hq. rewrite Hfs1. apply lookup_insert_ne. congruence.
  - split; [|exact Hone].
    destruct (subprocess_run os _ fs1) as [[rc out err| |e] fs2]; reflexivity.
Qed.


End Python.

Lemma run_python_spawn_checked_witness :
  exists p, Fs.resolve_in_workspace "job.py" = Ok p
            /\ p = (Fs.WORKSPACE ++ ["job.py"])%list.
Proof.
  destruct (run_python_spawn_checked quiet_os bare_workspace
              (text_of "print(1)") "job.py" 60
              (mkSpawn ["python3"; "/opt/coding-agent/workspace/job.py"] false
                       WORKSPACE_str 60 None None))
    as (p & data & fs1 & Hp & _).
  - vm_compute. left. reflexivity.
  - exists p. split; [exact Hp|].
    vm_compute in Hp. injection Hp as <-. reflexivity.
Defined.


(** ** The codec: lengths *)

Module CodecFacts.
Import Utf8.

(** Decoding never yields more code points than there are bytes. *)
Lemma decode_replace_length (n : nat) :
  forall bs, (List.length bs <= n)%nat ->
             (List.length (decode_replace bs) <= List.length bs)%nat.
Proof.
  induction n as [|n IH]; intros [|b0 r0] Hn; try (cbn; lia).
  { cbn in Hn. lia. }
  cbn [decode_replace]. assert (H0 := IH r0).
  destruct (b0 <? 0x80); [cbn [List.length] in *; lia|].
  destruct (_ || _); [cbn [List.length] in *; lia|].
  destruct r0 as [|b1 r1]; [cbn; lia|]. assert (H1 := IH r1).
  destruct (b0 <? 0xE0).
  { destruct (is_continuation b1); cbn [List.length] in *; lia. }
  destruct (negb (second_ok b0 b1)); [cbn [List.length] in *; lia|].
  destruct r1 as [|b2 r2]; [cbn; lia|]. assert (H2 := IH r2).
  destruct (negb (is_continuation b2)); [cbn [List.length] in *; lia|].
  destruct (b0 <? 0xF0); [cbn [List.length] in *; lia|].
  destruct r2 as [|b3 r3]; [cbn; lia|]. assert (H3 := IH r3).
  destruct (negb (is_continuation b3)); cbn [List.length] in *; lia.
Qed.

Lemma encode_code_point_length (c : Z) :
  (1 <= List.length (encode_code_point c) <= 4)%nat.
Proof.
  unfold encode_code_point.
  destruct (c <? 0x80); [cbn; lia|]. destruct (c <? 0x800); [cbn; lia|].
  destruct (c <? 0x10000); cbn; lia.
Qed.

(** Every code point takes one to four bytes. *)
Lemma encode_from_length (t : text) :
  forall i data, encode_from i t = Ok data ->
                 (List.length t <= List.length data <= 4 * List.length t)%nat.
Proof.
  induction t as [|c t IH]; intros i data; cbn [encode_from].
  - intros [= <-]. cbn. lia.
  - destruct (is_surrogate c); [discriminate|].
    destruct (encode_from (S i) t) as [bs|e] eqn:E;
      [rewrite bind_ok|rewrite bind_raise; discriminate].
    intros [= <-]. specialize (IH _ _ E).
    pose proof (encode_code_point_length c).
    rewrite length_app. cbn [List.length]. lia.
Qed.

Lemma slice_to_length (max_bytes : Z) (data : bytes) :
  0 <= max_bytes -> Z.of_nat (List.length (slice_to max_bytes data)) <= max_bytes.
Proof.
  intros H. unfold slice_to. destruct (Z.leb_spec 0 max_bytes); [|lia].
  rewrite length_firstn. lia.
Qed.

End CodecFacts.

(** X9.  The content [read_file] returns has at most [max_bytes]
    characters, for a limit that is not negative: the file is cut to
    [max_bytes] bytes before it is decoded, and decoding with replacement
    never yields more characters than bytes. *)
Theorem read_file_content_bounded (fs : Fs.filesystem) (path : string)
    (max_bytes : Z) (q : string) (c : Utf8.text) :
  0 <= max_bytes ->
  read_file fs path max_bytes = ReadContent q c ->
  Z.of_nat (List.length c) <= max_bytes.
Proof.
  intros Hm H.
  destruct (read_file_content fs path max_bytes q c H)
    as (p & data & _ & _ & _ & _ & ->).
  pose proof (CodecFacts.slice_to_length max_bytes data Hm).
  pose proof (CodecFacts.decode_replace_length _ (slice_to max_bytes data)
                (le_n _)).
  lia.
Qed.

(** X10.  The byte count a successful [write_file] reports lies between
    the number of characters of the content and four times that number. *)
Theorem write_file_bytes_bounds (fs fs' : Fs.filesystem) (path : string)
    (content : Utf8.text) (q : string) (n : Z) :
  write_file fs path content = (WriteDone q n, fs') ->
  Z.of_nat (List.length content) <= n <= 4 * Z.of_nat (List.length content).
Proof.
  intros H.
  destruct (write_file_done fs path content q n fs' H)
    as (p & data & fs1 & _ & _ & _ & Henc & -> & _).
  pose proof (CodecFacts.encode_from_length content 0%nat data Henc). lia.
Qed.

(** ** [write_file]: other files, overwriting, directories *)

Module WriteFacts.
Import Fs.

(** The walk depends on the entries along its way only. *)
Lemma stat_from_agree (fs fs' : filesystem) (full : path) (todo : list string) :
  forall cur,
    (forall q, q `prefix_of` todo -> fs' !! (cur ++ q)%list = fs !! (cur ++ q)%list) ->
    stat_from fs' cur todo full = stat_from fs cur todo full.
Proof.
  induction todo as [|c todo IH]; intros cur H; cbn [stat_from].
  - specialize (H [] (prefix_nil _)). rewrite app_nil_r in H. rewrite H.
    reflexivity.
  - pose proof (H [] (prefix_nil _)) as H0. rewrite app_nil_r in H0.
    rewrite H0. destruct (fs !! cur) as [[|data]|]; try reflexivity.
    apply IH. intros q Hq. rewrite <- !app_assoc. apply (H (c :: q)).
    apply prefix_cons, Hq.
Qed.

(** What the walk has passed are directories. *)
Lemma stat_from_dirs (fs : filesystem) (full : path) (todo : list string) :
  forall cur n,
    stat_from fs cur todo full = Ok n ->
    forall q, q `prefix_of` todo -> q <> todo ->
              fs !! (cur ++ q)%list = Some Dir.
Proof.
  induction todo as [|c todo IH]; intros cur n; cbn [stat_from].
  - intros _ q Hq Hne. apply prefix_nil_inv in Hq. contradiction.
  - destruct (fs !! cur) as [[|data]|] eqn:E; try discriminate.
    intros H q Hq Hne. destruct q as [|c' q].
    + rewrite app_nil_r. exact E.
    + apply prefix_cons_inv_1 in Hq as Hc. subst c'.
      apply prefix_cons_inv_2 in Hq.
      replace (cur ++ c :: q)%list with ((cur ++ [c]) ++ q)%list
        by (rewrite <- app_assoc; reflexivity).
      apply (IH _ n H q Hq). congruence.
Qed.

(** Where the walk ends. *)
Lemma stat_from_end (fs : filesystem) (full : path) (todo : list string) :
  forall cur n,
    stat_from fs cur todo full = Ok n -> fs !! (cur ++ todo)%list = Some n.
Proof.
  induction todo as [|c todo IH]; intros cur n; cbn [stat_from].
  - rewrite app_nil_r. destruct (fs !! cur); [|discriminate].
    intros [= <-]. reflexivity.
  - destruct (fs !! cur) as [[|data]|]; try discriminate.
    intros H. apply IH in H. rewrite <- app_assoc in H. exact H.
Qed.

(** The walk to a prefix of a path that is reached. *)
Lemma stat_from_prefix (fs : filesystem) (full full' : path)
    (todo rest : list string) :
  forall cur n,
    stat_from fs cur (todo ++ rest)%list full = Ok n -> rest <> [] ->
    stat_from fs cur todo full' = Ok Dir.
Proof.
  induction todo as [|c todo IH]; intros cur n; cbn [stat_from app].
  - destruct rest as [|r rest]; [contradiction|]. cbn [stat_from].
    destruct (fs !! cur) as [[|data]|]; try discriminate. reflexivity.
  - destruct (fs !! cur) as [[|data]|]; try discriminate. apply IH.
Qed.

Lemma stat_parent_of (fs : filesystem) (p : path) (n : node) :
  stat fs p = Ok n -> p <> [] -> stat_parent fs p = Ok tt.
Proof.
  intros H Hne. unfold stat_parent, stat in *.
  rewrite (FsFacts.path_parent_last p Hne) in H at 1.
  rewrite (stat_from_prefix fs p p (parent p) [List.last p ""] [] n H);
    [reflexivity|discriminate].
Qed.

(** Making a directory that is there changes nothing. *)
Lemma mkdir_existing (fs : filesystem) (d : path) (n : nat) :
  is_dir fs d = true -> mkdir_parents n fs d = Ok fs.
Proof.
  intros Hd.
  assert (Hos : exists e, os_mkdir fs d = Raise e /\ is_file_not_found e = false).
  { unfold os_mkdir. destruct d as [|c d]; [eexists; split; reflexivity|].
    unfold is_dir in Hd.
    destruct (stat fs (c :: d)) as [[|data]|e] eqn:E; try discriminate.
    rewrite (stat_parent_of fs (c :: d) Dir E) by discriminate.
    rewrite bind_ok. apply stat_from_end in E. cbn [app] in E. rewrite E.
    eexists. split; reflexivity. }
  destruct Hos as (e & He & Hnf).
  destruct n; cbn [mkdir_parents]; rewrite He, Hnf, Hd; reflexivity.
Qed.

Lemma parent_is_dir (fs : filesystem) (p : path) (n : node) :
  stat fs p = Ok n -> p <> [] -> is_dir fs (parent p) = true.
Proof.
  intros H Hne. unfold is_dir, stat in *.
  rewrite (FsFacts.path_parent_last p Hne) in H at 1.
  rewrite (stat_from_prefix fs p (parent p) (parent p) [List.last p ""] [] n H);
    [reflexivity|discriminate].
Qed.

(** [write_text] on a file that is there. *)
Lemma write_text_existing (fs : filesystem) (p : path) (old : Utf8.bytes)
    (content : Utf8.text) :
  stat fs p = Ok (File old) -> p <> [] ->
  write_text fs p content
  = match Utf8.encode content with
    | Ok data => (Ok tt, <[p := File data]> fs)
    | Raise e => (Raise e, <[p := File []]> fs)
    end.
Proof.
  intros H Hne. unfold write_text. destruct p as [|c p]; [contradiction|].
  rewrite (stat_parent_of fs (c :: p) _ H) by discriminate.
  pose proof (stat_from_end fs _ _ _ _ H) as E. cbn [app] in E. rewrite E.
  destruct (Utf8.encode content); [|reflexivity].
  rewrite insert_insert_eq. reflexivity.
Qed.

(** The entry of a file that is there, replaced. *)
Lemma stat_replaced (fs : filesystem) (p : path) (n n' : node) :
  stat fs p = Ok n -> p <> [] -> stat (<[p := n']> fs) p = Ok n'.
Proof.
  intros H Hne. pose proof (stat_parent_of fs p n H Hne) as Hpar.
  apply FsFacts.stat_parent_ok in Hpar.
  pose proof (FsFacts.stat_from_inserted fs n' (List.last p "") p p
                (parent p) [] Hpar) as Hs.
  cbn [app] in Hs. rewrite <- (FsFacts.path_parent_last p Hne) in Hs. exact Hs.
Qed.

(** [write_file] on a file that is there. *)
Lemma write_file_existing (fs : filesystem) (path : string) (p : Fs.path)
    (old : Utf8.bytes) (content : Utf8.text) :
  resolve_in_workspace path = Ok p -> inside_workspace p = true ->
  stat fs p = Ok (File old) ->
  write_file fs path content
  = match Utf8.encode content with
    | Ok data => (WriteDone (path_str p) (Z.of_nat (List.length data)),
                  <[p := File data]> fs)
    | Raise e => (WriteError path (exn_str e), <[p := File []]> fs)
    end.
Proof.
  intros Hp Hin Hs. unfold write_file. rewrite Hp, guard_inside, Hin.
  simpl negb. cbv iota.
  assert (Hne : p <> []).
  { intros ->. apply inside_workspace_spec in Hin as [rel Hrel].
    discriminate Hrel. }
  unfold mkdir.
  rewrite (mkdir_existing fs (parent p) _ (parent_is_dir fs p _ Hs Hne)).
  rewrite (write_text_existing fs p old content Hs Hne).
  destruct (Utf8.encode content); reflexivity.
Qed.

(** Reading a file that is there. *)
Lemma read_file_existing (fs : filesystem) (path : string) (p : Fs.path)
    (data : Utf8.bytes) (max_bytes : Z) :
  resolve_in_workspace path = Ok p -> inside_workspace p = true ->
  stat fs p = Ok (File data) ->
  read_file fs path max_bytes
  = ReadContent (path_str p) (Utf8.decode_replace (slice_to max_bytes data)).
Proof.
  intros Hp Hin Hs. unfold read_file.
  rewrite Hp, bind_ok, guard_inside, Hin.
  unfold exists_, is_file, read_bytes. rewrite Hs, bind_ok. reflexivity.
Qed.

(** What a successful [write_file] leaves at its path. *)
Lemma write_file_stat (fs fs' : filesystem) (path : string)
    (content : Utf8.text) (q : string) (n : Z) :
  write_file fs path content = (WriteDone q n, fs') ->
  exists p data,
    resolve_in_workspace path = Ok p /\ inside_workspace p = true
    /\ q = path_str p /\ Utf8.encode content = Ok data
    /\ n = Z.of_nat (List.length data)
    /\ stat fs' p = Ok (File data).
Proof.
  intros H.
  destruct (write_file_done fs path content q n fs' H)
    as (p & data & fs1 & Hp & Hin & Hq & Henc & Hn & _ & Hwt).
  destruct (FsFacts.stat_after_write_text fs1 fs' p content Hwt)
    as (data' & Henc' & Hstat).
  rewrite Henc in Henc'. injection Henc' as <-.
  exists p, data. auto 10.
Qed.

End WriteFacts.

Module WriteFrame.
Import Fs.

Lemma write_text_on_dir (fs fs' : filesystem) (p : path) (content : Utf8.text)
    (r : result unit) :
  write_text fs p content = (r, fs') -> fs !! p = Some Dir -> fs' = fs.
Proof.
  unfold write_text. intros H Hd. destruct p as [|c p];
    [injection H as _ <-; reflexivity|].
  destruct (stat_parent fs (c :: p)) as [[]|e];
    [|injection H as _ <-; reflexivity].
  rewrite Hd in H. injection H as _ <-. reflexivity.
Qed.

(** What [write_file] may change: entries that were missing, and the
    entry of its own path unless a directory is there. *)
Lemma write_file_changes (fs fs' : filesystem) (path : string)
    (content : Utf8.text) (r : WriteResult) :
  write_file fs path content = (r, fs') ->
  forall q, fs' !! q <> fs !! q ->
            fs !! q = None
            \/ (resolve_in_workspace path = Ok q /\ fs !! q <> Some Dir).
Proof.
  unfold write_file.
  destruct (resolve_in_workspace path) as [p|e];
    [|intros [= _ <-] q Hq; contradiction].
  destruct (_ && _); [intros [= _ <-] q Hq; contradiction|].
  destruct (Fs.mkdir fs (parent p)) as [fs1|e] eqn:Hmk;
    [|intros [= _ <-] q Hq; contradiction].
  destruct (write_text fs1 p content) as [w fs2] eqn:Hwt.
  assert (Hfs : fs' = fs2 ->
                forall q, fs' !! q <> fs !! q ->
                          fs !! q = None \/ (Ok p = Ok q /\ fs !! q <> Some Dir)).
  { intros -> q Hq.
    destruct (decide (fs1 !! q = fs !! q)) as [Heq|Hdiff].
    - rewrite <- Heq in Hq.
      rewrite (FrameFacts.write_text_changes fs1 fs2 p content w Hwt q Hq) in *.
      right. split; [reflexivity|]. intros Hd. rewrite <- Heq in Hd.
      rewrite (write_text_on_dir fs1 fs2 p content w Hwt Hd) in Hq.
      contradiction.
    - left.
      exact (proj1 (FrameFacts.mkdir_parents_changes _ fs fs1 (parent p)
                      Hmk q Hdiff)). }
  destruct w as [[]|e]; [|intros [= _ <-]; apply Hfs; reflexivity].
  destruct (Utf8.encode content); intros [= _ <-]; apply Hfs; reflexivity.
Qed.

End WriteFrame.

Section Writes.

Variable fs : Fs.filesystem.

(** X11.  A call of [write_file], whether it succeeds or fails, leaves
    every file readable under another resolved path as it was:
    [read_file] returns the same content afterwards. *)
Theorem write_file_keeps_other_files (path other : string)
    (content : Utf8.text) (r : WriteResult) (fs' : Fs.filesystem)
    (max_bytes : Z) (q : string) (c : Utf8.text) :
  write_file fs path content = (r, fs') ->
  Fs.resolve_in_workspace path <> Fs.resolve_in_workspace other ->
  read_file fs other max_bytes = ReadContent q c ->
  read_file fs' other max_bytes = ReadContent q c.
Proof.
  intros Hw Hne Hr.
  destruct (read_file_content fs other max_bytes q c Hr)
    as (p & data & Hp & Hin & -> & Hdata & ->).
  assert (Hs : Fs.stat fs p = Ok (Fs.File data)).
  { unfold Fs.read_bytes in Hdata.
    destruct (Fs.stat fs p) as [[|d]|e]; try discriminate Hdata.
    rewrite bind_ok in Hdata. injection Hdata as ->. reflexivity. }
  apply (WriteFacts.read_file_existing fs' other p data max_bytes Hp Hin).
  rewrite <- Hs. unfold Fs.stat. apply WriteFacts.stat_from_agree.
  intros k Hk. cbn [app].
  destruct (decide (fs' !! k = fs !! k)) as [Heq|Hdiff]; [exact Heq|].
  exfalso.
  destruct (WriteFrame.write_file_changes fs fs' path content r Hw k Hdiff)
    as [Hnone|[Hpk Hnd]].
  - exact (FrameFacts.stat_from_present fs p p [] _ Hs k Hk Hnone).
  - destruct (decide (k = p)) as [->|Hkp]; [congruence|].
    exact (Hnd (WriteFacts.stat_from_dirs fs p p [] _ Hs k Hk Hkp)).
Qed.

(** X12.  A path that [write_file] has written can be written again: the
    second call succeeds with the same path, it changes no other entry of
    the file system, and [read_file] then returns the second content, not
    the first nor the two together. *)
Theorem write_file_overwrites (path : string) (first second : Utf8.text)
    (q : string) (n : Z) (fs1 : Fs.filesystem) (data : Utf8.bytes) :
  write_file fs path first = (WriteDone q n, fs1) ->
  Utf8.encode second = Ok data ->
  exists fs2,
    write_file fs1 path second
    = (WriteDone q (Z.of_nat (List.length data)), fs2)
    /\ (forall k, fs2 !! k <> fs1 !! k -> Fs.resolve_in_workspace path = Ok k)
    /\ (forall max_bytes,
          Forall Utf8.valid_code_point second ->
          Z.of_nat (List.length data) <= max_bytes ->
          read_file fs2 path max_bytes = ReadContent q second).
Proof.
  intros Hw Henc.
  destruct (WriteFacts.write_file_stat fs fs1 path first q n Hw)
    as (p & data1 & Hp & Hin & -> & _ & _ & Hs).
  assert (Hne : p <> []).
  { intros ->. apply inside_workspace_spec in Hin as [rel Hrel].
    discriminate Hrel. }
  rewrite (WriteFacts.write_file_existing fs1 path p data1 second Hp Hin Hs).
  rewrite Henc. eexists. split; [reflexivity|]. split.
  - intros k Hk. destruct (decide (p = k)) as [<-|Hpk]; [exact Hp|].
    rewrite lookup_insert_ne in Hk by exact Hpk. contradiction.
  - intros max_bytes Hvalid Hmax.
    rewrite (WriteFacts.read_file_existing _ path p data max_bytes Hp Hin
               (WriteFacts.stat_replaced fs1 p _ _ Hs Hne)).
    rewrite (slice_to_all max_bytes data Hmax).
    rewrite (Utf8Facts.decode_encode second data Hvalid Henc). reflexivity.
Qed.

(** X13.  A write that fails in the encoder has already emptied the file:
    when a path that [write_file] has written is written again with a
    content that cannot be encoded, the call reports the error and
    [read_file] then returns the empty content; what the file held is
    lost. *)
Theorem write_file_failure_truncates (path : string) (first second : Utf8.text)
    (q : string) (n : Z) (fs1 : Fs.filesystem) (e : exn) :
  write_file fs path first = (WriteDone q n, fs1) ->
  Utf8.encode second = Raise e ->
  exists fs2,
    write_file fs1 path second = (WriteError path (exn_str e), fs2)
    /\ forall max_bytes, read_file fs2 path max_bytes = ReadContent q [].
Proof.
  intros Hw Henc.
  destruct (WriteFacts.write_file_stat fs fs1 path first q n Hw)
    as (p & data1 & Hp & Hin & -> & _ & _ & Hs).
  assert (Hne : p <> []).
  { intros ->. apply inside_workspace_spec in Hin as [rel Hrel].
    discriminate Hrel. }
  rewrite (WriteFacts.write_file_existing fs1 path p data1 second Hp Hin Hs).
  rewrite Henc. eexists. split; [reflexivity|].
  intros max_bytes.
  rewrite (WriteFacts.read_file_existing _ path p [] max_bytes Hp Hin
             (WriteFacts.stat_replaced fs1 p _ _ Hs Hne)).
  unfold slice_to. destruct (0 <=? max_bytes); rewrite firstn_nil; reflexivity.
Qed.

(** X14.  [write_file] is idempotent: repeating a successful call returns
    the same result and leaves the file system exactly as the first call
    left it. *)
Theorem write_file_idempotent (path : string) (content : Utf8.text)
    (q : string) (n : Z) (fs1 : Fs.filesystem) :
  write_file fs path content = (WriteDone q n, fs1) ->
  write_file fs1 path content = (WriteDone q n, fs1).
Proof.
  intros Hw.
  destruct (WriteFacts.write_file_stat fs fs1 path content q n Hw)
    as (p & data & Hp & Hin & -> & Henc & -> & Hs).
  rewrite (WriteFacts.write_file_existing fs1 path p data content Hp Hin Hs).
  rewrite Henc. f_equal. apply insert_id.
  exact (WriteFacts.stat_from_end fs1 p p [] _ Hs).
Qed.

(** X15.  A path that names a directory of the workspace, the root
    included: [write_file] reports the [IsADirectoryError] of the
    operating system, whose text ends with the [repr] of the resolved
    path, and changes nothing, and [read_file] reports [not_a_file]. *)
Theorem directory_is_no_file (path : string) (p : Fs.path)
    (content : Utf8.text) (max_bytes : Z) :
  Fs.resolve_in_workspace path = Ok p ->
  Fs.inside_workspace p = true ->
  Fs.is_dir fs p = true ->
  write_file fs path content
  = (WriteError path
       ("[Errno 21] Is a directory: " ++ PyRepr.repr (Fs.path_str p)), fs)
  /\ read_file fs path max_bytes = ReadError (Fs.path_str p) "not_a_file".
Proof.
  intros Hp Hin Hd.
  assert (Hs : Fs.stat fs p = Ok Fs.Dir).
  { unfold Fs.is_dir in Hd.
    destruct (Fs.stat fs p) as [[|d]|e]; try discriminate Hd. reflexivity. }
  assert (Hne : p <> []).
  { intros ->. apply inside_workspace_spec in Hin as [rel Hrel].
    discriminate Hrel. }
  split.
  - unfold write_file. rewrite Hp, guard_inside, Hin. simpl negb. cbv iota.
    unfold Fs.mkdir.
    rewrite (WriteFacts.mkdir_existing fs (Fs.parent p) _
               (WriteFacts.parent_is_dir fs p _ Hs Hne)).
    unfold Fs.write_text. destruct p as [|c p]; [contradiction|].
    rewrite (WriteFacts.stat_parent_of fs (c :: p) _ Hs Hne).
    pose proof (WriteFacts.stat_from_end fs _ _ _ _ Hs) as E.
    cbn [app] in E. rewrite E. reflexivity.
  - unfold read_file. rewrite Hp, bind_ok, guard_inside, Hin.
    unfold Fs.exists_, Fs.is_file. rewrite Hs. reflexivity.
Qed.

End Writes.

(** ** [write_file]: a new file below missing directories *)

Module CreateFacts.
Import Fs.

Lemma stat_from_full (fs : filesystem) (full full' : path) (todo : list string) :
  forall cur n, stat_from fs cur todo full = Ok n ->
                stat_from fs cur todo full' = Ok n.
Proof.
  induction todo as [|c todo IH]; intros cur n; cbn [stat_from];
    destruct (fs !! cur) as [[|data]|]; try discriminate; try (intros H; exact H).
  apply IH.
Qed.

Lemma is_dir_stat (fs : filesystem) (d full : path) :
  is_dir fs d = true -> stat_from fs [] d full = Ok Dir.
Proof.
  unfold is_dir, stat. intros H.
  destruct (stat_from fs [] d d) as [[|data]|e] eqn:E; try discriminate H.
  exact (stat_from_full fs d full d [] Dir E).
Qed.

Lemma stat_is_dir (fs : filesystem) (d full : path) :
  stat_from fs [] d full = Ok Dir -> is_dir fs d = true.
Proof.
  intros H. unfold is_dir, stat.
  rewrite (stat_from_full fs full d d [] Dir H). reflexivity.
Qed.

Lemma is_dir_prefix (fs : filesystem) (a d : path) :
  is_dir fs d = true -> a `prefix_of` d -> is_dir fs a = true.
Proof.
  intros Hd [rest ->]. destruct rest as [|r rest];
    [rewrite app_nil_r in Hd; exact Hd|].
  apply (stat_is_dir fs a a).
  apply (WriteFacts.stat_from_prefix fs (a ++ r :: rest)%list a a (r :: rest)
           [] Dir); [|discriminate].
  apply is_dir_stat, Hd.
Qed.

(** The walk stops where an entry is missing. *)
Lemma stat_from_missing (fs : filesystem) (full : path) (c : string)
    (rest have : list string) :
  forall cur,
    stat_from fs cur have full = Ok Dir ->
    fs !! (cur ++ have ++ [c])%list = None ->
    stat_from fs cur (have ++ c :: rest)%list full
    = Raise (FileNotFoundError (path_str full)).
Proof.
  induction have as [|h have IH]; intros cur; cbn [stat_from app].
  - destruct (fs !! cur) as [[|data]|]; try discriminate. intros _ Hnone.
    destruct rest; cbn [stat_from]; rewrite Hnone; reflexivity.
  - destruct (fs !! cur) as [[|data]|]; try discriminate. intros H Hnone.
    apply IH; [exact H|]. rewrite <- app_assoc. exact Hnone.
Qed.

Lemma os_mkdir_new (fs : filesystem) (d : path) :
  d <> [] -> is_dir fs (parent d) = true -> fs !! d = None ->
  os_mkdir fs d = Ok (<[d := Dir]> fs).
Proof.
  intros Hne Hpar Hnone. unfold os_mkdir, stat_parent.
  destruct d as [|c d]; [contradiction|].
  rewrite (is_dir_stat fs _ (c :: d) Hpar), !bind_ok, Hnone. reflexivity.
Qed.

Lemma is_dir_inserted (fs : filesystem) (d : path) :
  d <> [] -> is_dir fs (parent d) = true -> is_dir (<[d := Dir]> fs) d = true.
Proof.
  intros Hne Hpar. apply (stat_is_dir _ d d).
  pose proof (FsFacts.stat_from_inserted fs Dir (List.last d "") d d
                (parent d) [] (is_dir_stat fs _ d Hpar)) as Hs.
  cbn [app] in Hs. rewrite <- (FsFacts.path_parent_last d Hne) in Hs. exact Hs.
Qed.

(** [mkdir(parents=True)] below a directory that is there, where nothing
    is in its way, creates the missing directories and nothing else. *)
Lemma mkdir_new (fs : filesystem) (have : path) :
  is_dir fs have = true ->
  forall (miss : list string) (n : nat),
    (List.length miss <= n)%nat ->
    (forall m, m `prefix_of` miss -> m <> [] -> fs !! (have ++ m)%list = None) ->
    exists fs',
      mkdir_parents n fs (have ++ miss)%list = Ok fs'
      /\ is_dir fs' (have ++ miss)%list = true
      /\ (forall k, fs' !! k <> fs !! k ->
                    exists m, m <> [] /\ m `prefix_of` miss
                              /\ k = (have ++ m)%list).
Proof.
  intros Hhave miss. induction miss as [|c ms IH] using rev_ind;
    intros n Hn Habsent.
  - rewrite app_nil_r. exists fs.
    split; [apply WriteFacts.mkdir_existing, Hhave|].
    split; [exact Hhave|]. intros k Hk. contradiction.
  - assert (Hd : (have ++ ms ++ [c])%list <> [])
      by (intros H; apply app_eq_nil in H as [_ H];
          apply app_eq_nil in H as [_ H]; discriminate H).
    assert (Hpar : parent (have ++ ms ++ [c])%list = (have ++ ms)%list)
      by (unfold parent; rewrite app_assoc; apply removelast_last).
    assert (Hnone : fs !! (have ++ ms ++ [c])%list = None)
      by (apply Habsent; [reflexivity|intros H; apply app_eq_nil in H as [_ H];
                                      discriminate H]).
    destruct ms as [|c0 ms'].
    + cbn [app] in *.
      assert (Hos : os_mkdir fs (have ++ [c])%list
                    = Ok (<[(have ++ [c])%list := Dir]> fs)).
      { apply os_mkdir_new; [exact Hd| |exact Hnone].
        rewrite Hpar, app_nil_r. exact Hhave. }
      exists (<[(have ++ [c])%list := Dir]> fs). split; [|split].
      * destruct n; cbn [mkdir_parents]; rewrite Hos; reflexivity.
      * apply is_dir_inserted; [exact Hd|].
        rewrite Hpar, app_nil_r. exact Hhave.
      * intros k Hk. exists [c]. split; [discriminate|].
        split; [reflexivity|].
        destruct (decide ((have ++ [c])%list = k)) as [<-|Hne]; [reflexivity|].
        rewrite lookup_insert_ne in Hk by exact Hne. contradiction.
    + assert (Hos : os_mkdir fs (have ++ (c0 :: ms') ++ [c])%list
                    = Raise (FileNotFoundError
                               (path_str (have ++ (c0 :: ms') ++ [c])%list))).
      { unfold os_mkdir, stat_parent. rewrite Hpar.
        destruct (have ++ (c0 :: ms') ++ [c])%list as [|x d] eqn:Ed;
          [contradiction|].
        rewrite (stat_from_missing fs (x :: d) c0 ms' have []
                   (is_dir_stat fs have _ Hhave)).
        - reflexivity.
        - cbn [app]. apply (Habsent [c0]); [|discriminate].
          exists (ms' ++ [c])%list. reflexivity. }
      rewrite length_app in Hn. cbn [List.length] in Hn.
      destruct n as [|n]; [lia|].
      destruct (IH n) as (fs1 & Hmk & Hdir & Hch).
      { cbn [List.length]. lia. }
      { intros m Hm Hne. apply Habsent; [|exact Hne].
        apply prefix_app_r, Hm. }
      assert (Hsame : fs1 !! (have ++ (c0 :: ms') ++ [c])%list = None).
      { destruct (decide (fs1 !! (have ++ (c0 :: ms') ++ [c])%list
                          = fs !! (have ++ (c0 :: ms') ++ [c])%list))
          as [Heq|Hdiff]; [rewrite Heq; exact Hnone|].
        destruct (Hch _ Hdiff) as (m & _ & Hm & Hk).
        apply app_inv_head in Hk. subst m.
        apply prefix_length in Hm. rewrite length_app in Hm.
        cbn [List.length] in Hm. lia. }
      exists (<[(have ++ (c0 :: ms') ++ [c])%list := Dir]> fs1).
      split; [|split].
      * cbn [mkdir_parents]. rewrite Hos.
        change (is_file_not_found (FileNotFoundError _)) with true.
        cbv iota. rewrite Hpar, Hmk, bind_ok. unfold mkdir_exist_ok.
        rewrite os_mkdir_new; [reflexivity|exact Hd| |exact Hsame].
        rewrite Hpar. exact Hdir.
      * apply is_dir_inserted; [exact Hd|]. rewrite Hpar. exact Hdir.
      * intros k Hk.
        destruct (decide ((have ++ (c0 :: ms') ++ [c])%list = k)) as [<-|Hne].
        -- exists ((c0 :: ms') ++ [c])%list.
           split; [discriminate|]. split; reflexivity.
        -- rewrite lookup_insert_ne in Hk by exact Hne.
           destruct (Hch k Hk) as (m & Hm0 & Hm & ->).
           exists m. split; [exact Hm0|]. split; [|reflexivity].
           apply prefix_app_r, Hm.
Qed.

Lemma write_text_new (fs : filesystem) (p : path) (content : Utf8.text)
    (data : Utf8.bytes) :
  p <> [] -> is_dir fs (parent p) = true -> fs !! p = None ->
  Utf8.encode content = Ok data ->
  write_text fs p content = (Ok tt, <[p := File data]> fs).
Proof.
  intros Hne Hpar Hnone Henc. unfold write_text, stat_parent.
  destruct p as [|c p]; [contradiction|].
  rewrite (is_dir_stat fs _ (c :: p) Hpar), bind_ok, Hnone, Henc.
  rewrite insert_insert_eq. reflexivity.
Qed.

End CreateFacts.

(** X16.  [write_file] succeeds on a new path.  When the path resolves,
    inside the workspace, to [have ++ miss] where [have] is a directory,
    [miss] is not empty and nothing exists along [miss], the names are
    within the limits of the operating system (no component longer than
    [NAME_MAX] bytes, the path shorter than [PATH_MAX] bytes) and the
    content can be encoded, [write_file] reports success; afterwards every
    missing component but the last is a directory, the last is the file
    with the encoded content, and no entry off that stretch has changed. *)
Theorem write_file_creates (fs : Fs.filesystem) (path : string)
    (have miss : list string) (content : Utf8.text) (data : Utf8.bytes) :
  Fs.resolve_in_workspace path = Ok (have ++ miss)%list ->
  Fs.inside_workspace (have ++ miss)%list = true ->
  within_limits (have ++ miss)%list ->
  miss <> [] ->
  Fs.is_dir fs have = true ->
  (forall m, m `prefix_of` miss -> m <> [] -> fs !! (have ++ m)%list = None) ->
  Utf8.encode content = Ok data ->
  exists fs',
    write_file fs path content
    = (WriteDone (Fs.path_str (have ++ miss)%list)
                 (Z.of_nat (List.length data)), fs')
    /\ Fs.stat fs' (have ++ miss)%list = Ok (Fs.File data)
    /\ (forall m, m `prefix_of` miss -> m <> miss ->
                  Fs.is_dir fs' (have ++ m)%list = true)
    /\ (forall k, fs' !! k <> fs !! k ->
                  exists m, m <> [] /\ m `prefix_of` miss
                            /\ k = (have ++ m)%list).
Proof.
  intros Hp Hin _ Hmiss Hhave Habsent Henc.
  assert (Hpar : Fs.parent (have ++ miss)%list
                 = (have ++ removelast miss)%list)
    by (apply removelast_app, Hmiss).
  assert (Hne : (have ++ miss)%list <> [])
    by (intros H; apply app_eq_nil in H as [_ H]; contradiction).
  assert (Hlast : miss = (removelast miss ++ [List.last miss ""])%list)
    by (apply app_removelast_last, Hmiss).
  destruct (CreateFacts.mkdir_new fs have Hhave (removelast miss)
              (List.length (have ++ removelast miss)%list))
    as (fs1 & Hmk & Hdir & Hch).
  { rewrite length_app. lia. }
  { intros m Hm Hm0. apply Habsent; [|exact Hm0].
    rewrite Hlast. apply prefix_app_r, Hm. }
  assert (Hsame : fs1 !! (have ++ miss)%list = None).
  { destruct (decide (fs1 !! (have ++ miss)%list = fs !! (have ++ miss)%list))
      as [Heq|Hdiff];
      [rewrite Heq; apply Habsent; [reflexivity|exact Hmiss]|].
    destruct (Hch _ Hdiff) as (m & _ & Hm & Hk).
    apply app_inv_head in Hk. subst m. apply prefix_length in Hm.
    rewrite Hlast, length_app in Hm at 1. cbn [List.length] in Hm. lia. }
  exists (<[(have ++ miss)%list := Fs.File data]> fs1).
  split; [|split; [|split]].
  - unfold write_file. rewrite Hp, guard_inside, Hin. simpl negb. cbv iota.
    unfold Fs.mkdir. rewrite Hpar, Hmk.
    rewrite (CreateFacts.write_text_new fs1 _ content data Hne);
      [rewrite Henc; reflexivity|rewrite Hpar; exact Hdir|exact Hsame|exact Henc].
  - pose proof (FsFacts.stat_from_inserted fs1 (Fs.File data)
                  (List.last (have ++ miss)%list "") (have ++ miss)%list
                  (have ++ miss)%list (Fs.parent (have ++ miss)%list) []) as Hs.
    cbn [app] in Hs.
    rewrite <- (FsFacts.path_parent_last _ Hne) in Hs. apply Hs.
    apply CreateFacts.is_dir_stat. rewrite Hpar. exact Hdir.
  - intros m Hm Hmne.
    assert (Hm' : m `prefix_of` removelast miss).
    { destruct Hm as [rest Hrest].
      destruct rest as [|r rest] using rev_ind;
        [rewrite app_nil_r in Hrest; congruence|].
      exists rest. rewrite Hrest, app_assoc. apply removelast_last. }
    assert (Hd : Fs.is_dir fs1 (have ++ m)%list = true)
      by (apply (CreateFacts.is_dir_prefix fs1 _ _ Hdir), prefix_app, Hm').
    apply (CreateFacts.stat_is_dir _ _ (have ++ m)%list).
    rewrite <- (CreateFacts.is_dir_stat fs1 _ (have ++ m)%list Hd).
    apply WriteFacts.stat_from_agree. intros k Hk. cbn [app].
    apply lookup_insert_ne. intros Heq. rewrite <- Heq in Hk.
    apply prefix_app_inv in Hk.
    apply Hmne, (anti_symm prefix); [exact Hm|exact Hk].
  - intros k Hk.
    destruct (decide ((have ++ miss)%list = k)) as [<-|Hkne].
    + exists miss. split; [exact Hmiss|]. split; reflexivity.
    + rewrite lookup_insert_ne in Hk by exact Hkne.
      destruct (Hch k Hk) as (m & Hm0 & Hm & ->).
      exists m. split; [exact Hm0|]. split; [|reflexivity].
      rewrite Hlast. apply prefix_app_r, Hm.
Qed.

(** ** [list_deliverables] *)

Module DeliverableFacts.
Import Fs Glob.

Lemma str_le_total : Total str_le.
Proof. intros a b. apply String.leb_total. Qed.

Lemma sorted_ascending (l : list string) : Sorted str_le (sorted l).
Proof. pose proof str_le_total. apply (Sorted_merge_sort str_le). Qed.

Lemma rglob_spec (fs : filesystem) (root p : path) :
  p ∈ rglob fs root <-> root ∈ parents p /\ exists_ fs p = true.
Proof.
  unfold rglob. rewrite list_elem_of_In, filter_In, andb_true_iff,
    bool_decide_eq_true, <- list_elem_of_In, list_elem_of_fmap.
  split; [intros (_ & H); exact H|]. intros [Hr He]. split; [|auto].
  unfold exists_, stat in He.
  destruct (stat_from fs [] p p) as [n|e] eqn:E; [|discriminate He].
  apply WriteFacts.stat_from_end in E. cbn [app] in E.
  exists (p, n). split; [reflexivity|]. apply elem_of_map_to_list, E.
Qed.

Lemma relative_to_below (p root : path) :
  root ∈ parents p ->
  relative_to p root = Ok (skipn (List.length root) p).
Proof.
  intros H. unfold relative_to. rewrite bool_decide_eq_true_2; [reflexivity|].
  unfold parents in H. apply list_elem_of_fmap in H as (n & -> & _).
  apply prefix_take.
Qed.

(** The loop never raises on the items of [rglob]: it maps the items it
    keeps to their paths below the root. *)
Lemma collect_spec (fs : filesystem) (items : list path) :
  Forall (fun p => WORKSPACE ∈ parents p) items ->
  collect_deliverables fs items
  = Ok (List.map (fun p => rel_str (skipn (List.length WORKSPACE) p))
                 (List.filter (is_deliverable fs) items)).
Proof.
  induction 1 as [|p items Hp _ IH]; [reflexivity|].
  cbn [collect_deliverables List.filter]. unfold is_deliverable at 1.
  destruct (is_file fs p); [|exact IH].
  destruct (bool_decide (name p ∈ exclude_names)); [exact IH|].
  destruct (bool_decide (suffix p ∈ extensions)); [|exact IH].
  cbn [andb negb List.map].
  rewrite (relative_to_below p WORKSPACE Hp), bind_ok, IH, bind_ok.
  reflexivity.
Qed.

Lemma rglob_below (fs : filesystem) (root : path) :
  Forall (fun p => root ∈ parents p) (rglob fs root).
Proof.
  apply Forall_forall. intros p Hp. apply rglob_spec in Hp as [H _]. exact H.
Qed.

Lemma list_deliverables_eq (fs : filesystem) :
  list_deliverables fs
  = Ok (sorted (List.map (fun p => rel_str (skipn (List.length WORKSPACE) p))
                         (List.filter (is_deliverable fs)
                                      (rglob fs WORKSPACE)))).
Proof.
  unfold list_deliverables.
  rewrite (collect_spec fs _ (rglob_below fs WORKSPACE)), bind_ok.
  reflexivity.
Qed.

(** The items that are listed. *)
Lemma listed_iff (fs : filesystem) (s : string) :
  s ∈ sorted (List.map (fun p => rel_str (skipn (List.length WORKSPACE) p))
                       (List.filter (is_deliverable fs) (rglob fs WORKSPACE)))
  <-> exists rel, rel <> [] /\ s = join "/" rel
                  /\ is_deliverable fs (WORKSPACE ++ rel)%list = true.
Proof.
  unfold sorted. rewrite merge_sort_Permutation, list_elem_of_fmap.
  split.
  - intros (p & -> & Hp).
    apply list_elem_of_In, filter_In in Hp as [Hp Hk].
    apply list_elem_of_In, rglob_spec in Hp as [Hw _].
    apply (bool_decide_eq_true_2 (WORKSPACE ∈ parents p)) in Hw.
    apply workspace_in_parents_spec in Hw as (rel & Hrel & ->).
    exists rel. split; [exact Hrel|]. split; [|exact Hk].
    rewrite drop_app_length. destruct rel; [contradiction|reflexivity].
  - intros (rel & Hrel & -> & Hk). exists (WORKSPACE ++ rel)%list. split.
    + rewrite drop_app_length. destruct rel; [contradiction|reflexivity].
    + apply list_elem_of_In, filter_In. split; [|exact Hk].
      apply list_elem_of_In, rglob_spec. split.
      * apply (bool_decide_eq_true_1 (WORKSPACE ∈ parents (WORKSPACE ++ rel))).
        apply workspace_in_parents_spec. exists rel. auto.
      * unfold is_deliverable in Hk.
        apply andb_true_iff in Hk as [Hk _]. apply andb_true_iff in Hk as [Hk _].
        unfold is_file in Hk. unfold exists_.
        destruct (stat fs (WORKSPACE ++ rel)); [reflexivity|discriminate].
Qed.

End DeliverableFacts.

(** X17.  [list_deliverables] never raises.  The list it returns is in
    ascending order and holds exactly the paths, relative to the
    workspace root, of the regular files below the root, at any depth,
    whose name is neither [snippet.py] nor [.gitkeep] and whose suffix is
    one of the eight extensions. *)
Theorem list_deliverables_spec (fs : Fs.filesystem) :
  exists deliverables,
    list_deliverables fs = Ok deliverables
    /\ Sorted Glob.str_le deliverables
    /\ forall s,
         s ∈ deliverables
         <-> exists rel,
               rel <> [] /\ s = join "/" rel
               /\ Fs.is_file fs (Fs.WORKSPACE ++ rel)%list = true
               /\ (Glob.name (Fs.WORKSPACE ++ rel)%list ∉ exclude_names)
               /\ Glob.suffix (Fs.WORKSPACE ++ rel)%list ∈ extensions.
Proof.
  eexists. split; [apply DeliverableFacts.list_deliverables_eq|]. split.
  - apply DeliverableFacts.sorted_ascending.
  - intros s. rewrite DeliverableFacts.listed_iff.
    unfold is_deliverable.
    split; intros (rel & Hrel & Hs & Hk); exists rel;
      (split; [exact Hrel|]); (split; [exact Hs|]).
    + apply andb_true_iff in Hk as [Hk Hx]. apply andb_true_iff in Hk as [Hf Hn].
      split; [exact Hf|]. split.
      * apply negb_true_iff, bool_decide_eq_false in Hn. exact Hn.
      * apply bool_decide_eq_true in Hx. exact Hx.
    + destruct Hk as (Hf & Hn & Hx).
      rewrite Hf, (bool_decide_eq_false_2 _ Hn), (bool_decide_eq_true_2 _ Hx).
      reflexivity.
Qed.

(** X18.  A file that [write_file] has written is a deliverable: when the
    call reports success for a path that resolves to [rel] below the
    workspace root, with a name that is not excluded and a suffix among the
    extensions, the list of [list_deliverables] on the file system it
    leaves holds [rel]. *)
Theorem written_file_is_listed (fs fs' : Fs.filesystem) (path : string)
    (content : Utf8.text) (q : string) (n : Z) (rel : list string) :
  write_file fs path content = (WriteDone q n, fs') ->
  Fs.resolve_in_workspace path = Ok (Fs.WORKSPACE ++ rel)%list ->
  Glob.name (Fs.WORKSPACE ++ rel)%list ∉ exclude_names ->
  Glob.suffix (Fs.WORKSPACE ++ rel)%list ∈ extensions ->
  exists deliverables,
    list_deliverables fs' = Ok deliverables
    /\ join "/" rel ∈ deliverables.
Proof.
  intros Hw Hp Hn Hx.
  destruct (WriteFacts.write_file_stat fs fs' path content q n Hw)
    as (p & data & Hp' & _ & _ & _ & _ & Hs).
  assert (Hpe : p = (Fs.WORKSPACE ++ rel)%list) by congruence. subst p.
  eexists. split; [apply DeliverableFacts.list_deliverables_eq|].
  apply DeliverableFacts.listed_iff. exists rel.
  split; [|split; [reflexivity|]].
  - intros ->.
    apply (bool_decide_eq_true_2
             (Glob.suffix (Fs.WORKSPACE ++ [])%list ∈ extensions)) in Hx.
    vm_compute in Hx. discriminate Hx.
  - unfold is_deliverable, Fs.is_file. rewrite Hs.
    rewrite (bool_decide_eq_false_2 _ Hn), (bool_decide_eq_true_2 _ Hx).
    reflexivity.
Qed.

(** ** From a listed deliverable back to its file *)

Module NameFacts.
Import Fs.

Lemma contains_char_app (a b : string) (c : ascii) :
  contains (a ++ b) (String c "")
  = contains a (String c "") || contains b (String c "").
Proof.
  induction a as [|x a IH]; [reflexivity|].
  change (String x a ++ b) with (String x (a ++ b)).
  cbn [contains startswith]. rewrite IH. apply orb_assoc.
Qed.

Lemma split_on_no_sep (sep : ascii) (x : string) :
  contains x (String sep "") = false -> split_on sep x = [x].
Proof.
  induction x as [|c x IH]; [reflexivity|].
  cbn [contains startswith split_on]. rewrite andb_true_r, orb_false_iff.
  intros [Hc Hx]. rewrite Ascii.eqb_sym, Hc, (IH Hx). reflexivity.
Qed.

Lemma split_on_app_sep (sep : ascii) (x t : string) :
  contains x (String sep "") = false ->
  split_on sep (x ++ String sep t) = x :: split_on sep t.
Proof.
  induction x as [|c x IH].
  - intros _. change ("" ++ String sep t) with (String sep t).
    cbn [split_on]. rewrite Ascii.eqb_refl. reflexivity.
  - cbn [contains startswith]. rewrite andb_true_r, orb_false_iff.
    intros [Hc Hx]. change (String c x ++ String sep t)
      with (String c (x ++ String sep t)).
    cbn [split_on]. rewrite Ascii.eqb_sym, Hc, (IH Hx). reflexivity.
Qed.

Lemma split_on_join (rel : list string) :
  rel <> [] -> Forall (fun c => contains c "/" = false) rel ->
  split_on "/" (join "/" rel) = rel.
Proof.
  intros Hne H. induction H as [|x rel Hx Hrel IH]; [contradiction|].
  destruct rel as [|y rel]; [apply split_on_no_sep, Hx|].
  change (join "/" (x :: y :: rel)) with (x ++ String "/" (join "/" (y :: rel))).
  rewrite (split_on_app_sep "/" x _ Hx), IH by discriminate. reflexivity.
Qed.

Lemma filter_all {A : Type} (f : A -> bool) (l : list A) :
  Forall (fun x => f x = true) l -> List.filter f l = l.
Proof.
  induction 1 as [|x l Hx _ IH]; [reflexivity|].
  cbn [List.filter]. rewrite Hx, IH. reflexivity.
Qed.

Lemma components_join (rel : list string) :
  rel <> [] -> Forall valid_name rel ->
  PurePath.components (join "/" rel) = rel.
Proof.
  intros Hne H. unfold PurePath.components.
  rewrite split_on_join; [|exact Hne|].
  - apply filter_all. eapply Forall_impl; [exact H|].
    intros c (H1 & H2 & _). cbv beta.
    destruct (String.eqb_spec c ""); [contradiction|].
    destruct (String.eqb_spec c "."); [contradiction|]. reflexivity.
  - eapply Forall_impl; [exact H|]. intros c (_ & _ & _ & H4 & _). exact H4.
Qed.

Lemma join_relative (rel : list string) :
  Forall valid_name rel -> PurePath.is_absolute (join "/" rel) = false.
Proof.
  intros [|x rel' (Hx & _ & _ & Hs & _) _]; [reflexivity|].
  unfold PurePath.is_absolute.
  destruct x as [|c x]; [contradiction|].
  cbn [contains startswith] in Hs. rewrite andb_true_r in Hs.
  apply orb_false_iff in Hs as [Hc _].
  destruct rel' as [|y rel'].
  - cbn [join startswith]. rewrite Hc. reflexivity.
  - change (join "/" (String c x :: y :: rel'))
      with (String c (x ++ "/" ++ join "/" (y :: rel'))).
    cbn [startswith]. rewrite Hc. reflexivity.
Qed.

Lemma join_no_nul (rel : list string) :
  Forall valid_name rel -> contains (join "/" rel) NUL = false.
Proof.
  induction 1 as [|x rel (_ & _ & _ & _ & Hx) _ IH]; [reflexivity|].
  destruct rel as [|y rel]; [exact Hx|].
  change (join "/" (x :: y :: rel)) with (x ++ "/" ++ join "/" (y :: rel)).
  unfold NUL in *. rewrite !contains_char_app, Hx, IH. reflexivity.
Qed.

Lemma resolve_steps (rel : list string) :
  Forall valid_name rel ->
  forall acc, fold_left resolve_step rel acc = (acc ++ rel)%list.
Proof.
  induction 1 as [|x rel (_ & _ & Hx & _) _ IH]; intros acc;
    [symmetry; apply app_nil_r|].
  cbn [fold_left]. unfold resolve_step at 2.
  destruct (String.eqb_spec x ".."); [contradiction|].
  rewrite IH, <- app_assoc. reflexivity.
Qed.

(** A relative path made of file names resolves to itself below the
    workspace root. *)
Lemma resolve_join (rel : list string) :
  rel <> [] -> Forall valid_name rel ->
  resolve_in_workspace (join "/" rel) = Ok (WORKSPACE ++ rel)%list.
Proof.
  intros Hne H. unfold resolve_in_workspace.
  rewrite (join_no_nul rel H), (join_relative rel H),
    (components_join rel Hne H), (resolve_steps rel H). reflexivity.
Qed.

End NameFacts.

(** X19.  Every deliverable that is listed can be read under the name it
    is listed by: on a file system whose entries bear file names (not
    empty, neither [.] nor [..], without slash or NUL), [read_file] of a
    listed path returns content, from the file of that path below the
    workspace root. *)
Theorem listed_deliverable_is_readable (fs : Fs.filesystem)
    (deliverables : list string) (s : string) (max_bytes : Z) :
  (forall p n, fs !! p = Some n -> Forall valid_name p) ->
  list_deliverables fs = Ok deliverables ->
  s ∈ deliverables ->
  exists c, read_file fs s max_bytes
            = ReadContent (WORKSPACE_str ++ "/" ++ s) c.
Proof.
  intros Hnames Hl Hs.
  rewrite DeliverableFacts.list_deliverables_eq in Hl. injection Hl as <-.
  apply DeliverableFacts.listed_iff in Hs as (rel & Hrel & -> & Hk).
  unfold is_deliverable in Hk.
  apply andb_true_iff in Hk as [Hk _]. apply andb_true_iff in Hk as [Hf _].
  unfold Fs.is_file in Hf.
  destruct (Fs.stat fs (Fs.WORKSPACE ++ rel)%list) as [[|data]|e] eqn:Hstat;
    try discriminate Hf.
  pose proof (WriteFacts.stat_from_end fs _ _ _ _ Hstat) as Hlook.
  cbn [app] in Hlook. apply Hnames in Hlook.
  change ("opt" :: "coding-agent" :: "workspace" :: rel)
    with (Fs.WORKSPACE ++ rel)%list in Hlook.
  apply Forall_app in Hlook as [_ Hvalid].
  exists (Utf8.decode_replace (slice_to max_bytes data)).
  rewrite (WriteFacts.read_file_existing fs _ (Fs.WORKSPACE ++ rel)%list data
             max_bytes (NameFacts.resolve_join rel Hrel Hvalid)).
  - destruct rel; [contradiction|reflexivity].
  - apply inside_workspace_spec. exists rel. reflexivity.
  - exact Hstat.
Qed.

(** * Further properties of the orchestrator *)

(** ** Code fences around a response *)

Module FenceFacts.
Import Orchestrator.

Lemma split_on_cons (sep : ascii) (s : string) :
  exists w ws, split_on sep s = w :: ws.
Proof.
  destruct s as [|c s]; cbn [split_on]; [eauto|].
  destruct (Ascii.eqb c sep); [eauto|].
  destruct (split_on sep s); eauto.
Qed.

(** [sep.join(s.split(sep)) == s] *)
Lemma join_split_on (sep : ascii) (s : string) :
  join (String sep "") (split_on sep s) = s.
Proof.
  induction s as [|c s IH]; [reflexivity|]. cbn [split_on].
  destruct (split_on_cons sep s) as (w & ws & E). rewrite E in *.
  destruct (Ascii.eqb_spec c sep) as [->|_].
  - change (join (String sep "") ("" :: w :: ws))
      with (String sep (join (String sep "") (w :: ws))).
    rewrite IH. reflexivity.
  - destruct ws as [|w' ws].
    + cbn [join] in *. rewrite IH. reflexivity.
    + change (join (String sep "") (String c w :: w' :: ws))
        with (String c (join (String sep "") (w :: w' :: ws))).
      rewrite IH. reflexivity.
Qed.

(** Splitting behind a separator: the lines before it, then the lines
    after it. *)
Lemma split_on_app (sep : ascii) (a t : string) :
  split_on sep (a ++ String sep t) = (split_on sep a ++ split_on sep t)%list.
Proof.
  induction a as [|c a IH].
  - change ("" ++ String sep t) with (String sep t). cbn [split_on].
    rewrite Ascii.eqb_refl. reflexivity.
  - change (String c a ++ String sep t) with (String c (a ++ String sep t)).
    cbn [split_on]. rewrite IH.
    destruct (Ascii.eqb c sep); [reflexivity|].
    destruct (split_on_cons sep a) as (w & ws & ->). reflexivity.
Qed.

Lemma lstrip_nonspace (c : ascii) (s : string) :
  isspace c = false -> lstrip (String c s) = String c s.
Proof. intros H. cbn [lstrip]. rewrite H. reflexivity. Qed.

Lemma rstrip_app_nonspace (a : string) (c : ascii) :
  isspace c = false -> rstrip (a ++ String c "") = a ++ String c "".
Proof.
  intros H. induction a as [|x a IH].
  - change ("" ++ String c "") with (String c "").
    cbn [rstrip]. rewrite H. reflexivity.
  - change (String x a ++ String c "") with (String x (a ++ String c "")).
    cbn [rstrip]. rewrite IH. destruct a; reflexivity.
Qed.

End FenceFacts.

(** X20.  A response wrapped in a markdown code fence is handed to the
    JSON parser as its bare body: for a first line made of the fence and a
    language tag without a line break, and a last line made of the fence,
    [clean_response] returns exactly what stands between the two lines,
    whatever it is. *)
Theorem clean_response_unwraps_fence (lang body : string) :
  contains lang Orchestrator.LF = false ->
  Orchestrator.clean_response
    (Orchestrator.fence ++ lang ++ Orchestrator.LF ++ body
     ++ Orchestrator.LF ++ Orchestrator.fence)
  = body.
Proof.
  intros Hlang. unfold Orchestrator.clean_response.
  set (content := Orchestrator.fence ++ lang ++ Orchestrator.LF ++ body
                  ++ Orchestrator.LF ++ Orchestrator.fence).
  assert (Hstrip : strip content = content).
  { unfold strip.
    replace (lstrip content) with content
      by (symmetry; apply FenceFacts.lstrip_nonspace; reflexivity).
    replace content
      with (("```" ++ lang ++ Orchestrator.LF ++ body ++ Orchestrator.LF
             ++ "``") ++ "`").
    - apply FenceFacts.rstrip_app_nonspace. reflexivity.
    - subst content. unfold Orchestrator.fence.
      rewrite !OrchestratorFacts.string_app_assoc. reflexivity. }
  rewrite Hstrip.
  assert (Hstart : startswith content Orchestrator.fence = true)
    by (subst content; apply startswith_app).
  rewrite Hstart.
  assert (Hlines : split_on "010"%char content
                   = ((Orchestrator.fence ++ lang)%string
                      :: split_on "010"%char body ++ [Orchestrator.fence])%list).
  { subst content. unfold Orchestrator.LF.
    rewrite <- OrchestratorFacts.string_app_assoc.
    change (String "010"%char "" ++ body ++ String "010"%char ""
            ++ Orchestrator.fence)
      with (String "010"%char (body ++ String "010"%char Orchestrator.fence)).
    rewrite FenceFacts.split_on_app, FenceFacts.split_on_app.
    rewrite (NameFacts.split_on_no_sep "010"%char (Orchestrator.fence ++ lang)).
    - reflexivity.
    - unfold Orchestrator.LF in Hlang.
      rewrite NameFacts.contains_char_app, Hlang. reflexivity. }
  rewrite Hlines.
  rewrite (startswith_app Orchestrator.fence lang).
  destruct (FenceFacts.split_on_cons "010"%char body) as (w & ws & E).
  rewrite E. cbn [app].
  change (w :: ws ++ [Orchestrator.fence])%list
    with ((w :: ws) ++ [Orchestrator.fence])%list.
  rewrite last_last, removelast_last. cbn [startswith Orchestrator.fence].
  change (startswith Orchestrator.fence Orchestrator.fence) with true.
  cbv iota. rewrite <- E. apply FenceFacts.join_split_on.
Qed.

(** ** The engine calls of a session *)

Module BudgetFacts.
Import Orchestrator Scenario.

Section AnyEngine.

Variable w : Engine.

Lemma continuation_loop_calls (fuel : nat) :
  forall (acc : string) (msgs : list message) (o : Orch),
    counted o ->
    counted (r_self (continuation_loop w fuel acc msgs o))
    /\ (api_call_count (r_self (continuation_loop w fuel acc msgs o))
        <= api_call_count o + fuel)%nat.
Proof.
  induction fuel as [|fuel IH]; intros acc msgs o Ho.
  - cbn [continuation_loop r_self]. split; [exact Ho|lia].
  - cbn [continuation_loop]. cbv zeta.
    set (o1 := emit (ApiCall (api_call_count (count_call o)) msgs)
                    (count_call o)).
    assert (H1 : counted o1 /\ api_call_count o1 = S (api_call_count o)).
    { subst o1. unfold counted in *.
      cbn [emit count_call api_call_count effects].
      rewrite List.filter_app, length_app, <- Ho. cbn. split; lia. }
    destruct H1 as [H1 Hn].
    destruct (create w (api_call_count o1) msgs) as [c|e];
      [|cbn [r_self]; split; [exact H1|lia]].
    destruct (c_content c) as [content|];
      [|cbn [r_self]; split; [exact H1|lia]].
    assert (H2 : counted (track_tokens c o1)) by exact H1.
    assert (Hn2 : api_call_count (track_tokens c o1) = S (api_call_count o))
      by exact Hn.
    destruct (String.eqb (finish_reason c) "stop");
      [cbn [r_self]; split; [exact H2|lia]|].
    destruct (String.eqb (finish_reason c) "length");
      [|cbn [r_self]; split; [exact H2|lia]].
    destruct (IH (acc ++ content)
                 (msgs ++ [mkMessage "assistant" content;
                           mkMessage "user" "Continue."])%list
                 (track_tokens c o1) H2) as [H3 Hn3].
    split; [exact H3|lia].
Qed.

Lemma run_commands_calls (commands : list string) :
  forall (st : Loop) (results : list CommandResult),
    counted (self st) ->
    counted (self (run_commands w commands st results).1)
    /\ api_call_count (self (run_commands w commands st results).1)
       = api_call_count (self st).
Proof.
  induction commands as [|cmd commands IH]; intros st results Hc;
    cbn [run_commands]; [split; [exact Hc|reflexivity]|].
  cbv zeta.
  match goal with
  | |- context [run_commands w commands ?st1 ?rs] =>
      destruct (IH st1 rs) as [H1 H2]
  end.
  - unfold counted in *. cbn [self emit api_call_count effects].
    rewrite List.filter_app, length_app, <- Hc. cbn. lia.
  - split; [exact H1|]. rewrite H2. reflexivity.
Qed.

Lemma iteration_body_calls (i : nat) (st : Loop) :
  counted (self st) ->
  counted (self (iteration_body w i st).2)
  /\ (api_call_count (self (iteration_body w i st).2)
      <= api_call_count (self st) + 5)%nat.
Proof.
  intros Hc. unfold iteration_body, get_complete_response.
  destruct (continuation_loop_calls 5 "" (messages st)
              (set_iteration i (self st)) Hc) as [Hr Hn].
  set (r := continuation_loop w 5 "" (messages st)
              (set_iteration i (self st))) in *.
  cbn [set_iteration api_call_count] in Hn. cbv zeta.
  destruct (String.eqb (completion_status r) "error");
    [split; [exact Hr|exact Hn]|].
  destruct (text r) as [content|]; [|split; [exact Hr|exact Hn]].
  destruct (json_loads w (clean_response content))
    as [|status reasoning commands|type_name];
    [split; [exact Hr|exact Hn]| |split; [exact Hr|exact Hn]].
  destruct (String.eqb (default "continue" status) "complete");
    [split; [exact Hr|exact Hn]|].
  destruct (String.eqb (default "continue" status) "blocked");
    [split; [exact Hr|exact Hn]|].
  destruct (run_commands_calls (default [] commands)
              (mkLoop (r_self r) (r_messages r) (total_commands st)
                      (failed_commands st)) [] Hr) as [H1 H2].
  destruct (run_commands w (default [] commands) _ []) as [st1 results].
  cbn [fst snd self] in *. unfold counted in *.
  cbn [emit api_call_count effects].
  rewrite List.filter_app, length_app, <- H1. cbn. split; lia.
Qed.

Lemma iterate_calls (remaining : nat) :
  forall (i : nat) (st : Loop),
    counted (self st) ->
    counted (self (iterate w remaining i st))
    /\ (api_call_count (self (iterate w remaining i st))
        <= api_call_count (self st) + 5 * remaining)%nat.
Proof.
  induction remaining as [|remaining IH]; intros i st Hc; cbn [iterate];
    [split; [exact Hc|lia]|].
  destruct (iteration_body_calls i st Hc) as [H1 H2].
  destruct (iteration_body w i st) as [[|] st']; cbn [snd] in H1, H2.
  - destruct (IH (S i) st' H1) as [H3 H4]. split; [exact H3|lia].
  - split; [exact H1|lia].
Qed.

End AnyEngine.

End BudgetFacts.

(** X21.  A session calls the engine at most 50 times, five calls for each
    of the ten iterations, and the counter [api_call_count] of the
    monitoring summary is the number of calls made. *)
Theorem session_call_budget (w : Orchestrator.Engine) (task : string) :
  let s := Orchestrator.run_task w task in
  Orchestrator.api_call_count (Orchestrator.final s)
  = List.length (List.filter Scenario.is_api_call
                   (Orchestrator.effects (Orchestrator.final s)))
  /\ (Orchestrator.api_call_count (Orchestrator.final s)
      <= 5 * Orchestrator.MAX_ITERATIONS)%nat.
Proof.
  cbv zeta. unfold Orchestrator.run_task.
  destruct (Orchestrator.system_prompt w) as [prompt|];
    [|split; [reflexivity|cbn; lia]].
  match goal with
  | |- context [Orchestrator.iterate w _ 1 ?st0] =>
      destruct (BudgetFacts.iterate_calls w Orchestrator.MAX_ITERATIONS 1 st0)
        as [H1 H2]; [reflexivity|];
      set (st := Orchestrator.iterate w Orchestrator.MAX_ITERATIONS 1 st0) in *
  end.
  cbn [Orchestrator.self Orchestrator.set_task Orchestrator.set_metadata
       Orchestrator.init Orchestrator.api_call_count] in H2.
  unfold counted in H1. unfold Orchestrator.finalize. cbv zeta.
  cbn [Orchestrator.final Orchestrator.emit Orchestrator.set_metadata
       Orchestrator.api_call_count Orchestrator.effects].
  assert (Hsame : forall b : bool,
             Orchestrator.api_call_count
               (if b then Orchestrator.set_metadata
                            (Orchestrator.set_status "max_iterations"
                               (Orchestrator.metadata (Orchestrator.self st)))
                            (Orchestrator.self st)
                else Orchestrator.self st)
             = Orchestrator.api_call_count (Orchestrator.self st)
             /\ Orchestrator.effects
                  (if b then Orchestrator.set_metadata
                               (Orchestrator.set_status "max_iterations"
                                  (Orchestrator.metadata (Orchestrator.self st)))
                               (Orchestrator.self st)
                   else Orchestrator.self st)
                = Orchestrator.effects (Orchestrator.self st))
    by (intros []; split; reflexivity).
  match goal with
  | |- context [if ?b then _ else _] => destruct (Hsame b) as [-> ->]
  end.
  rewrite !List.filter_app, !length_app. cbn [List.filter Scenario.is_api_call
                                              List.length].
  split; lia.
Qed.

(** ** The conversation of a session *)

Module HistoryFacts.
Import Orchestrator Scenario.

Section AnyEngine.

Variable w : Engine.

Lemma continuation_loop_requests (fuel : nat) :
  forall (acc : string) (msgs : list message) (o : Orch),
    let r := continuation_loop w fuel acc msgs o in
    msgs `prefix_of` r_messages r
    /\ exists added,
         effects (r_self r) = (effects o ++ added)%list
         /\ forall k m, In (ApiCall k m) added ->
                        msgs `prefix_of` m /\ m `prefix_of` r_messages r.
Proof.
  induction fuel as [|fuel IH]; intros acc msgs o; cbv zeta.
  - cbn [continuation_loop r_self r_messages]. split; [reflexivity|].
    exists []. split; [symmetry; apply app_nil_r|intros k m []].
  - cbn [continuation_loop]. cbv zeta.
    set (o1 := emit (ApiCall (api_call_count (count_call o)) msgs)
                    (count_call o)).
    assert (Hend : forall o',
               effects o' = effects o1 ->
               exists added,
                 effects o' = (effects o ++ added)%list
                 /\ forall k m, In (ApiCall k m) added ->
                                msgs `prefix_of` m /\ m `prefix_of` msgs).
    { intros o' ->. eexists. split; [reflexivity|].
      intros k m [[= _ <-]|[]]. split; reflexivity. }
    destruct (create w (api_call_count o1) msgs) as [c|e];
      [|cbn [r_self r_messages]; split; [reflexivity|apply Hend; reflexivity]].
    destruct (c_content c) as [content|];
      [|cbn [r_self r_messages]; split; [reflexivity|apply Hend; reflexivity]].
    destruct (String.eqb (finish_reason c) "stop");
      [cbn [r_self r_messages]; split; [reflexivity|apply Hend; reflexivity]|].
    destruct (String.eqb (finish_reason c) "length");
      [|cbn [r_self r_messages]; split; [reflexivity|apply Hend; reflexivity]].
    destruct (IH (acc ++ content)
                 (msgs ++ [mkMessage "assistant" content;
                           mkMessage "user" "Continue."])%list
                 (track_tokens c o1)) as [Hpre (added & Heff & Hadded)].
    assert (Hmsgs : msgs `prefix_of` r_messages
                      (continuation_loop w fuel (acc ++ content)
                         (msgs ++ [mkMessage "assistant" content;
                                   mkMessage "user" "Continue."])%list
                         (track_tokens c o1)))
      by (etransitivity; [apply prefix_app_r; reflexivity|exact Hpre]).
    split; [exact Hmsgs|].
    exists (ApiCall (api_call_count (count_call o)) msgs :: added). split.
    + rewrite Heff. subst o1. cbn [track_tokens emit effects].
      rewrite <- app_assoc. reflexivity.
    + intros k m [[= _ <-]|Hin]; [split; [reflexivity|exact Hmsgs]|].
      destruct (Hadded k m Hin) as [H1 H2]. split; [|exact H2].
      etransitivity; [apply prefix_app_r; reflexivity|exact H1].
Qed.

Lemma run_commands_requests (commands : list string) :
  forall (st : Loop) (results : list CommandResult),
    messages (run_commands w commands st results).1 = messages st
    /\ forall k m,
         In (ApiCall k m) (effects (self (run_commands w commands st results).1))
         -> In (ApiCall k m) (effects (self st)).
Proof.
  induction commands as [|cmd commands IH]; intros st results;
    cbn [run_commands]; [split; [reflexivity|auto]|].
  cbv zeta.
  match goal with
  | |- context [run_commands w commands ?st1 ?rs] =>
      destruct (IH st1 rs) as [H1 H2]
  end.
  split; [exact H1|]. intros k m Hin. apply H2 in Hin.
  cbn [self emit effects] in Hin. apply in_app_or in Hin as [Hin|[Hin|[]]];
    [exact Hin|discriminate Hin].
Qed.

(** Appending to the conversation, and adding effects that are no
    requests, keeps the history. *)
Lemma history_kept_extend (base : list message) (st : Loop) (o : Orch)
    (msgs : list message) (t f : nat) :
  history_kept base st ->
  messages st `prefix_of` msgs ->
  (forall k m, In (ApiCall k m) (effects o) ->
               In (ApiCall k m) (effects (self st))) ->
  history_kept base (mkLoop o msgs t f).
Proof.
  intros [Hb Hreq] Hpre Ho. split; cbn [messages self].
  - etransitivity; [exact Hb|exact Hpre].
  - intros k m Hin. destruct (Hreq k m (Ho k m Hin)) as [H1 H2].
    split; [exact H1|]. etransitivity; [exact H2|exact Hpre].
Qed.

Lemma iteration_body_history (base : list message) (i : nat) (st : Loop) :
  history_kept base st -> history_kept base (iteration_body w i st).2.
Proof.
  intros Hk. unfold iteration_body, get_complete_response.
  destruct (continuation_loop_requests 5 "" (messages st)
              (set_iteration i (self st))) as [Hpre (added & Heff & Hadded)].
  set (r := continuation_loop w 5 "" (messages st)
              (set_iteration i (self st))) in *.
  assert (Hr : history_kept base
                 (mkLoop (r_self r) (r_messages r) (total_commands st)
                         (failed_commands st))).
  { destruct Hk as [Hb Hreq]. split; cbn [messages self].
    - etransitivity; [exact Hb|exact Hpre].
    - intros k m Hin. rewrite Heff in Hin.
      cbn [set_iteration effects] in Hin.
      apply in_app_or in Hin as [Hin|Hin].
      + destruct (Hreq k m Hin) as [H1 H2]. split; [exact H1|].
        etransitivity; [exact H2|exact Hpre].
      + destruct (Hadded k m Hin) as [H1 H2]. split; [|exact H2].
        etransitivity; [exact Hb|exact H1]. }
  cbv zeta.
  destruct (String.eqb (completion_status r) "error"); [exact Hr|].
  destruct (text r) as [content|];
    [|apply (history_kept_extend base _ _ _ _ _ Hr);
      [apply prefix_app_r; reflexivity|auto]].
  destruct (json_loads w (clean_response content))
    as [|status reasoning commands|type_name];
    try (apply (history_kept_extend base _ _ _ _ _ Hr);
         [apply prefix_app_r; reflexivity|auto]).
  destruct (String.eqb (default "continue" status) "complete");
    [apply (history_kept_extend base _ _ _ _ _ Hr); [reflexivity|auto]|].
  destruct (String.eqb (default "continue" status) "blocked");
    [apply (history_kept_extend base _ _ _ _ _ Hr); [reflexivity|auto]|].
  destruct (run_commands_requests (default [] commands)
              (mkLoop (r_self r) (r_messages r) (total_commands st)
                      (failed_commands st)) []) as [Hm He].
  destruct (run_commands w (default [] commands) _ []) as [st1 results].
  cbn [fst snd] in *.
  apply (history_kept_extend base _ _ _ _ _ Hr).
  - cbn [messages]. rewrite Hm. apply prefix_app_r. reflexivity.
  - intros k m Hin. cbn [emit effects] in Hin.
    apply in_app_or in Hin as [Hin|[Hin|[]]]; [|discriminate Hin].
    exact (He k m Hin).
Qed.

Lemma iterate_history (base : list message) (remaining : nat) :
  forall (i : nat) (st : Loop),
    history_kept base st -> history_kept base (iterate w remaining i st).
Proof.
  induction remaining as [|remaining IH]; intros i st Hk; cbn [iterate];
    [exact Hk|].
  pose proof (iteration_body_history base i st Hk) as Hbody.
  destruct (iteration_body w i st) as [[|] st']; cbn [snd] in Hbody.
  - apply IH, Hbody.
  - exact Hbody.
Qed.

End AnyEngine.

End HistoryFacts.

(** X22.  The conversation of a session is never shortened or rewritten:
    every request sent to the engine starts with the system prompt and the
    task, and its messages are a prefix of the conversation the session
    ends with. *)
Theorem requests_carry_history (w : Orchestrator.Engine)
    (task prompt : string) (k : nat) (msgs : list Orchestrator.message) :
  Orchestrator.system_prompt w = Some prompt ->
  In (Orchestrator.ApiCall k msgs)
     (Orchestrator.effects (Orchestrator.final (Orchestrator.run_task w task))) ->
  opening prompt task `prefix_of` msgs
  /\ msgs `prefix_of` Orchestrator.conversation (Orchestrator.run_task w task).
Proof.
  intros Hprompt. unfold Orchestrator.run_task. rewrite Hprompt.
  match goal with
  | |- context [Orchestrator.iterate w _ 1 ?st0] =>
      pose proof (HistoryFacts.iterate_history w (opening prompt task)
                    Orchestrator.MAX_ITERATIONS 1 st0) as Hk;
      set (st := Orchestrator.iterate w Orchestrator.MAX_ITERATIONS 1 st0) in *
  end.
  destruct Hk as [_ Hreq].
  { split; [reflexivity|]. intros k' m []. }
  unfold Orchestrator.finalize. cbv zeta.
  cbn [Orchestrator.final Orchestrator.conversation Orchestrator.emit
       Orchestrator.set_metadata Orchestrator.effects].
  intros Hin.
  assert (Hloop : In (Orchestrator.ApiCall k msgs)
                     (Orchestrator.effects (Orchestrator.self st))).
  { repeat (apply in_app_or in Hin as [Hin|[Hin|[]]]; [|discriminate Hin]).
    destruct (_ && _) in Hin; exact Hin. }
  exact (Hreq k msgs Hloop).
Qed.

(** ** How a session ends *)

Module OutcomeFacts.
Import Orchestrator Scenario.

Section AnyEngine.

Variable w : Engine.

Lemma run_commands_keeps (commands : list string) :
  forall (st : Loop) (results : list CommandResult),
    iteration (self (run_commands w commands st results).1) = iteration (self st)
    /\ metadata (self (run_commands w commands st results).1)
       = metadata (self st).
Proof.
  induction commands as [|cmd commands IH]; intros st results;
    cbn [run_commands]; [split; reflexivity|].
  cbv zeta.
  match goal with
  | |- context [run_commands w commands ?st1 ?rs] =>
      destruct (IH st1 rs) as [H1 H2]
  end.
  split; [rewrite H1|rewrite H2]; reflexivity.
Qed.

(** One iteration: the object bears its number; the metadata change only
    when the loop is left, and then by the status alone. *)
Lemma iteration_body_status (i : nat) (st : Loop) :
  iteration (self (iteration_body w i st).2) = i
  /\ match (iteration_body w i st).1 with
     | Continue =>
         metadata (self (iteration_body w i st).2) = metadata (self st)
     | Break =>
         metadata (self (iteration_body w i st).2) = metadata (self st)
         \/ md_status (metadata (self (iteration_body w i st).2))
            = Some "complete"
         \/ md_status (metadata (self (iteration_body w i st).2))
            = Some "blocked"
     end.
Proof.
  unfold iteration_body, get_complete_response.
  destruct (LoopFacts.continuation_loop_frame w 5 "" (messages st)
              (set_iteration i (self st))) as [[Hi Hm _] _].
  set (r := continuation_loop w 5 "" (messages st)
              (set_iteration i (self st))) in *.
  cbn [set_iteration iteration metadata] in Hi, Hm. cbv zeta.
  destruct (String.eqb (completion_status r) "error");
    [split; [exact Hi|left; exact Hm]|].
  destruct (text r) as [content|]; [|split; [exact Hi|exact Hm]].
  destruct (json_loads w (clean_response content))
    as [|status reasoning commands|type_name];
    [split; [exact Hi|exact Hm]| |split; [exact Hi|exact Hm]].
  destruct (String.eqb (default "continue" status) "complete");
    [split; [exact Hi|right; left; reflexivity]|].
  destruct (String.eqb (default "continue" status) "blocked");
    [split; [exact Hi|right; right; reflexivity]|].
  destruct (run_commands_keeps (default [] commands)
              (mkLoop (r_self r) (r_messages r) (total_commands st)
                      (failed_commands st)) []) as [H1 H2].
  destruct (run_commands w (default [] commands) _ []) as [st1 results].
  cbn [fst snd self emit iteration metadata] in *.
  split; [rewrite H1; exact Hi|rewrite H2; exact Hm].
Qed.

Lemma iterate_status (remaining : nat) :
  forall (i : nat) (st : Loop),
    md_status (metadata (self st)) = None ->
    loop_status (metadata (self (iterate w remaining i st)))
    /\ (0 < remaining ->
        i <= iteration (self (iterate w remaining i st)) < i + remaining)%nat.
Proof.
  induction remaining as [|remaining IH]; intros i st Hnone; cbn [iterate].
  - split; [left; exact Hnone|lia].
  - destruct (iteration_body_status i st) as [Hi Hm].
    destruct (iteration_body w i st) as [[|] st']; cbn [fst snd] in Hi, Hm.
    + destruct (IH (S i) st') as (H1 & H2); [rewrite Hm; exact Hnone|].
      split; [exact H1|]. intros _.
      destruct remaining as [|remaining]; [cbn [iterate]; lia|].
      specialize (H2 ltac:(lia)). lia.
    + split; [|lia].
      destruct Hm as [Hm|[Hm|Hm]];
        [left; rewrite Hm; exact Hnone|right; left; exact Hm
        |right; right; exact Hm].
Qed.

End AnyEngine.

End OutcomeFacts.

(** X23.  The status a session records.  Without the system prompt
    [run_task] leaves the process with exit code 1.  With it, between one
    and ten iterations have run when the loop is over, and the status in
    the metadata is then [complete], or [blocked] with the loop left
    before the tenth iteration, or [max_iterations] with the session in
    its tenth iteration, or there is none, with the loop left before the
    tenth iteration; a [blocked] answer in the tenth iteration is recorded
    as [max_iterations].  A summary that [run_task] returns reports that
    status and that iteration. *)
Theorem run_task_outcome (w : Orchestrator.Engine) (task : string) :
  let s := Orchestrator.run_task w task in
  (Orchestrator.system_prompt w = None ->
   Orchestrator.outcome s = Orchestrator.SystemExit 1)
  /\ (Orchestrator.system_prompt w <> None ->
      (1 <= Orchestrator.iteration (Orchestrator.final s)
       <= Orchestrator.MAX_ITERATIONS)%nat
      /\ ((Orchestrator.md_status (Orchestrator.metadata (Orchestrator.final s))
           = None
           /\ (Orchestrator.iteration (Orchestrator.final s)
               < Orchestrator.MAX_ITERATIONS)%nat)
          \/ Orchestrator.md_status
               (Orchestrator.metadata (Orchestrator.final s))
             = Some "complete"
          \/ (Orchestrator.md_status
                (Orchestrator.metadata (Orchestrator.final s))
              = Some "blocked"
              /\ (Orchestrator.iteration (Orchestrator.final s)
                  < Orchestrator.MAX_ITERATIONS)%nat)
          \/ (Orchestrator.md_status
                (Orchestrator.metadata (Orchestrator.final s))
              = Some "max_iterations"
              /\ Orchestrator.iteration (Orchestrator.final s)
                 = Orchestrator.MAX_ITERATIONS))
      /\ forall summary,
           Orchestrator.outcome s = Orchestrator.Returned summary ->
           Orchestrator.md_status
             (Orchestrator.metadata (Orchestrator.final s))
           = Some (Orchestrator.sum_status summary)
           /\ Orchestrator.sum_iterations summary
              = Orchestrator.iteration (Orchestrator.final s)).
Proof.
  cbv zeta. unfold Orchestrator.run_task.
  destruct (Orchestrator.system_prompt w) as [prompt|] eqn:Hprompt;
    [|split; [reflexivity|intros H; contradiction]].
  split; [discriminate|]. intros _.
  match goal with
  | |- context [Orchestrator.iterate w _ 1 ?st0] =>
      destruct (OutcomeFacts.iterate_status w Orchestrator.MAX_ITERATIONS 1 st0)
        as (Hst & Hit); [reflexivity|];
      set (st := Orchestrator.iterate w Orchestrator.MAX_ITERATIONS 1 st0) in *
  end.
  specialize (Hit ltac:(unfold Orchestrator.MAX_ITERATIONS; lia)).
  unfold Orchestrator.finalize. cbv zeta.
  cbn [Orchestrator.outcome Orchestrator.final Orchestrator.emit
       Orchestrator.set_metadata Orchestrator.metadata Orchestrator.iteration
       Orchestrator.md_status].
  unfold Orchestrator.MAX_ITERATIONS in *.
  destruct (Nat.leb_spec 10 (Orchestrator.iteration (Orchestrator.self st)))
    as [Hge|Hlt].
  - destruct Hst as [Hs|[Hs|Hs]]; rewrite Hs;
      try rewrite (bool_decide_eq_false_2 (None = Some "complete"))
        by discriminate;
      try rewrite (bool_decide_eq_true_2 (Some "complete" = Some "complete"))
        by reflexivity;
      try rewrite (bool_decide_eq_false_2 (Some "blocked" = Some "complete"))
        by discriminate;
      cbn [andb negb Orchestrator.set_metadata Orchestrator.set_status
           Orchestrator.metadata Orchestrator.md_status Orchestrator.iteration];
      rewrite ?Hs;
      (split; [lia|]);
      (split;
       [first [right; left; reflexivity
              |right; right; right; split; [reflexivity|lia]]
       |intros summary [= <-]; split; reflexivity]).
  - cbn [andb]. destruct Hst as [Hs|[Hs|Hs]]; rewrite Hs;
      (split; [lia|]).
    + split; [left; split; [reflexivity|lia]|]. intros summary H.
      discriminate H.
    + split; [right; left; reflexivity|].
      intros summary [= <-]. split; reflexivity.
    + split; [right; right; left; split; [reflexivity|lia]|].
      intros summary [= <-]. split; reflexivity.
Qed.

Module FailureFacts.
Import Orchestrator.

(** An engine call that raises ends [get_complete_response] at once. *)
Lemma continuation_loop_raised (w : Engine) (fuel : nat) (acc : string)
    (msgs : list message) (o : Orch) (e : exn) :
  create w (S (api_call_count o)) msgs = ApiRaised e ->
  continuation_loop w (S fuel) acc msgs o
  = mkResponse (if String.eqb acc "" then None else Some acc) "error" msgs
               (emit (ApiCall (S (api_call_count o)) msgs) (count_call o)).
Proof.
  intros H. cbn [continuation_loop]. cbv zeta.
  cbn [count_call emit api_call_count]. rewrite H. reflexivity.
Qed.

End FailureFacts.

(** X24.  A failure of the first engine call ends the session with an
    exception.  When the first call of [client.chat.completions.create]
    raises, [get_complete_response] reports [error], the loop is left in
    its first iteration, the deliverables are copied and the session
    record is written without a status, and [run_task] then raises
    [KeyError('status')] instead of returning its summary. *)
Theorem failed_first_call_raises (w : Orchestrator.Engine)
    (task prompt : string) (e : exn) :
  Orchestrator.system_prompt w = Some prompt ->
  Orchestrator.create w 1 (opening prompt task) = Orchestrator.ApiRaised e ->
  let s := Orchestrator.run_task w task in
  Orchestrator.outcome s = Orchestrator.Raised (KeyError "status")
  /\ Orchestrator.conversation s = opening prompt task
  /\ Orchestrator.api_call_count (Orchestrator.final s) = 1%nat
  /\ Orchestrator.iteration (Orchestrator.final s) = 1%nat
  /\ exists m,
       Orchestrator.effects (Orchestrator.final s)
       = [Orchestrator.ApiCall 1 (opening prompt task);
          Orchestrator.DeliverablesCopied (Orchestrator.workspace_files w);
          Orchestrator.SessionWritten m; Orchestrator.ReportWritten]
       /\ Orchestrator.md_status m = None
       /\ Orchestrator.md_task m = Some task.
Proof.
  intros Hprompt Hcall. cbv zeta. unfold Orchestrator.run_task.
  rewrite Hprompt. fold (opening prompt task).
  change Orchestrator.MAX_ITERATIONS with (S 9).
  cbn [Orchestrator.iterate].
  unfold Orchestrator.iteration_body, Orchestrator.get_complete_response.
  cbn [Orchestrator.messages Orchestrator.self].
  rewrite (FailureFacts.continuation_loop_raised w 4 "" (opening prompt task)
             _ e) by exact Hcall.
  cbn [Orchestrator.completion_status]. cbv zeta.
  change (String.eqb "error" "error") with true. cbv iota.
  unfold Orchestrator.finalize. cbv zeta.
  split; [reflexivity|]. split; [reflexivity|]. split; [reflexivity|].
  split; [reflexivity|]. eexists. split; [reflexivity|].
  split; reflexivity.
Qed.

(** * The further properties on sample worlds *)

Lemma read_file_content_bounded_witness :
  read_file sample_workspace "out/data.csv" 2
  = ReadContent "/opt/coding-agent/workspace/out/data.csv" [49; 44]
  /\ Z.of_nat (List.length [49; 44]) <= 2.
Proof.
  assert (H : read_file sample_workspace "out/data.csv" 2
              = ReadContent "/opt/coding-agent/workspace/out/data.csv" [49; 44])
    by (vm_compute; reflexivity).
  split; [exact H|].
  apply (read_file_content_bounded sample_workspace "out/data.csv" 2
           "/opt/coding-agent/workspace/out/data.csv" [49; 44]);
    [lia|exact H].
Defined.

Lemma write_file_bytes_bounds_witness :
  exists fs',
    write_file bare_workspace "a.txt" [0x68; 0xE9; 0x20AC]
    = (WriteDone "/opt/coding-agent/workspace/a.txt" 6, fs')
    /\ 3 <= 6 <= 4 * 3.
Proof.
  destruct (write_file bare_workspace "a.txt" [0x68; 0xE9; 0x20AC])
    as [r fs'] eqn:E.
  assert (Hr : r = WriteDone "/opt/coding-agent/workspace/a.txt" 6)
    by (apply (f_equal fst) in E; vm_compute in E; symmetry; exact E).
  subst r. exists fs'. split; [reflexivity|].
  exact (write_file_bytes_bounds bare_workspace fs' "a.txt"
           [0x68; 0xE9; 0x20AC] _ 6 E).
Defined.

Lemma write_file_keeps_other_files_witness :
  read_file (write_file sample_workspace "out/new.txt" (text_of "x")).2
            "notes.txt" 200000
  = ReadContent "/opt/coding-agent/workspace/notes.txt" [104; 105].
Proof.
  destruct (write_file sample_workspace "out/new.txt" (text_of "x"))
    as [r fs'] eqn:E.
  apply (write_file_keeps_other_files sample_workspace "out/new.txt"
           "notes.txt" (text_of "x") r fs' 200000 _ _ E).
  - vm_compute. discriminate.
  - vm_compute. reflexivity.
Defined.

Lemma write_file_overwrites_witness :
  exists fs2,
    write_file (write_file bare_workspace "a.txt" (text_of "one")).2
               "a.txt" (text_of "two")
    = (WriteDone "/opt/coding-agent/workspace/a.txt" 3, fs2)
    /\ read_file fs2 "a.txt" 200000
       = ReadContent "/opt/coding-agent/workspace/a.txt" (text_of "two").
Proof.
  destruct (write_file bare_workspace "a.txt" (text_of "one"))
    as [r fs1] eqn:E.
  assert (Hr : r = WriteDone "/opt/coding-agent/workspace/a.txt" 3)
    by (apply (f_equal fst) in E; vm_compute in E; symmetry; exact E).
  subst r.
  destruct (write_file_overwrites bare_workspace "a.txt" (text_of "one")
              (text_of "two") _ 3 fs1 [116; 119; 111] E)
    as (fs2 & H1 & _ & H3); [vm_compute; reflexivity|].
  exists fs2. split; [exact H1|].
  apply H3; [apply valid_text_of|cbn; lia].
Defined.

Lemma write_file_failure_truncates_witness :
  exists fs2,
    success (write_file (write_file bare_workspace "a.txt" (text_of "one")).2
                        "a.txt" [0xD800]).1 = false
    /\ (write_file (write_file bare_workspace "a.txt" (text_of "one")).2
                   "a.txt" [0xD800]).2 = fs2
    /\ read_file fs2 "a.txt" 200000
       = ReadContent "/opt/coding-agent/workspace/a.txt" [].
Proof.
  destruct (write_file bare_workspace "a.txt" (text_of "one"))
    as [r fs1] eqn:E.
  assert (Hr : r = WriteDone "/opt/coding-agent/workspace/a.txt" 3)
    by (apply (f_equal fst) in E; vm_compute in E; symmetry; exact E).
  subst r.
  destruct (write_file_failure_truncates bare_workspace "a.txt"
              (text_of "one") [0xD800] _ 3 fs1
              (Utf8.surrogates_not_allowed 0 0xD800 []) E)
    as (fs2 & H1 & H2); [reflexivity|].
  exists fs2. cbn [snd fst]. rewrite H1.
  split; [reflexivity|]. split; [reflexivity|apply H2].
Defined.

Lemma write_file_idempotent_witness :
  exists fs1,
    write_file bare_workspace "a.txt" (text_of "one")
    = (WriteDone "/opt/coding-agent/workspace/a.txt" 3, fs1)
    /\ write_file fs1 "a.txt" (text_of "one")
       = (WriteDone "/opt/coding-agent/workspace/a.txt" 3, fs1).
Proof.
  destruct (write_file bare_workspace "a.txt" (text_of "one"))
    as [r fs1] eqn:E.
  assert (Hr : r = WriteDone "/opt/coding-agent/workspace/a.txt" 3)
    by (apply (f_equal fst) in E; vm_compute in E; symmetry; exact E).
  subst r. exists fs1. split; [reflexivity|].
  exact (write_file_idempotent bare_workspace "a.txt" (text_of "one") _ 3 fs1 E).
Defined.

Lemma directory_is_no_file_witness :
  write_file sample_workspace "out" (text_of "x")
  = (WriteError "out"
       "[Errno 21] Is a directory: '/opt/coding-agent/workspace/out'",
     sample_workspace)
  /\ read_file sample_workspace "out" 200000
     = ReadError "/opt/coding-agent/workspace/out" "not_a_file".
Proof.
  apply (directory_is_no_file sample_workspace "out"
           (Fs.WORKSPACE ++ ["out"])%list (text_of "x") 200000);
    vm_compute; reflexivity.
Defined.

Lemma write_file_creates_witness :
  exists fs',
    write_file bare_workspace "output/results.csv" (text_of "a,b")
    = (WriteDone "/opt/coding-agent/workspace/output/results.csv" 3, fs')
    /\ Fs.is_dir fs' (Fs.WORKSPACE ++ ["output"])%list = true.
Proof.
  destruct (write_file_creates bare_workspace "output/results.csv"
              Fs.WORKSPACE ["output"; "results.csv"] (text_of "a,b")
              [97; 44; 98])
    as (fs' & H1 & _ & H3 & _).
  - vm_compute. reflexivity.
  - vm_compute. reflexivity.
  - split; [repeat constructor; vm_compute; discriminate
           |vm_compute; reflexivity].
  - discriminate.
  - vm_compute. reflexivity.
  - intros m [k Hk] Hne. destruct m as [|a m]; [contradiction|].
    injection Hk as <- Hk. destruct m as [|b m]; [vm_compute; reflexivity|].
    injection Hk as <- Hk. destruct m; [vm_compute; reflexivity|].
    discriminate Hk.
  - vm_compute. reflexivity.
  - exists fs'. split; [exact H1|].
    apply (H3 ["output"]); [exists ["results.csv"]; reflexivity|discriminate].
Defined.

Lemma written_file_is_listed_witness :
  exists deliverables,
    list_deliverables (write_file bare_workspace "report.txt"
                                  (text_of "done")).2 = Ok deliverables
    /\ "report.txt" ∈ deliverables.
Proof.
  destruct (write_file bare_workspace "report.txt" (text_of "done"))
    as [r fs'] eqn:E.
  assert (Hr : r = WriteDone "/opt/coding-agent/workspace/report.txt" 4)
    by (apply (f_equal fst) in E; vm_compute in E; symmetry; exact E).
  subst r.
  apply (written_file_is_listed bare_workspace fs' "report.txt"
           (text_of "done") _ 4 ["report.txt"] E).
  - vm_compute. reflexivity.
  - apply (bool_decide_eq_false_1
             (Glob.name (Fs.WORKSPACE ++ ["report.txt"])%list ∈ exclude_names)).
    vm_compute. reflexivity.
  - apply (bool_decide_eq_true_1
             (Glob.suffix (Fs.WORKSPACE ++ ["report.txt"])%list ∈ extensions)).
    vm_compute. reflexivity.
Defined.

Lemma listed_deliverable_is_readable_witness :
  list_deliverables sample_workspace = Ok ["notes.txt"; "out/data.csv"]
  /\ exists c, read_file sample_workspace "out/data.csv" 200000
               = ReadContent "/opt/coding-agent/workspace/out/data.csv" c.
Proof.
  assert (Hl : list_deliverables sample_workspace
               = Ok ["notes.txt"; "out/data.csv"])
    by (vm_compute; reflexivity).
  split; [exact Hl|].
  apply (listed_deliverable_is_readable sample_workspace
           ["notes.txt"; "out/data.csv"] "out/data.csv" 200000).
  - intros p n Hp. apply elem_of_list_to_map_2 in Hp.
    repeat (apply elem_of_cons in Hp as [[= -> _]|Hp];
            [repeat constructor; try discriminate; reflexivity|]).
    apply elem_of_nil in Hp. contradiction.
  - exact Hl.
  - apply list_elem_of_In. right. left. reflexivity.
Defined.

Lemma clean_response_unwraps_fence_witness :
  Orchestrator.clean_response
    (Orchestrator.fence ++ "json" ++ Orchestrator.LF ++ Scenario.idle_action
     ++ Orchestrator.LF ++ Orchestrator.fence)
  = Scenario.idle_action.
Proof.
  apply (clean_response_unwraps_fence "json" Scenario.idle_action).
  reflexivity.
Defined.

Lemma requests_carry_history_witness :
  opening "You are an orchestrator." "tidy up"
    `prefix_of` Orchestrator.conversation
                  (Orchestrator.run_task Scenario.prose_engine "tidy up").
Proof.
  destruct (requests_carry_history Scenario.prose_engine "tidy up"
              "You are an orchestrator." 1
              (opening "You are an orchestrator." "tidy up") eq_refl)
    as [_ H]; [|exact H].
  vm_compute. left. reflexivity.
Defined.

Lemma failed_first_call_raises_witness :
  Orchestrator.outcome
    (Orchestrator.run_task (Scenario.fragment_engine []) "tidy up")
  = Orchestrator.Raised (KeyError "status").
Proof.
  apply (failed_first_call_raises (Scenario.fragment_engine []) "tidy up"
           "You are an orchestrator." (APIError "no more fragments"));
    reflexivity.
Defined.

(** ** From [read_file] back to [write_file] *)

Module RewriteFacts.
Import Utf8.

Lemma not_surrogate (v : Z) :
  v < 0xD800 \/ 0xDFFF < v -> is_surrogate v = false.
Proof.
  intros H. unfold is_surrogate.
  destruct (Z.leb_spec 0xD800 v), (Z.leb_spec v 0xDFFF); try reflexivity. lia.
Qed.

Lemma is_continuation_spec (b : Z) :
  is_continuation b = true -> 0x80 <= b <= 0xBF.
Proof.
  unfold is_continuation.
  destruct (Z.leb_spec 0x80 b), (Z.leb_spec b 0xBF); try discriminate. lia.
Qed.

Lemma second_ok_spec (b0 b1 : Z) :
  second_ok b0 b1 = true ->
  0x80 <= b1 <= 0xBF
  /\ (b0 = 0xE0 -> 0xA0 <= b1) /\ (b0 = 0xED -> b1 < 0xA0)
  /\ (b0 = 0xF0 -> 0x90 <= b1) /\ (b0 = 0xF4 -> b1 < 0x90).
Proof.
  unfold second_ok. intros H.
  do 4 (apply andb_true_iff in H as [H ?]).
  apply is_continuation_spec in H.
  repeat match goal with
         | Hn : negb _ = true |- _ => apply negb_true_iff in Hn
         end.
  split; [exact H|].
  repeat split; intros ->;
    repeat match goal with
           | Hn : _ && _ = false |- _ =>
               apply andb_false_iff in Hn as [Hn|Hn];
               [try discriminate Hn|]
           end;
    repeat match goal with
           | Hn : (_ <? _) = false |- _ => apply Z.ltb_ge in Hn
           | Hn : (_ <=? _) = false |- _ => apply Z.leb_gt in Hn
           end; try lia.
Qed.

(** Decoding with replacement yields no surrogate. *)
Lemma decode_replace_no_surrogate (n : nat) :
  forall bs, (List.length bs <= n)%nat ->
             Forall (fun c => is_surrogate c = false) (decode_replace bs).
Proof.
  induction n as [|n IH]; intros [|b0 r0] Hn; try constructor.
  { cbn in Hn. lia. }
  cbn [List.length] in Hn. cbn [decode_replace].
  assert (Hr0 := IH r0 ltac:(lia)).
  assert (Hrep : is_surrogate replacement = false) by reflexivity.
  destruct (Z.ltb_spec b0 0x80);
    [constructor; [apply not_surrogate; lia|exact Hr0]|].
  destruct (Z.ltb_spec b0 0xC2); [constructor; [exact Hrep|exact Hr0]|].
  destruct (Z.leb_spec 0xF5 b0); [constructor; [exact Hrep|exact Hr0]|].
  cbn [orb].
  destruct r0 as [|b1 r1]; [repeat constructor|].
  cbn [List.length] in Hn. assert (Hr1 := IH r1 ltac:(lia)).
  destruct (Z.ltb_spec b0 0xE0).
  { destruct (is_continuation b1) eqn:E1;
      [|constructor; [exact Hrep|exact Hr0]].
    apply is_continuation_spec in E1.
    constructor; [apply not_surrogate; lia|exact Hr1]. }
  destruct (second_ok b0 b1) eqn:E1; cbn [negb];
    [|constructor; [exact Hrep|exact Hr0]].
  apply second_ok_spec in E1 as (Hc1 & Ha & Hb & Hc & Hd).
  destruct r1 as [|b2 r2]; [repeat constructor|].
  cbn [List.length] in Hn. assert (Hr2 := IH r2 ltac:(lia)).
  destruct (is_continuation b2) eqn:E2; cbn [negb];
    [|constructor; [exact Hrep|exact Hr1]].
  apply is_continuation_spec in E2.
  destruct (Z.ltb_spec b0 0xF0).
  { constructor; [|exact Hr2]. apply not_surrogate.
    destruct (Z.eq_dec b0 0xED) as [He|He]; [specialize (Hb He); lia|].
    lia. }
  destruct r2 as [|b3 r3]; [repeat constructor|].
  cbn [List.length] in Hn. assert (Hr3 := IH r3 ltac:(lia)).
  destruct (is_continuation b3) eqn:E3; cbn [negb];
    [|constructor; [exact Hrep|exact Hr2]].
  apply is_continuation_spec in E3.
  constructor; [|exact Hr3]. apply not_surrogate. right.
  destruct (Z.eq_dec b0 0xF0) as [He|He]; [specialize (Hc He); lia|lia].
Qed.

Lemma encode_from_ok (t : text) :
  Forall (fun c => is_surrogate c = false) t ->
  forall i, exists data, encode_from i t = Ok data.
Proof.
  induction 1 as [|c t Hc _ IH]; intros i; cbn [encode_from]; [eauto|].
  rewrite Hc. destruct (IH (S i)) as [bs ->]. rewrite bind_ok. eauto.
Qed.

End RewriteFacts.

(** X25.  What [read_file] has returned can always be written back: the
    content holds no surrogate, whatever bytes the file holds and wherever
    the read was cut, so [write_file] of that content to the same path
    reports success, under the same resolved path. *)
Theorem read_content_can_be_written (fs : Fs.filesystem) (path : string)
    (max_bytes : Z) (q : string) (c : Utf8.text) :
  read_file fs path max_bytes = ReadContent q c ->
  exists data fs',
    Utf8.encode c = Ok data
    /\ write_file fs path c = (WriteDone q (Z.of_nat (List.length data)), fs').
Proof.
  intros Hr.
  destruct (read_file_content fs path max_bytes q c Hr)
    as (p & old & Hp & Hin & -> & Hdata & ->).
  assert (Hs : Fs.stat fs p = Ok (Fs.File old)).
  { unfold Fs.read_bytes in Hdata.
    destruct (Fs.stat fs p) as [[|d]|e]; try discriminate Hdata.
    rewrite bind_ok in Hdata. injection Hdata as ->. reflexivity. }
  destruct (RewriteFacts.encode_from_ok
              (Utf8.decode_replace (slice_to max_bytes old))
              (RewriteFacts.decode_replace_no_surrogate _ _ (le_n _)) 0%nat)
    as [data Henc].
  exists data. eexists. split; [exact Henc|].
  rewrite (WriteFacts.write_file_existing fs path p old _ Hp Hin Hs).
  unfold Utf8.encode. rewrite Henc. reflexivity.
Qed.

Lemma read_content_can_be_written_witness :
  exists data fs',
    Utf8.encode [49; 44] = Ok data
    /\ write_file sample_workspace "out/data.csv" [49; 44]
       = (WriteDone "/opt/coding-agent/workspace/out/data.csv"
                    (Z.of_nat (List.length data)), fs').
Proof.
  apply (read_content_can_be_written sample_workspace "out/data.csv" 2).
  vm_compute. reflexivity.
Defined.

(** ** The iteration logs *)

Module LogFacts.
Import Orchestrator Scenario.

Lemma sorted_snoc (l : list nat) (i : nat) :
  StronglySorted lt l -> Forall (fun n => (n < i)%nat) l ->
  StronglySorted lt (l ++ [i]).
Proof.
  induction 1 as [|x l Hl IH Hx]; intros Hi; cbn [app].
  - repeat constructor.
  - apply Forall_cons in Hi as [Hxi Hi]. constructor; [apply IH, Hi|].
    apply Forall_app. split; [exact Hx|]. repeat constructor. exact Hxi.
Qed.

Section AnyEngine.

Variable w : Engine.

Lemma run_commands_logged (commands : list string) :
  forall (st : Loop) (results : list CommandResult),
    logged_iterations (effects (self (run_commands w commands st results).1))
    = logged_iterations (effects (self st)).
Proof.
  induction commands as [|cmd commands IH]; intros st results;
    cbn [run_commands]; [reflexivity|].
  cbv zeta. rewrite IH. cbn [self emit effects].
  rewrite SessionFacts.logged_iterations_app. cbn. apply app_nil_r.
Qed.

(** One iteration adds its own log, or none. *)
Lemma iteration_body_logged (i : nat) (st : Loop) :
  logged_iterations (effects (self (iteration_body w i st).2))
  = logged_iterations (effects (self st))
  \/ logged_iterations (effects (self (iteration_body w i st).2))
     = (logged_iterations (effects (self st)) ++ [i])%list.
Proof.
  unfold iteration_body, get_complete_response.
  destruct (LoopFacts.continuation_loop_frame w 5 "" (messages st)
              (set_iteration i (self st))) as [Hg _].
  apply SessionFacts.grows_api_calls_logged in Hg.
  set (r := continuation_loop w 5 "" (messages st)
              (set_iteration i (self st))) in *.
  cbn [set_iteration effects] in Hg. cbv zeta.
  destruct (String.eqb (completion_status r) "error"); [left; exact Hg|].
  destruct (text r) as [content|]; [|left; exact Hg].
  destruct (json_loads w (clean_response content))
    as [|status reasoning commands|type_name];
    [left; exact Hg| |left; exact Hg].
  destruct (String.eqb (default "continue" status) "complete");
    [left; exact Hg|].
  destruct (String.eqb (default "continue" status) "blocked");
    [left; exact Hg|].
  pose proof (run_commands_logged (default [] commands)
                (mkLoop (r_self r) (r_messages r) (total_commands st)
                        (failed_commands st)) []) as Hc.
  destruct (run_commands w (default [] commands) _ []) as [st1 results].
  cbn [fst snd self emit effects] in *. right.
  rewrite SessionFacts.logged_iterations_app, Hc, Hg. reflexivity.
Qed.

Lemma iteration_body_in_order (i : nat) (st : Loop) :
  logged_in_order (self st) -> (iteration (self st) < i)%nat ->
  logged_in_order (self (iteration_body w i st).2)
  /\ iteration (self (iteration_body w i st).2) = i.
Proof.
  intros [Hs Hb] Hi.
  destruct (OutcomeFacts.iteration_body_status w i st) as [Hit _].
  split; [|exact Hit]. unfold logged_in_order. rewrite Hit.
  destruct (iteration_body_logged i st) as [-> | ->].
  - split; [exact Hs|]. eapply Forall_impl; [exact Hb|].
    intros n Hn. cbv beta in *. lia.
  - split.
    + apply sorted_snoc; [exact Hs|]. eapply Forall_impl; [exact Hb|].
      intros n Hn. cbv beta in *. lia.
    + apply Forall_app. split.
      * eapply Forall_impl; [exact Hb|]. intros n Hn. cbv beta in *. lia.
      * repeat constructor; lia.
Qed.

Lemma iterate_in_order (remaining : nat) :
  forall (i : nat) (st : Loop),
    logged_in_order (self st) -> (iteration (self st) < i)%nat ->
    logged_in_order (self (iterate w remaining i st)).
Proof.
  induction remaining as [|remaining IH]; intros i st Hk Hi; cbn [iterate];
    [exact Hk|].
  destruct (iteration_body_in_order i st Hk Hi) as [H1 H2].
  destruct (iteration_body w i st) as [[|] st']; cbn [snd] in H1, H2.
  - apply IH; [exact H1|lia].
  - exact H1.
Qed.

End AnyEngine.

End LogFacts.

(** X26.  The iteration logs of a session are in order: an iteration is
    logged once at most, the numbers of the logged iterations increase,
    and none is later than the iteration the session stopped in.  The
    iterations that end the loop, fail to parse or hit a system error
    leave no log. *)
Theorem iteration_logs_in_order (w : Orchestrator.Engine) (task : string) :
  let s := Orchestrator.run_task w task in
  StronglySorted lt
    (Scenario.logged_iterations (Orchestrator.effects (Orchestrator.final s)))
  /\ Forall (fun n => (1 <= n <= Orchestrator.iteration (Orchestrator.final s))%nat)
            (Scenario.logged_iterations
               (Orchestrator.effects (Orchestrator.final s))).
Proof.
  cbv zeta. unfold Orchestrator.run_task.
  destruct (Orchestrator.system_prompt w) as [prompt|];
    [|split; constructor].
  match goal with
  | |- context [Orchestrator.iterate w _ 1 ?st0] =>
      destruct (LogFacts.iterate_in_order w Orchestrator.MAX_ITERATIONS 1 st0)
        as [H1 H2];
      [split; constructor|cbn; lia|];
      set (st := Orchestrator.iterate w Orchestrator.MAX_ITERATIONS 1 st0) in *
  end.
  unfold Orchestrator.finalize. cbv zeta.
  cbn [Orchestrator.final Orchestrator.emit Orchestrator.set_metadata
       Orchestrator.effects Orchestrator.iteration].
  rewrite !SessionFacts.logged_iterations_app.
  cbn [Scenario.logged_iterations]. rewrite !app_nil_r.
  destruct (_ && _); split; assumption.
Qed.

(** * The blocklist, from the text of the command *)

Module BlocklistFacts.
Import Re.

Lemma string_length_app (a b : string) :
  String.length (a ++ b) = (String.length a + String.length b)%nat.
Proof.
  induction a as [|x a IH]; [reflexivity|].
  change (String x a ++ b) with (String x (a ++ b)).
  cbn [String.length]. rewrite IH. reflexivity.
Qed.

Lemma whitespace_isspace (c : ascii) :
  Shlex.is_whitespace c = true -> isspace c = true.
Proof.
  destruct c as [[] [] [] [] [] [] [] []]; intros H;
    first [discriminate H | reflexivity].
Qed.

Lemma word_not_space (c : ascii) : isword c = true -> isspace c = false.
Proof.
  destruct c as [[] [] [] [] [] [] [] []]; intros H;
    first [discriminate H | reflexivity].
Qed.

Lemma plain_char_spec (c : ascii) :
  plain_char c = true ->
  isspace c = false /\ Shlex.is_quote c = false
  /\ Ascii.eqb c Shlex.backslash = false /\ Ascii.eqb c "=" = false.
Proof.
  unfold plain_char.
  destruct (isspace c), (Shlex.is_quote c), (Ascii.eqb c Shlex.backslash),
    (Ascii.eqb c "="); intros H; first [discriminate H | repeat split].
Qed.

Lemma plain_not_whitespace (c : ascii) :
  plain_char c = true -> Shlex.is_whitespace c = false.
Proof.
  intros H. apply plain_char_spec in H as (Hs & _).
  destruct (Shlex.is_whitespace c) eqn:E; [|reflexivity].
  apply whitespace_isspace in E. congruence.
Qed.

(** ** The matcher on runs of characters *)

Lemma rmatch_star (r : regex) (p : pos) (k : pos -> option pos) :
  rmatch (Star r) p k = star_loop (rmatch r) k (S (String.length (rest p))) p.
Proof. reflexivity. Qed.

Lemma star_loop_S (step : pos -> (pos -> option pos) -> option pos)
    (k : pos -> option pos) (n : nat) (p : pos) :
  star_loop step k (S n) p
  = match step p (fun p' => if Nat.ltb 0 (consumed p p')
                            then star_loop step k n p' else None) with
    | Some q => Some q
    | None => k p
    end.
Proof. reflexivity. Qed.

Lemma rmatch_chr_cons (f : ascii -> bool) (b : bool) (x : ascii) (s : string)
    (c : option string) (k : pos -> option pos) :
  rmatch (Chr f) (mkPos b (String x s) c) k
  = if f x then k (mkPos false s c) else None.
Proof.
  cbn [rmatch rest]. unfold advance. cbn [at_start rest cap str_drop Nat.eqb].
  rewrite andb_false_r. reflexivity.
Qed.

Lemma rmatch_chr_nil (f : ascii -> bool) (b : bool) (c : option string)
    (k : pos -> option pos) :
  rmatch (Chr f) (mkPos b "" c) k = None.
Proof. reflexivity. Qed.

Lemma consumed_one (b b' : bool) (x : ascii) (s : string) (c c' : option string) :
  Nat.ltb 0 (consumed (mkPos b (String x s) c) (mkPos b' s c')) = true.
Proof.
  unfold consumed. cbn [rest String.length]. apply Nat.ltb_lt. lia.
Qed.

(** [Star] of a class is greedy: when the continuation succeeds behind the
    whole run, that is the match. *)
Lemma star_chr_greedy (f : ascii -> bool) (k : pos -> option pos) (q : pos)
    (c : option string) (r : string) :
  stops f r ->
  forall (w : string) (b : bool) (n : nat),
    (String.length w < n)%nat ->
    all_chars f w = true ->
    k (mkPos (match w with EmptyString => b | _ => false end) r c) = Some q ->
    star_loop (rmatch (Chr f)) k n (mkPos b (w ++ r) c) = Some q.
Proof.
  intros Hr. induction w as [|x w IH]; intros b n Hn Hw Hk.
  - change ("" ++ r) with r.
    destruct n as [|n]; [cbn [String.length] in Hn; lia|].
    rewrite star_loop_S.
    assert (Hnone : forall k', rmatch (Chr f) (mkPos b r c) k' = None).
    { intros k'. destruct r as [|y r]; [reflexivity|].
      rewrite rmatch_chr_cons. cbn [stops] in Hr. rewrite Hr. reflexivity. }
    rewrite Hnone. exact Hk.
  - change (String x w ++ r) with (String x (w ++ r)).
    cbn [all_chars] in Hw. apply andb_true_iff in Hw as [Hx Hw].
    destruct n as [|n]; [cbn [String.length] in Hn; lia|].
    cbn [String.length] in Hn.
    rewrite star_loop_S, rmatch_chr_cons, Hx, consumed_one.
    rewrite (IH false n); [reflexivity|lia|exact Hw|].
    destruct w; exact Hk.
Qed.

Lemma plus_chr_greedy (f : ascii -> bool) (k : pos -> option pos) (q : pos)
    (c : option string) (r w : string) (b : bool) :
  stops f r -> w <> "" -> all_chars f w = true ->
  k (mkPos false r c) = Some q ->
  rmatch (Plus (Chr f)) (mkPos b (w ++ r) c) k = Some q.
Proof.
  intros Hr Hne Hw Hk. destruct w as [|x w]; [contradiction|].
  change (String x w ++ r) with (String x (w ++ r)).
  cbn [all_chars] in Hw. apply andb_true_iff in Hw as [Hx Hw].
  unfold Plus. cbn [rmatch]. fold (rmatch (Chr f)).
  change (rmatch (Chr f) (mkPos b (String x (w ++ r)) c)
            (fun p' => rmatch (Star (Chr f)) p' k) = Some q).
  rewrite rmatch_chr_cons, Hx, rmatch_star.
  apply (star_chr_greedy f k q c r Hr w false); [cbn [rest]|exact Hw|].
  - rewrite string_length_app. lia.
  - destruct w; exact Hk.
Qed.

(** [Star] of a class fails when the continuation fails behind every
    part of the run. *)
Lemma star_chr_dead (f : ascii -> bool) (k : pos -> option pos)
    (c : option string) :
  forall (n : nat) (s : string) (b : bool),
    (forall j b', all_chars f (str_take j s) = true ->
                  k (mkPos b' (str_drop j s) c) = None) ->
    star_loop (rmatch (Chr f)) k n (mkPos b s c) = None.
Proof.
  induction n as [|n IH]; intros s b H.
  - exact (H 0%nat b eq_refl).
  - rewrite star_loop_S. destruct s as [|x s].
    + rewrite rmatch_chr_nil. exact (H 0%nat b eq_refl).
    + rewrite rmatch_chr_cons. destruct (f x) eqn:Hx;
        [|exact (H 0%nat b eq_refl)].
      rewrite consumed_one, IH; [exact (H 0%nat b eq_refl)|].
      intros j b' Hj. apply (H (S j) b'). cbn [str_take all_chars].
      rewrite Hx. exact Hj.
Qed.

Lemma plus_chr_dead (f : ascii -> bool) (k : pos -> option pos)
    (c : option string) (s : string) (b : bool) :
  (forall j b', all_chars f (str_take j s) = true ->
                k (mkPos b' (str_drop j s) c) = None) ->
  rmatch (Plus (Chr f)) (mkPos b s c) k = None.
Proof.
  intros H. unfold Plus.
  change (rmatch (Chr f) (mkPos b s c)
            (fun p' => rmatch (Star (Chr f)) p' k) = None).
  destruct s as [|x s]; [reflexivity|].
  rewrite rmatch_chr_cons. destruct (f x) eqn:Hx; [|reflexivity].
  rewrite rmatch_star. apply star_chr_dead.
  intros j b' Hj. apply (H (S j) b'). cbn [str_take all_chars].
  rewrite Hx. exact Hj.
Qed.

(** ** One assignment *)

Lemma env_assignments_eq :
  Patterns.env_assignments = Seq Bol (Plus one_assignment).
Proof. reflexivity. Qed.

Lemma assignment_text_app (a : Assignment) (s : string) :
  assignment_text a ++ s = a_key a ++ String "=" (a_value a ++ a_space a ++ s).
Proof.
  unfold assignment_text.
  rewrite !OrchestratorFacts.string_app_assoc. reflexivity.
Qed.

(** Behind the word characters of a plain token and its end there is no
    equals sign. *)
Lemma no_equals_behind_words (tail : string) :
  token_end tail ->
  forall (t : string) (j : nat),
    all_chars plain_char t = true ->
    all_chars isword (str_take j (t ++ tail)) = true ->
    startswith (str_drop j (t ++ tail)) "=" = false.
Proof.
  intros Htail. induction t as [|x t IH]; intros j Ht Hj.
  - change ("" ++ tail) with tail in *.
    destruct Htail as [->|(c & tail' & -> & Hc)].
    + destruct j; reflexivity.
    + destruct j as [|j].
      * cbn [str_drop startswith].
        destruct (Ascii.eqb_spec "=" c) as [<-|_]; [discriminate Hc|reflexivity].
      * cbn [str_take all_chars] in Hj. apply andb_true_iff in Hj as [Hw _].
        apply word_not_space in Hw. apply whitespace_isspace in Hc. congruence.
  - change (String x t ++ tail) with (String x (t ++ tail)) in *.
    cbn [all_chars] in Ht. apply andb_true_iff in Ht as [Hx Ht].
    destruct j as [|j].
    + cbn [str_drop startswith]. apply plain_char_spec in Hx as (_ & _ & _ & He).
      rewrite Ascii.eqb_sym, He. reflexivity.
    + cbn [str_take all_chars] in Hj. apply andb_true_iff in Hj as [_ Hj].
      cbn [str_drop]. exact (IH j Ht Hj).
Qed.

(** No assignment starts at a plain token. *)
Lemma one_assignment_dead (t tail : string) (b : bool) (c : option string)
    (k : pos -> option pos) :
  all_chars plain_char t = true -> token_end tail ->
  rmatch one_assignment (mkPos b (t ++ tail) c) k = None.
Proof.
  intros Ht Htail. unfold one_assignment.
  change (rmatch (Plus word) (mkPos b (t ++ tail) c)
            (fun p' => rmatch (Seq (Lit "=") (Seq (Plus nonspace) (Plus space)))
                              p' k) = None).
  apply plus_chr_dead. intros j b' Hj. cbn [rmatch rest].
  rewrite (no_equals_behind_words tail Htail t j Ht Hj). reflexivity.
Qed.

(** One assignment in front of a text that starts with no white space is
    matched whole. *)
Lemma one_assignment_greedy (a : Assignment) (s : string) (b : bool)
    (c : option string) (k : pos -> option pos) (q : pos) :
  well_formed a -> stops isspace s ->
  k (mkPos false s c) = Some q ->
  rmatch one_assignment (mkPos b (assignment_text a ++ s) c) k = Some q.
Proof.
  intros (Hk1 & Hk2 & Hv1 & Hv2 & Hs1 & Hs2) Hstop Hk.
  rewrite assignment_text_app. unfold one_assignment.
  change (rmatch (Plus word)
            (mkPos b (a_key a ++ String "=" (a_value a ++ a_space a ++ s)) c)
            (fun p' => rmatch (Seq (Lit "=") (Seq (Plus nonspace) (Plus space)))
                              p' k) = Some q).
  apply plus_chr_greedy; [reflexivity|exact Hk1|exact Hk2|].
  change (rmatch (Plus nonspace)
            (advance 1 (mkPos false
                          (String "=" (a_value a ++ a_space a ++ s)) c))
            (fun p' => rmatch (Plus space) p' k) = Some q).
  unfold advance. cbn [at_start rest cap str_drop andb].
  apply (plus_chr_greedy (fun x => negb (isspace x))); [|exact Hv1|exact Hv2|].
  - destruct (a_space a) as [|y sp]; [contradiction|].
    cbn [all_chars] in Hs2. apply andb_true_iff in Hs2 as [Hy _].
    change (negb (isspace y) = false). rewrite Hy. reflexivity.
  - apply (plus_chr_greedy isspace); [exact Hstop|exact Hs1|exact Hs2|exact Hk].
Qed.

(** ** The assignments in front of a command *)

Lemma assignment_text_length (a : Assignment) :
  well_formed a -> (1 <= String.length (assignment_text a))%nat.
Proof.
  intros (Hk1 & _). unfold assignment_text. rewrite string_length_app.
  destruct (a_key a); [contradiction|]. cbn [String.length]. lia.
Qed.

Lemma assignments_text_length (l : list Assignment) :
  Forall well_formed l ->
  (List.length l <= String.length (assignments_text l))%nat.
Proof.
  induction 1 as [|a l Ha _ IH]; [reflexivity|].
  cbn [assignments_text List.length]. rewrite string_length_app.
  pose proof (assignment_text_length a Ha). lia.
Qed.

Lemma assignments_start (l : list Assignment) (t tail : string) :
  Forall well_formed l -> plain_token t ->
  stops isspace (assignments_text l ++ t ++ tail).
Proof.
  intros Hl [Hne Ht]. destruct Hl as [|a l (Hk1 & Hk2 & _) _].
  - destruct t as [|x t]; [contradiction|]. cbn [all_chars] in Ht.
    apply andb_true_iff in Ht as [Hx _].
    apply plain_char_spec in Hx as (Hs & _). exact Hs.
  - cbn [assignments_text]. unfold assignment_text.
    destruct (a_key a) as [|x key]; [contradiction|].
    cbn [all_chars] in Hk2. apply andb_true_iff in Hk2 as [Hx _].
    apply word_not_space in Hx. exact Hx.
Qed.

(** The loop over the assignments stops in front of the token. *)
Lemma assignments_loop (t tail : string) (c : option string) :
  plain_token t -> token_end tail ->
  forall (l : list Assignment) (n : nat) (b : bool),
    Forall well_formed l -> (List.length l <= n)%nat ->
    star_loop (rmatch one_assignment) Some n
              (mkPos b (assignments_text l ++ t ++ tail) c)
    = Some (mkPos (match l with [] => b | _ => false end) (t ++ tail) c).
Proof.
  intros Ht Htail. induction l as [|a l IH]; intros n b Hl Hn.
  - change (assignments_text [] ++ t ++ tail) with (t ++ tail).
    destruct n as [|n]; [reflexivity|].
    rewrite star_loop_S, (one_assignment_dead t tail b c _ (proj2 Ht) Htail).
    reflexivity.
  - apply Forall_cons in Hl as [Ha Hl].
    destruct n as [|n]; [cbn [List.length] in Hn; lia|].
    cbn [List.length] in Hn. rewrite star_loop_S. cbn [assignments_text].
    rewrite OrchestratorFacts.string_app_assoc.
    rewrite (one_assignment_greedy a _ b c _
               (mkPos false (t ++ tail) c) Ha
               (assignments_start l t tail Hl Ht)); [reflexivity|].
    assert (Hc : Nat.ltb 0
                   (consumed
                      (mkPos b (assignment_text a
                                ++ assignments_text l ++ t ++ tail) c)
                      (mkPos false (assignments_text l ++ t ++ tail) c))
                 = true).
    { unfold consumed. cbn [rest]. rewrite string_length_app.
      pose proof (assignment_text_length a Ha). apply Nat.ltb_lt. lia. }
    rewrite Hc, (IH n false Hl) by lia. destruct l; reflexivity.
Qed.

(** [re.sub] takes the assignments away and leaves the rest. *)
Lemma sub_empty_off_start (n : nat) :
  forall s, sub_empty_from n Patterns.env_assignments false s = s.
Proof.
  induction n as [|n IH]; intros s; [reflexivity|].
  cbn [sub_empty_from].
  change (match_here Patterns.env_assignments false s) with (@None pos).
  destruct s as [|x s]; [reflexivity|]. rewrite IH. reflexivity.
Qed.

Lemma env_assignments_removed (l : list Assignment) (t tail : string) :
  Forall well_formed l -> plain_token t -> token_end tail ->
  sub_empty Patterns.env_assignments (assignments_text l ++ t ++ tail)
  = t ++ tail.
Proof.
  intros Hl Ht Htail. unfold sub_empty.
  destruct l as [|a l].
  - change (assignments_text [] ++ t ++ tail) with (t ++ tail).
    assert (Hm : match_here Patterns.env_assignments true (t ++ tail) = None).
    { unfold match_here. rewrite env_assignments_eq.
      change (rmatch one_assignment (mkPos true (t ++ tail) None)
                (fun p' => rmatch (Star one_assignment) p' Some) = None).
      apply one_assignment_dead; [exact (proj2 Ht)|exact Htail]. }
    cbn [sub_empty_from]. rewrite Hm.
    destruct (t ++ tail) as [|x s']; [reflexivity|].
    rewrite sub_empty_off_start. reflexivity.
  - set (s := assignments_text (a :: l) ++ t ++ tail).
    cbn [sub_empty_from].
    apply Forall_cons in Hl as [Ha Hl].
    assert (Hm : match_here Patterns.env_assignments true s
                 = Some (mkPos false (t ++ tail) None)).
    { unfold match_here. rewrite env_assignments_eq. subst s.
      cbn [assignments_text]. rewrite OrchestratorFacts.string_app_assoc.
      change (rmatch one_assignment
                (mkPos true (assignment_text a
                             ++ assignments_text l ++ t ++ tail) None)
                (fun p' => rmatch (Star one_assignment) p' Some)
              = Some (mkPos false (t ++ tail) None)).
      apply one_assignment_greedy;
        [exact Ha|exact (assignments_start l t tail Hl Ht)|].
      rewrite rmatch_star.
      rewrite (assignments_loop t tail None Ht Htail l _ false Hl).
      - destruct l; reflexivity.
      - cbn [rest]. rewrite string_length_app.
        pose proof (assignments_text_length l Hl). lia. }
    rewrite Hm. cbn [rest].
    assert (Hlt : Nat.ltb (String.length (t ++ tail)) (String.length s) = true).
    { subst s. cbn [assignments_text].
      rewrite OrchestratorFacts.string_app_assoc, !string_length_app.
      pose proof (assignment_text_length a Ha). apply Nat.ltb_lt.
      rewrite <- string_length_app. lia. }
    rewrite Hlt. apply sub_empty_off_start.
Qed.

(** ** The first token *)

Lemma lex_word (tail : string) :
  token_end tail ->
  forall (t token : string),
    all_chars plain_char t = true ->
    (exists tokens, Shlex.lex Shlex.InWord token (t ++ tail)
                    = Ok ((token ++ t) :: tokens))
    \/ exists m, Shlex.lex Shlex.InWord token (t ++ tail) = Raise (ValueError m).
Proof.
  intros Htail. induction t as [|x t IH]; intros token Ht.
  - change ("" ++ tail) with tail.
    rewrite OrchestratorFacts.string_app_empty.
    destruct Htail as [->|(c & tail' & -> & Hc)]; [left; eexists; reflexivity|].
    cbn [Shlex.lex]. rewrite Hc.
    destruct (Shlex.lex Shlex.InSpace "" tail') as [tokens|e] eqn:E.
    + left. rewrite bind_ok. eexists. reflexivity.
    + right. rewrite bind_raise.
      destruct (ToolFacts.lex_raises _ _ _ _ E) as [m ->]. eexists. reflexivity.
  - change (String x t ++ tail) with (String x (t ++ tail)).
    cbn [all_chars] in Ht. apply andb_true_iff in Ht as [Hx Ht].
    cbn [Shlex.lex]. rewrite (plain_not_whitespace x Hx).
    apply plain_char_spec in Hx as (_ & Hq & Hb & _). rewrite Hq, Hb.
    destruct (IH (Shlex.snoc token x) Ht) as [(tokens & E)|(m & E)].
    + left. exists tokens. rewrite E. unfold Shlex.snoc.
      rewrite OrchestratorFacts.string_app_assoc. reflexivity.
    + right. exists m. exact E.
Qed.

Lemma shlex_first_token (t tail : string) :
  plain_token t -> token_end tail ->
  (exists tokens, Shlex.split (t ++ tail) = Ok (t :: tokens))
  \/ exists m, Shlex.split (t ++ tail) = Raise (ValueError m).
Proof.
  intros [Hne Ht] Htail. destruct t as [|x t]; [contradiction|].
  change (String x t ++ tail) with (String x (t ++ tail)).
  cbn [all_chars] in Ht. apply andb_true_iff in Ht as [Hx Ht].
  unfold Shlex.split. cbn [Shlex.lex]. rewrite (plain_not_whitespace x Hx).
  apply plain_char_spec in Hx as (_ & Hq & Hb & _). rewrite Hb, Hq.
  exact (lex_word tail Htail t (String x "") Ht).
Qed.

Lemma split_ws_word (tail : string) :
  token_end tail ->
  forall (t w : string),
    all_chars plain_char t = true ->
    exists tokens, split_ws_aux (Some w) (t ++ tail) = (w ++ t) :: tokens.
Proof.
  intros Htail. induction t as [|x t IH]; intros w Ht.
  - change ("" ++ tail) with tail.
    rewrite OrchestratorFacts.string_app_empty.
    destruct Htail as [->|(c & tail' & -> & Hc)]; [eexists; reflexivity|].
    cbn [split_ws_aux]. rewrite (whitespace_isspace c Hc). eexists. reflexivity.
  - change (String x t ++ tail) with (String x (t ++ tail)).
    cbn [all_chars] in Ht. apply andb_true_iff in Ht as [Hx Ht].
    cbn [split_ws_aux]. apply plain_char_spec in Hx as (Hs & _). rewrite Hs.
    destruct (IH (w ++ String x "") Ht) as [tokens E].
    exists tokens. rewrite E, OrchestratorFacts.string_app_assoc. reflexivity.
Qed.

Lemma split_ws_first_token (t tail : string) :
  plain_token t -> token_end tail ->
  exists tokens, split_ws (t ++ tail) = t :: tokens.
Proof.
  intros [Hne Ht] Htail. destruct t as [|x t]; [contradiction|].
  change (String x t ++ tail) with (String x (t ++ tail)).
  cbn [all_chars] in Ht. apply andb_true_iff in Ht as [Hx Ht].
  unfold split_ws. cbn [split_ws_aux].
  apply plain_char_spec in Hx as (Hs & _). rewrite Hs.
  exact (split_ws_word tail Htail t (String x "") Ht).
Qed.

(** What [_extract_binary] makes of a command that names its binary. *)
Lemma extract_binary_named (cmd t : string) :
  names_binary cmd t ->
  _extract_binary cmd = Ok (PurePath.name t)
  \/ exists m, _extract_binary cmd = Raise (ValueError m).
Proof.
  intros (l & tail & Hstrip & Hl & Ht & Htail). unfold _extract_binary.
  rewrite Hstrip, (env_assignments_removed l t tail Hl Ht Htail).
  destruct (negb (_has_shell_syntax (t ++ tail))).
  - destruct (shlex_first_token t tail Ht Htail) as [(tokens & ->)|(m & ->)].
    + left. reflexivity.
    + right. exists m. reflexivity.
  - destruct (split_ws_first_token t tail Ht Htail) as (tokens & ->).
    left. reflexivity.
Qed.

Lemma named_not_blank (cmd t : string) :
  names_binary cmd t ->
  (String.eqb cmd "" || String.eqb (strip cmd) "") = false.
Proof.
  intros (l & tail & Hstrip & Hl & [Hne Ht] & Htail).
  assert (Hs : strip cmd <> "").
  { rewrite Hstrip. intros H. apply (f_equal String.length) in H.
    rewrite !string_length_app in H. destruct t; [contradiction|].
    cbn [String.length] in H. lia. }
  destruct (String.eqb_spec (strip cmd) ""); [contradiction|].
  rewrite orb_false_r. destruct (String.eqb_spec cmd ""); [|reflexivity].
  subst cmd. contradiction Hs. reflexivity.
Qed.

End BlocklistFacts.

Section NamedBinary.

Variable os : OS.
Variable fs : Fs.filesystem.

(** C1, as the code has it.  Take a command that, without the white space
    around it, is made of assignments [KEY=value] (a key of word
    characters, a value that is not empty and holds no white space, white
    space behind it), of a token without white space, quote, backslash or
    equals sign, and of what follows that token after a blank, a tab, a
    carriage return or a line feed.  When the base name of the token is in
    the blocklist, [run_shell] returns a result with return code 126 whose
    [stderr] starts with [BLOCKED:]; it has started no process and has
    left the file system alone. *)
Theorem blocked_binary_never_runs (cmd t : string) (cwd : option string)
    (timeout : Z) :
  names_binary cmd t ->
  PurePath.name t ∈ BLOCKED_BINARIES ->
  let run := run_shell os cmd cwd timeout fs in
  (exists r, value run = Ok r /\ is_blocked cmd r)
  /\ no_spawn run
  /\ fs_after run = fs.
Proof.
  intros Hnamed Hin. cbv zeta.
  destruct (BlocklistFacts.extract_binary_named cmd t Hnamed) as [Hb|(m & Hb)].
  - exact (extracted_binary_never_runs os fs cmd cwd timeout _ Hb Hin).
  - unfold run_shell.
    rewrite (BlocklistFacts.named_not_blank cmd t Hnamed).
    assert (Hv : exists msg,
               _validate_command_safety cmd = Raise (ValueError msg)).
    { unfold _validate_command_safety.
      destruct (first_dangerous (lower cmd)); [eexists; reflexivity|].
      rewrite Hb, bind_raise. eexists. reflexivity. }
    destruct Hv as [msg ->]. cbn [value trace fs_after].
    split; [|split; reflexivity].
    eexists. split; [reflexivity|].
    unfold is_blocked. cbn [returncode stdout command stderr].
    split; [reflexivity|]. split; [reflexivity|]. split; [reflexivity|].
    apply (startswith_app "BLOCKED:" (" " ++ msg)).
Qed.

End NamedBinary.

Lemma blocked_binary_never_runs_witness :
  names_binary "  FOO=1 BAR=x/y /usr/bin/sudo reboot now " "/usr/bin/sudo"
  /\ PurePath.name "/usr/bin/sudo" = "sudo"
  /\ let run := run_shell quiet_os "  FOO=1 BAR=x/y /usr/bin/sudo reboot now "
                          None 60 bare_workspace in
     (exists r, value run = Ok r
                /\ is_blocked "  FOO=1 BAR=x/y /usr/bin/sudo reboot now " r)
     /\ no_spawn run
     /\ fs_after run = bare_workspace.
Proof.
  assert (Hn : names_binary "  FOO=1 BAR=x/y /usr/bin/sudo reboot now "
                            "/usr/bin/sudo").
  { exists [mkAssignment "FOO" "1" " "; mkAssignment "BAR" "x/y" " "],
           " reboot now".
    split; [vm_compute; reflexivity|].
    split; [repeat constructor; discriminate|].
    split; [split; [discriminate|reflexivity]|].
    right. exists " "%char, "reboot now". split; reflexivity. }
  split; [exact Hn|]. split; [reflexivity|].
  apply (blocked_binary_never_runs quiet_os bare_workspace _ _ None 60 Hn).
  apply (bool_decide_eq_true_1 (PurePath.name "/usr/bin/sudo" ∈ BLOCKED_BINARIES)).
  vm_compute. reflexivity.
Defined.

(** C1 as stated fails.  The assignment in front of these two commands
    is not one that the pattern of [_extract_binary] removes whole: the
    first has an empty value, the second a quoted value with a blank in
    it.  The name that [_extract_binary] computes is then not [rm], which
    is in the blocklist; the validator accepts the command, and
    [/bin/bash] is started on a command that runs [rm]. *)
Lemma blocked_binary_counterexample :
  let empty_value := "FOO= rm -rf x; true" in
  let quoted_value := "FOO=" ++ Scenario.quoted "a b" ++ " rm -rf x; true" in
  "rm" ∈ BLOCKED_BINARIES
  /\ _extract_binary empty_value = Ok "FOO="
  /\ _validate_command_safety empty_value = Ok tt
  /\ trace (run_shell quiet_os empty_value None 60 bare_workspace)
     = [ValidateCall empty_value;
        SpawnCall (mkSpawn [empty_value] true WORKSPACE_str 60
                           (Some (shell_env Fs.WORKSPACE)) (Some "/bin/bash"))]
  /\ _extract_binary quoted_value = Ok (String "b" (String "034" ""))
  /\ _validate_command_safety quoted_value = Ok tt
  /\ trace (run_shell quiet_os quoted_value None 60 bare_workspace)
     = [ValidateCall quoted_value;
        SpawnCall (mkSpawn [quoted_value] true WORKSPACE_str 60
                           (Some (shell_env Fs.WORKSPACE)) (Some "/bin/bash"))].
Proof.
  cbv zeta. split.
  - apply (bool_decide_eq_true_1 ("rm" ∈ BLOCKED_BINARIES)).
    vm_compute. reflexivity.
  - repeat split; vm_compute; reflexivity.
Qed.
